(** * Voice-assistant function-call router: a shallow embedding

    The development follows [src/voice_assistant/router.py] and
    [src/voice_assistant/tools.py].  Python values are modelled as the
    interpreter has them: a [str] is a sequence of Unicode code points, a
    parsed JSON document is a tree of Python values, a [float] is an IEEE-754
    binary64 number, and a raised exception is an explicit [Raises] result.

    Library functions the source calls ([re.sub], [str.strip], [json.loads],
    [round], [repr] of a float, [Decimal.quantize], ...) are given executable
    models next to the code that uses them.  What the source obtains from
    outside the process (the Unicode character database beyond ASCII and the
    CJK ideographs, the SymPy evaluator, the weather and arXiv services) is a
    variable of the section that needs it. *)

From Stdlib Require Import Strings.String Strings.Byte.
From Stdlib Require Import ZArith List Bool Lia.
From Stdlib Require Import Floats.SpecFloat.
From Stdlib Require DecimalPos.
Import ListNotations.
Local Open Scope Z_scope.

(** ** Python strings *)

Module PyStr.

(** A Python [str]: a list of code points. *)
Definition str := list Z.

(** Source literals are written as Rocq strings (UTF-8 bytes) and decoded. *)
Fixpoint utf8_decode (need : nat) (acc : Z) (bs : list Z) : str :=
  match bs with
  | [] => []
  | b :: bs' =>
      match need with
      | O =>
          if b <? 128 then b :: utf8_decode 0 0 bs'
          else if b <? 224 then utf8_decode 1 (Z.land b 31) bs'
          else if b <? 240 then utf8_decode 2 (Z.land b 15) bs'
          else utf8_decode 3 (Z.land b 7) bs'
      | S n =>
          let acc' := acc * 64 + Z.land b 63 in
          match n with
          | O => acc' :: utf8_decode 0 0 bs'
          | S _ => utf8_decode n acc' bs'
          end
      end
  end.

Definition py (s : String.string) : str :=
  utf8_decode 0 0
    (map (fun b => Z.of_N (Byte.to_N b)) (String.list_byte_of_string s)).
Arguments py s%_string.

(** The double quote, and literals in which ['] stands for it. *)
Definition dq : Z := 34.
Definition pyq (s : String.string) : str :=
  map (fun c => if c =? 39 then dq else c) (py s).
Arguments pyq s%_string.

Definition str_eqb (a b : str) : bool :=
  if list_eq_dec Z.eq_dec a b then true else false.

Fixpoint starts_with (p s : str) : bool :=
  match p, s with
  | [], _ => true
  | _ :: _, [] => false
  | a :: p', b :: s' => (a =? b) && starts_with p' s'
  end.

(** [sub in s] *)
Fixpoint contains (sub s : str) : bool :=
  starts_with sub s ||
  match s with
  | [] => false
  | _ :: s' => contains sub s'
  end.

(** [s.find(sub)]: [None] stands for [-1]. *)
Fixpoint find (sub s : str) : option nat :=
  if starts_with sub s then Some O
  else match s with
       | [] => None
       | _ :: s' => option_map S (find sub s')
       end.

(** *** Character classes *)

Definition in_range (lo hi c : Z) : bool := (lo <=? c) && (c <=? hi).

Definition is_ascii_digit (c : Z) : bool := in_range 48 57 c.
Definition is_ascii_upper (c : Z) : bool := in_range 65 90 c.
Definition is_ascii_lower (c : Z) : bool := in_range 97 122 c.
Definition is_ascii_alpha (c : Z) : bool := is_ascii_upper c || is_ascii_lower c.

(** [str.isspace] on one code point; also the class [\s] of [re] on [str]
    patterns and what [str.strip()] removes. *)
Definition is_space (c : Z) : bool :=
  in_range 9 13 c || in_range 28 32 c || (c =? 133) || (c =? 160)
  || (c =? 5760) || in_range 8192 8202 c || (c =? 8232) || (c =? 8233)
  || (c =? 8239) || (c =? 8287) || (c =? 12288).

(** The part of the Unicode character database that is not spelled out here:
    [uni_alnum c] is [chr(c).isalnum()] and [uni_lower s i] is what
    [s.lower()] yields for the character at index [i] of [s]; both are only
    consulted for code points above ASCII and outside the CJK unified
    ideographs [U+4E00 .. U+9FA5] (letters without case). *)
Record unicode_db := {
  uni_alnum : Z -> bool;
  uni_lower : str -> nat -> str
}.

Definition is_cjk (c : Z) : bool := in_range 19968 40869 c.

(** The class [\w] of [re] on [str] patterns. *)
Definition is_word (U : unicode_db) (c : Z) : bool :=
  if c <? 128 then is_ascii_digit c || is_ascii_alpha c || (c =? 95)
  else is_cjk c || uni_alnum U c.

Definition lower_char (U : unicode_db) (whole : str) (i : nat) (c : Z) : str :=
  if c <? 128 then [if is_ascii_upper c then c + 32 else c]
  else if is_cjk c then [c]
  else uni_lower U whole i.

Fixpoint lower_from (U : unicode_db) (whole : str) (i : nat) (rest : str) : str :=
  match rest with
  | [] => []
  | c :: r => lower_char U whole i c ++ lower_from U whole (S i) r
  end.

(** [s.lower()] *)
Definition lower (U : unicode_db) (s : str) : str := lower_from U s 0 s.

Fixpoint lstrip (s : str) : str :=
  match s with
  | [] => []
  | c :: s' => if is_space c then lstrip s' else s
  end.

Definition rstrip (s : str) : str := rev (lstrip (rev s)).

(** [s.strip()] *)
Definition strip (s : str) : str := rstrip (lstrip s).

(** *** The regular expressions of [text_to_math_expr] *)

(** [\b] between two neighbours ([None]: the string ends there). *)
Definition word_at (U : unicode_db) (c : option Z) : bool :=
  match c with
  | Some x => is_word U x
  | None => false
  end.

Definition boundary (U : unicode_db) (before after : option Z) : bool :=
  xorb (word_at U before) (word_at U after).

(** Does [r"\b" + re.escape(k) + r"\b"] match at the head of [s], the
    character before being [prev]? *)
Definition word_match (U : unicode_db) (k : str) (prev : option Z) (s : str) : bool :=
  starts_with k s
  && boundary U prev (hd_error s)
  && boundary U (hd_error (rev k)) (hd_error (skipn (length k) s)).

(** [re.sub(r"\b" + re.escape(k) + r"\b", v, s)] for a non-empty literal [k]:
    leftmost matches, not overlapping.  [skip] counts the characters of a
    match still to be consumed. *)
Fixpoint re_sub_word_go (U : unicode_db) (k v : str) (prev : option Z)
    (skip : nat) (s : str) : str :=
  match s with
  | [] => []
  | c :: s' =>
      match skip with
      | S n => re_sub_word_go U k v (Some c) n s'
      | O =>
          if word_match U k prev s
          then v ++ re_sub_word_go U k v (Some c) (Nat.pred (length k)) s'
          else c :: re_sub_word_go U k v (Some c) 0 s'
      end
  end.

Definition re_sub_word (U : unicode_db) (k v s : str) : str :=
  match k with
  | [] => s
  | _ :: _ => re_sub_word_go U k v None 0 s
  end.

(** [re.sub(c + "{2,}", c, s)]: every run of two or more [c] becomes one. *)
Fixpoint collapse_runs (c : Z) (s : str) : str :=
  match s with
  | [] => []
  | x :: s' =>
      match s' with
      | y :: _ => if (x =? c) && (y =? c) then collapse_runs c s'
                  else x :: collapse_runs c s'
      | [] => [x]
      end
  end.

(** [s.replace(old, new)] for a non-empty [old]. *)
Fixpoint replace_go (old new : str) (skip : nat) (s : str) : str :=
  match s with
  | [] => []
  | c :: s' =>
      match skip with
      | S n => replace_go old new n s'
      | O =>
          if starts_with old s
          then new ++ replace_go old new (Nat.pred (length old)) s'
          else c :: replace_go old new 0 s'
      end
  end.

Definition replace (old new s : str) : str :=
  match old with
  | [] => s
  | _ :: _ => replace_go old new 0 s
  end.

End PyStr.
Import PyStr.

(** ** Python values, results and exceptions *)

Module Py.

(** A computation either returns or raises; an exception is kept as its
    class name and its message ([str(e)]). *)
Inductive py_result (A : Type) : Type :=
  | Returns (a : A)
  | Raises (exc msg : str).
Arguments Returns {A} a.
Arguments Raises {A} exc msg.

Definition bind {A B : Type} (r : py_result A) (k : A -> py_result B) : py_result B :=
  match r with
  | Returns a => k a
  | Raises exc msg => Raises exc msg
  end.

Notation "x <- c ;; k" := (bind c (fun x => k))
  (at level 61, c at next level, right associativity).

(** Binary64 numbers. *)
Definition prec : Z := 53.
Definition emax : Z := 1024.
Definition float := spec_float.

(** What [json.loads] and the tools exchange: [None], [bool], [int],
    [float], [str], [list] and [dict] (keys in insertion order, no key
    twice). *)
#[warnings="-register-all"]
Inductive pyval : Type :=
  | PNone
  | PBool (b : bool)
  | PInt (n : Z)
  | PFloat (f : float)
  | PStr (s : str)
  | PList (l : list pyval)
  | PDict (kv : list (str * pyval)).

Fixpoint dict_get (kv : list (str * pyval)) (k : str) : option pyval :=
  match kv with
  | [] => None
  | (k', v) :: kv' => if str_eqb k' k then Some v else dict_get kv' k
  end.

(** [d[k] = v] *)
Fixpoint dict_set (kv : list (str * pyval)) (k : str) (v : pyval) : list (str * pyval) :=
  match kv with
  | [] => [(k, v)]
  | (k', v') :: kv' =>
      if str_eqb k' k then (k', v) :: kv' else (k', v') :: dict_set kv' k v
  end.

(** [k in d] *)
Definition dict_has (kv : list (str * pyval)) (k : str) : bool :=
  match dict_get kv k with
  | Some _ => true
  | None => false
  end.

(** Truth value of an object ([bool(v)]). *)
Definition truthy (v : pyval) : bool :=
  match v with
  | PNone => false
  | PBool b => b
  | PInt n => negb (n =? 0)
  | PFloat (S754_zero _) => false
  | PFloat _ => true
  | PStr s => negb (str_eqb s [])
  | PList l => match l with [] => false | _ :: _ => true end
  | PDict kv => match kv with [] => false | _ :: _ => true end
  end.

(** [type(v).__name__] *)
Definition type_name (v : pyval) : str :=
  match v with
  | PNone => py "NoneType"
  | PBool _ => py "bool"
  | PInt _ => py "int"
  | PFloat _ => py "float"
  | PStr _ => py "str"
  | PList _ => py "list"
  | PDict _ => py "dict"
  end.

(** *** Integers as decimal text *)

Fixpoint uint_digits (d : Decimal.uint) : str :=
  match d with
  | Decimal.Nil => []
  | Decimal.D0 d' => 48 :: uint_digits d'
  | Decimal.D1 d' => 49 :: uint_digits d'
  | Decimal.D2 d' => 50 :: uint_digits d'
  | Decimal.D3 d' => 51 :: uint_digits d'
  | Decimal.D4 d' => 52 :: uint_digits d'
  | Decimal.D5 d' => 53 :: uint_digits d'
  | Decimal.D6 d' => 54 :: uint_digits d'
  | Decimal.D7 d' => 55 :: uint_digits d'
  | Decimal.D8 d' => 56 :: uint_digits d'
  | Decimal.D9 d' => 57 :: uint_digits d'
  end.

(** [str(n)] for an [int]. *)
Definition str_of_int (n : Z) : str :=
  match n with
  | Z0 => [48]
  | Zpos p => uint_digits (Pos.to_uint p)
  | Zneg p => 45 :: uint_digits (Pos.to_uint p)
  end.

(** The value of a run of decimal digits. *)
Definition digits_value (ds : str) : Z :=
  fold_left (fun acc d => acc * 10 + (d - 48)) ds 0.

(** *** Binary64 arithmetic *)

Definition float_of_int (n : Z) : float := binary_normalize prec emax n 0 false.

(** The binary64 number nearest to [p / q] (ties to even), for [q > 0]. *)
Definition float_of_ratio (p q : Z) : float :=
  match p with
  | Z0 => S754_zero false
  | Zpos _ =>
      let '(m, e, l) := SFdiv_core_binary prec emax p 0 q 0 in
      binary_round_aux prec emax false m e l
  | Zneg a =>
      let '(m, e, l) := SFdiv_core_binary prec emax (Zpos a) 0 q 0 in
      binary_round_aux prec emax true m e l
  end.

(** The binary64 number nearest to [n * 10^e10]: how a decimal literal
    ([float("...")]) is read. *)
Definition float_of_decimal (n e10 : Z) : float :=
  if 0 <=? e10 then float_of_int (n * 10 ^ e10)
  else float_of_ratio n (10 ^ (- e10)).

Definition float_sub (x y : float) : float := SFsub prec emax x y.
Definition float_abs (x : float) : float := SFabs x.
Definition float_lt (x y : float) : bool := SFltb x y.

(** [round(f)] with one argument: the nearest integer, ties to even. *)
Definition py_round (f : float) : py_result Z :=
  match f with
  | S754_nan => Raises (py "ValueError") (py "cannot convert float NaN to integer")
  | S754_infinity _ =>
      Raises (py "OverflowError") (py "cannot convert float infinity to integer")
  | S754_zero _ => Returns 0
  | S754_finite s m e =>
      let a :=
        if 0 <=? e then Zpos m * 2 ^ e
        else
          let d := 2 ^ (- e) in
          let q := Zpos m / d in
          let r := Zpos m mod d in
          match 2 * r ?= d with
          | Lt => q
          | Gt => q + 1
          | Eq => if Z.even q then q else q + 1
          end in
      Returns (if s then - a else a)
  end.

(** *** [repr] of a float: the shortest decimal that reads back *)

Section Repr.
Variables (m : positive) (e : Z).

(** The float is [m * 2^e]; everything below is in units of [2^(e-2)],
    so the float is [4m] and its neighbours' midpoints are integers. *)
Definition r_mid : Z := 4 * Zpos m.
Definition r_hi : Z := 4 * Zpos m + 2.
Definition r_lo : Z :=
  if (Zpos m =? 2 ^ (prec - 1)) && (3 - emax - prec <? e)
  then 4 * Zpos m - 1 else 4 * Zpos m - 2.

Definition r_num2 : Z := 2 ^ Z.max 0 (e - 2).
Definition r_den2 : Z := 2 ^ Z.max 0 (2 - e).

(** The candidate [c * 10^k] and a bound [b], on a common denominator. *)
Definition r_cand (k c : Z) : Z := c * 10 ^ Z.max 0 k * r_den2.
Definition r_bound (k b : Z) : Z := b * r_num2 * 10 ^ Z.max 0 (- k).

Definition r_inside (k c : Z) : bool :=
  if Z.even (Zpos m)
  then (r_bound k r_lo <=? r_cand k c) && (r_cand k c <=? r_bound k r_hi)
  else (r_bound k r_lo <? r_cand k c) && (r_cand k c <? r_bound k r_hi).

(** The multiple of [10^k] nearest to the float among those that read
    back as the float, if there is one; of two that are equally near, the
    one whose last digit is even. *)
Definition r_try (k : Z) : option Z :=
  let below := r_bound k r_mid / r_cand k 1 in
  let above := below + 1 in
  let ok_below := (0 <? below) && r_inside k below in
  let ok_above := r_inside k above in
  if ok_below && ok_above then
    match r_bound k r_mid - r_cand k below ?= r_cand k above - r_bound k r_mid with
    | Lt => Some below
    | Gt => Some above
    | Eq => if Z.even below then Some below else Some above
    end
  else if ok_below then Some below
  else if ok_above then Some above
  else None.

Fixpoint r_search (fuel : nat) (k : Z) : Z * Z :=
  match fuel with
  | O => if 0 <=? e then (Zpos m * 2 ^ e, 0) else (Zpos m * 5 ^ (- e), e)
  | S n =>
      match r_try k with
      | Some c => (c, k)
      | None => r_search n (k - 1)
      end
  end.

(** [(c, k)]: the float prints as the digits of [c] scaled by [10^k]. *)
Definition repr_digits : Z * Z :=
  let k0 := Z.max 0 (Zpos (digits2_pos m) + e) in
  r_search (S (Z.to_nat (k0 - Z.min e 0))) k0.
End Repr.

(** A decimal number: sign, coefficient, exponent. *)
Record decimal := { d_neg : bool; d_coef : Z; d_exp : Z }.

Definition zeros (n : Z) : str := repeat 48 (Z.to_nat n).

(** [repr(f)], which is also [str(f)]. *)
Definition float_repr (f : float) : str :=
  match f with
  | S754_nan => py "nan"
  | S754_infinity s => if s then py "-inf" else py "inf"
  | S754_zero s => if s then py "-0.0" else py "0.0"
  | S754_finite s m e =>
      let '(c, k) := repr_digits m e in
      let ds := str_of_int c in
      let n := Z.of_nat (length ds) in
      let decpt := n + k in
      let body :=
        if (decpt <=? -4) || (16 <? decpt) then
          let x := decpt - 1 in
          firstn 1 ds
          ++ (if 1 <? n then 46 :: skipn 1 ds else [])
          ++ [101] ++ [if x <? 0 then 45 else 43]
          ++ (if Z.abs x <? 10 then [48] else []) ++ str_of_int (Z.abs x)
        else if decpt <=? 0 then py "0." ++ zeros (- decpt) ++ ds
        else if n <=? decpt then ds ++ zeros (decpt - n) ++ py ".0"
        else firstn (Z.to_nat decpt) ds ++ [46] ++ skipn (Z.to_nat decpt) ds in
      (if s then [45] else []) ++ body
  end.

(** [Decimal(str(f))] for a finite [f]: the decimal that [repr] spells.
    ([calculate] reaches it after [round(f)] has returned, which excludes
    the infinities and NaN; a quantize of those is an invalid operation.) *)
Definition decimal_of_float_str (f : float) : py_result decimal :=
  match f with
  | S754_zero s => Returns {| d_neg := s; d_coef := 0; d_exp := 0 |}
  | S754_finite s m e =>
      let '(c, k) := repr_digits m e in
      Returns {| d_neg := s; d_coef := c; d_exp := k |}
  | _ => Raises (py "InvalidOperation") (py "[<class 'decimal.InvalidOperation'>]")
  end.

(** [d.quantize(Decimal("0.01"), rounding=ROUND_HALF_UP)]: the coefficient
    of the result, whose exponent is [-2].  The default context has 28
    digits of precision. *)
Definition quantize_cents (d : decimal) : py_result Z :=
  let n :=
    if 0 <=? d_exp d + 2 then d_coef d * 10 ^ (d_exp d + 2)
    else
      let den := 10 ^ (- (d_exp d + 2)) in
      let q := d_coef d / den in
      let r := d_coef d mod den in
      if den <=? 2 * r then q + 1 else q in
  if 10 ^ 28 <=? n
  then Raises (py "InvalidOperation") (py "[<class 'decimal.InvalidOperation'>]")
  else Returns n.

(** [f"{d:.2f}"] for a decimal with coefficient [n] and exponent [-2]. *)
Definition format_cents (neg : bool) (n : Z) : str :=
  (if neg then [45] else [])
  ++ str_of_int (n / 100) ++ [46]
  ++ [48 + (n mod 100) / 10; 48 + (n mod 100) mod 10].

(** [str(v)] as an f-string interpolates it.  The router interpolates
    scalars only (hashing a list or a dict has raised before), so the text
    of the containers is not spelled out. *)
Definition py_str (v : pyval) : str :=
  match v with
  | PNone => py "None"
  | PBool b => if b then py "True" else py "False"
  | PInt n => str_of_int n
  | PFloat f => float_repr f
  | PStr s => s
  | PList _ => py "[...]"
  | PDict _ => py "{...}"
  end.

End Py.
Import Py.

(** ** [json.loads] *)

Module Json.

(** A reference decoder after CPython's [json] scanner: objects, arrays,
    strings with their escapes, numbers, [true], [false], [null] and the
    extensions [NaN], [Infinity], [-Infinity]; [None] when the decoder
    raises.  (The interpreter's recursion limit, which makes the decoder
    raise on documents nested about a thousand levels deep, is not
    modelled; the general statements below hold for any decoder.) *)

Definition is_json_ws (c : Z) : bool :=
  (c =? 32) || (c =? 9) || (c =? 10) || (c =? 13).

Fixpoint skip_ws (s : str) : str :=
  match s with
  | [] => []
  | c :: s' => if is_json_ws c then skip_ws s' else s
  end.

Definition hex_value (c : Z) : option Z :=
  if in_range 48 57 c then Some (c - 48)
  else if in_range 97 102 c then Some (c - 87)
  else if in_range 65 70 c then Some (c - 55)
  else None.

Definition hex4 (a b c d : Z) : option Z :=
  match hex_value a, hex_value b, hex_value c, hex_value d with
  | Some x, Some y, Some z, Some w => Some (((x * 16 + y) * 16 + z) * 16 + w)
  | _, _, _, _ => None
  end.

Definition unescape (c : Z) : option Z :=
  if c =? 34 then Some 34 else if c =? 92 then Some 92
  else if c =? 47 then Some 47 else if c =? 98 then Some 8
  else if c =? 102 then Some 12 else if c =? 110 then Some 10
  else if c =? 114 then Some 13 else if c =? 116 then Some 9
  else None.

(** The text after an opening quote: the decoded string and what follows
    the closing quote. *)
Fixpoint scanstring (acc : str) (s : str) : option (str * str) :=
  match s with
  | [] => None
  | c :: r =>
      if c =? 34 then Some (rev acc, r)
      else if c =? 92 then
        match r with
        | [] => None
        | x :: r1 =>
            if x =? 117 then
              match r1 with
              | h1 :: h2 :: h3 :: h4 :: r2 =>
                  match hex4 h1 h2 h3 h4 with
                  | None => None
                  | Some u =>
                      if in_range 55296 56319 u then
                        match r2 with
                        | b :: v :: g1 :: g2 :: g3 :: g4 :: r3 =>
                            if (b =? 92) && (v =? 117) then
                              match hex4 g1 g2 g3 g4 with
                              | None => None
                              | Some u2 =>
                                  if in_range 56320 57343 u2
                                  then scanstring
                                         (65536 + ((u - 55296) * 1024 + (u2 - 56320)) :: acc) r3
                                  else scanstring (u :: acc) r2
                              end
                            else scanstring (u :: acc) r2
                        | _ => scanstring (u :: acc) r2
                        end
                      else scanstring (u :: acc) r2
                  end
              | _ => None
              end
            else
              match unescape x with
              | Some y => scanstring (y :: acc) r1
              | None => None
              end
        end
      else if c <? 32 then None
      else scanstring (c :: acc) r
  end.

Fixpoint span_digits (s : str) : str * str :=
  match s with
  | [] => ([], [])
  | c :: r =>
      if is_ascii_digit c
      then let '(ds, rest) := span_digits r in (c :: ds, rest)
      else ([], s)
  end.

(** A number: an optional minus, [0] or a digit run not starting with [0],
    an optional fraction (a point and digits), an optional exponent ([e] or
    [E], an optional sign, digits); and its value. *)
Definition match_number (s : str) : option (pyval * str) :=
  let '(neg, s1) := match s with
                    | c :: r => if c =? 45 then (true, r) else (false, s)
                    | [] => (false, s)
                    end in
  match span_digits s1 with
  | ([], _) => None
  | (d :: ds, rest) =>
      let '(ip, s2) := if d =? 48 then ([d], skipn 1 s1) else (d :: ds, rest) in
      let '(frac, s3) :=
        match s2 with
        | c :: r =>
            if c =? 46 then
              match span_digits r with
              | ([], _) => ([], s2)
              | (fd, r') => (fd, r')
              end
            else ([], s2)
        | [] => ([], s2)
        end in
      let '(ex, s4) :=
        match s3 with
        | c :: r =>
            if (c =? 101) || (c =? 69) then
              let '(eneg, r1) :=
                match r with
                | g :: r' => if g =? 45 then (true, r')
                             else if g =? 43 then (false, r') else (false, r)
                | [] => (false, r)
                end in
              match span_digits r1 with
              | ([], _) => (None, s3)
              | (ed, r2) =>
                  (Some (if eneg then - digits_value ed else digits_value ed), r2)
              end
            else (None, s3)
        | [] => (None, s3)
        end in
      match frac, ex with
      | [], None =>
          if (4300 <? Z.of_nat (length ip))%Z then None
          else Some (PInt (if neg then - digits_value ip else digits_value ip), s4)
      | _, _ =>
          let e10 := match ex with Some x => x | None => 0 end in
          let f := float_of_decimal (digits_value (ip ++ frac))
                     (e10 - Z.of_nat (length frac)) in
          Some (PFloat (if neg then SFopp f else f), s4)
      end
  end.

Fixpoint scan_once (fuel : nat) (s : str) : option (pyval * str) :=
  match fuel with
  | O => None
  | S n =>
      match s with
      | [] => None
      | c :: r =>
          if c =? 34 then
            match scanstring [] r with
            | Some (x, rest) => Some (PStr x, rest)
            | None => None
            end
          else if c =? 123 then
            match skip_ws r with
            | c1 :: r1 =>
                if c1 =? 125 then Some (PDict [], r1)
                else members n [] (c1 :: r1)
            | [] => None
            end
          else if c =? 91 then
            match skip_ws r with
            | c1 :: r1 =>
                if c1 =? 93 then Some (PList [], r1)
                else elements n [] (c1 :: r1)
            | [] => None
            end
          else if starts_with (py "null") s then Some (PNone, skipn 4 s)
          else if starts_with (py "true") s then Some (PBool true, skipn 4 s)
          else if starts_with (py "false") s then Some (PBool false, skipn 5 s)
          else if starts_with (py "NaN") s then Some (PFloat S754_nan, skipn 3 s)
          else if starts_with (py "Infinity") s
          then Some (PFloat (S754_infinity false), skipn 8 s)
          else if starts_with (py "-Infinity") s
          then Some (PFloat (S754_infinity true), skipn 9 s)
          else match_number s
      end
  end

(** The members of an object, the text standing at a key's opening quote. *)
with members (fuel : nat) (acc : list (str * pyval)) (s : str) : option (pyval * str) :=
  match fuel with
  | O => None
  | S n =>
      match s with
      | [] => None
      | c :: r =>
          if c =? 34 then
            match scanstring [] r with
            | None => None
            | Some (key, r1) =>
                match skip_ws r1 with
                | c2 :: r2 =>
                    if c2 =? 58 then
                      match scan_once n (skip_ws r2) with
                      | None => None
                      | Some (v, r3) =>
                          let acc' := dict_set acc key v in
                          match skip_ws r3 with
                          | c4 :: r4 =>
                              if c4 =? 125 then Some (PDict acc', r4)
                              else if c4 =? 44 then members n acc' (skip_ws r4)
                              else None
                          | [] => None
                          end
                      end
                    else None
                | [] => None
                end
            end
          else None
      end
  end

(** The elements of an array, the text standing at a value. *)
with elements (fuel : nat) (acc : list pyval) (s : str) : option (pyval * str) :=
  match fuel with
  | O => None
  | S n =>
      match scan_once n s with
      | None => None
      | Some (v, r1) =>
          match skip_ws r1 with
          | c2 :: r2 =>
              if c2 =? 93 then Some (PList (rev (v :: acc)), r2)
              else if c2 =? 44 then elements n (v :: acc) (skip_ws r2)
              else None
          | [] => None
          end
      end
  end.

Definition json_loads (s : str) : option pyval :=
  match scan_once (S (S (2 * length s))) (skip_ws s) with
  | Some (v, rest) =>
      match skip_ws rest with
      | [] => Some v
      | _ :: _ => None
      end
  | None => None
  end.

End Json.

(** ** tools.py *)

Module Tools.

Record ToolResult := { ok : bool; content : str }.

Section Calculate.

(** [float(N(sympify(expression)))]: SymPy parses and evaluates the
    expression; the result, converted to a Python float, or the exception
    any of the three steps raises. *)
Variable sympy_float : pyval -> py_result float.

(** The body of the [try] block. *)
Definition calculate_try (expression : pyval) : py_result ToolResult :=
  f <- sympy_float expression ;;
  r <- py_round f ;;
  if float_lt (float_abs (float_sub f (float_of_int r))) (float_of_decimal 1 (-12))
  then
    r' <- py_round f ;;
    Returns {| ok := true; content := str_of_int r' |}
  else
    d <- decimal_of_float_str f ;;
    n <- quantize_cents d ;;
    let s := format_cents (d_neg d) n in
    let s := if str_eqb s (py "-0.00") then py "0.00" else s in
    Returns {| ok := true; content := s |}.

Definition calculate (expression : pyval) : ToolResult :=
  match calculate_try expression with
  | Returns r => r
  | Raises _ msg =>
      {| ok := false; content := py "Math calculation error: " ++ msg |}
  end.

End Calculate.

End Tools.
Import Tools.

(** ** router.py *)

Module Router.

Definition replacements : list (str * str) :=
  [ (py "open parenthesis", py "(");
    (py "close parenthesis", py ")");
    (py "open bracket", py "(");
    (py "close bracket", py ")");
    (py "to the power of", py "**");
    (py "raised to the power of", py "**");
    (py "multiplied by", py "*");
    (py "times", py "*");
    (py "divide by", py "/");
    (py "divided by", py "/");
    (py "all over", py "/");
    (py "over", py "/");
    (py "加上", py "+"); (py "加", py "+");
    (py "减去", py "-"); (py "减", py "-");
    (py "乘以", py "*"); (py "乘", py "*");
    (py "除以", py "/"); (py "除", py "/") ].

Definition single_words : list (str * str) :=
  [ (py "plus", py "+");
    (py "minus", py "-");
    (py "mod", py "%");
    (py "modulo", py "%");
    (py "squared", py "**2");
    (py "cubed", py "**3") ].

Definition noise : list str :=
  [ py "what is"; py "what's"; py "whats"; py "result"; py "equals";
    py "calculate"; py "compute";
    py "请问"; py "等于多少"; py "结果是多少"; py "计算一下"; py "帮我算" ].

(** The characters [[0-9\.\+\-\*\/\%\(\)\s]]. *)
Definition is_expr_char (c : Z) : bool :=
  is_ascii_digit c || (c =? 46) || (c =? 43) || (c =? 45) || (c =? 42)
  || (c =? 47) || (c =? 37) || (c =? 40) || (c =? 41) || is_space c.

(** The class [[\+\-\*\/\%\^]]. *)
Definition is_operator_char (c : Z) : bool :=
  (c =? 43) || (c =? 45) || (c =? 42) || (c =? 47) || (c =? 37) || (c =? 94).

(** [re.search(r'(\*\*|[\+\-\*\/\%\^])', expr)] finds a match. *)
Fixpoint search_operator (expr : str) : bool :=
  match expr with
  | [] => false
  | c :: r =>
      starts_with (py "**") expr || is_operator_char c || search_operator r
  end.

Definition weather_words : list str :=
  [ py "weather"; py "forecast"; py "temperature";
    py "下雨"; py "天气"; py "气温"; py "预报" ].

Definition arxiv_words : list str :=
  [ py "arxiv"; py "paper"; py "papers"; py "literature";
    py "recent research"; py "latest research";
    py "论文"; py "检索"; py "文献"; py "最近研究" ].

Definition time_words : list str :=
  [ py "today"; py "tomorrow"; py "now"; py "tonight"; py "morning";
    py "afternoon"; py "evening"; py "night" ].

Definition ALIASES : list (str * str) :=
  [ (py "recent_papers", py "search_arxiv");
    (py "search_papers", py "search_arxiv");
    (py "find_papers", py "search_arxiv");
    (py "arxiv_search", py "search_arxiv") ].

Fixpoint span (p : Z -> bool) (s : str) : str * str :=
  match s with
  | [] => ([], [])
  | c :: r => if p c then let '(a, b) := span p r in (c :: a, b) else ([], s)
  end.

(** Does the lower-case ASCII letter [p] of a pattern match [c] under
    [re.IGNORECASE]?  Beside the two ASCII cases, [i] matches U+0130 and
    U+0131, [s] matches U+017F and [k] matches U+212A. *)
Definition ci_eq (p c : Z) : bool :=
  (c =? p) || (is_ascii_upper c && (c + 32 =? p))
  || ((p =? 105) && ((c =? 304) || (c =? 305)))
  || ((p =? 115) && (c =? 383))
  || ((p =? 107) && (c =? 8490)).

Fixpoint ci_starts_with (p s : str) : bool :=
  match p, s with
  | [], _ => true
  | _ :: _, [] => false
  | a :: p', b :: s' => ci_eq a b && ci_starts_with p' s'
  end.

(** *** The fenced blocks of [_extract_json_call] *)

Definition fence : str := [96; 96; 96].

(** After the opening brace of a block: the lazy [.*?] stops at the first
    closing brace that white space and a fence follow.  The result is the
    text through that brace and the number of characters up to the end of
    the fence. *)
Fixpoint close_fence (acc : str) (s : str) : option (str * nat) :=
  match s with
  | [] => None
  | c :: r =>
      let '(ws, rest) := span is_space r in
      if (c =? 125) && starts_with fence rest
      then Some (rev (c :: acc), S (length acc) + length ws + 3)%nat
      else close_fence (c :: acc) r
  end.

(** A match of [```(?:json)?\s*(\{.*?\})\s*```] (flags [S] and [I]) at
    the head of [s]: group 1 and the length of the match. *)
Definition match_fence (s : str) : option (str * nat) :=
  if starts_with fence s then
    let r0 := skipn 3 s in
    let tagged := ci_starts_with (py "json") r0 in
    let r1 := if tagged then skipn 4 r0 else r0 in
    let '(ws, r2) := span is_space r1 in
    match r2 with
    | c :: r3 =>
        if c =? 123 then
          match close_fence [] r3 with
          | Some (body, n) =>
              Some (c :: body,
                    3 + (if tagged then 4 else 0) + length ws + 1 + n)%nat
          | None => None
          end
        else None
    | [] => None
    end
  else None.

(** [[m.group(1) for m in re.finditer(..., s)]] *)
Fixpoint fenced_blocks (skip : nat) (s : str) : list str :=
  match s with
  | [] => []
  | _ :: s' =>
      match skip with
      | S n => fenced_blocks n s'
      | O =>
          match match_fence s with
          | Some (g, len) => g :: fenced_blocks (Nat.pred len) s'
          | None => fenced_blocks 0 s'
          end
      end
  end.

(** *** The weather rule's city *)

Definition is_city_char (c : Z) : bool :=
  is_ascii_alpha c || is_space c || (c =? 44).

(** A match of [weather\s+(?:in|at|for)\s+([a-zA-Z\s,]+)] at the head of
    [s]: group 1. *)
Definition match_city (s : str) : option str :=
  if starts_with (py "weather") s then
    let '(w1, r1) := span is_space (skipn 7 s) in
    match w1 with
    | [] => None
    | _ :: _ =>
        let after :=
          if starts_with (py "in") r1 then Some (skipn 2 r1)
          else if starts_with (py "at") r1 then Some (skipn 2 r1)
          else if starts_with (py "for") r1 then Some (skipn 3 r1)
          else None in
        match after with
        | None => None
        | Some r2 =>
            let '(w2, r3) := span is_space r2 in
            match w2 with
            | [] => None
            | _ :: _ =>
                match span is_city_char r3 with
                | (c :: g, _) => Some (c :: g)
                | ([], _) =>
                    match rev w2 with
                    | z :: _ :: _ => Some [z]
                    | _ => None
                    end
                end
            end
        end
    end
  else None.

(** [re.search] of that pattern. *)
Fixpoint search_city (s : str) : option str :=
  match match_city s with
  | Some g => Some g
  | None => match s with
            | [] => None
            | _ :: s' => search_city s'
            end
  end.

(** The first of the alternatives [\b(w1|w2|...)\b] that matches at the
    head of [s], ignoring case: its length. *)
Fixpoint match_time_word (U : unicode_db) (alts : list str) (prev : option Z)
    (s : str) : option nat :=
  match alts with
  | [] => None
  | k :: alts' =>
      if ci_starts_with k s
         && boundary U prev (hd_error s)
         && boundary U (hd_error (skipn (Nat.pred (length k)) s))
                       (hd_error (skipn (length k) s))
      then Some (length k)
      else match_time_word U alts' prev s
  end.

(** [re.sub(r'\b(today|...|night)\b', '', city, flags=re.IGNORECASE)] *)
Fixpoint drop_time_words (U : unicode_db) (prev : option Z) (skip : nat)
    (s : str) : str :=
  match s with
  | [] => []
  | c :: s' =>
      match skip with
      | S n => drop_time_words U (Some c) n s'
      | O =>
          match match_time_word U time_words prev s with
          | Some len => drop_time_words U (Some c) (Nat.pred len) s'
          | None => c :: drop_time_words U (Some c) 0 s'
          end
      end
  end.

(** [re.sub(r'\s+', ' ', city)] *)
Fixpoint squeeze_spaces (s : str) : str :=
  match s with
  | [] => []
  | c :: s' =>
      if is_space c then
        match s' with
        | d :: _ => if is_space d then squeeze_spaces s' else 32 :: squeeze_spaces s'
        | [] => [32]
        end
      else c :: squeeze_spaces s'
  end.

(** The tools a routing step invokes, with their arguments, and its reply
    ([None]: Python's [None], "no call" or "no rule matched"). *)
Inductive tool := T_calculate | T_get_weather | T_search_arxiv.

Record outcome := { calls : list (tool * pyval); reply : option str }.

Section Routing.

Variable U : unicode_db.

(** [json.loads]; [None] when it raises. *)
Variable json_loads : str -> option pyval.

(** SymPy's evaluation (see [Tools.calculate]) and the two tools that
    query a service; each tool catches what its body raises and always
    returns a [ToolResult]. *)
Variable sympy_float : pyval -> py_result float.
Variable get_weather : pyval -> ToolResult.
Variable search_arxiv : pyval -> ToolResult.

Definition text_to_math_expr (q : str) : str :=
  let s := lower U q in
  let s := fold_left (fun s kv => re_sub_word U (fst kv) (snd kv) s) replacements s in
  let s := fold_left (fun s kv => re_sub_word U (fst kv) (snd kv) s) single_words s in
  let s := fold_left (fun s k => re_sub_word U k (py " ") s) noise s in
  let s := map (fun c => if is_expr_char c then c else 32) s in
  let s := filter (fun c => negb (is_space c)) s in
  let s := collapse_runs 43 s in
  let s := collapse_runs 45 s in
  let s := collapse_runs 47 s in
  replace (py "**+") (py "**") s.

(** [isinstance(obj, dict) and "function" in obj] after a [json.loads]
    that may have raised. *)
Definition function_object (r : option pyval) : option (list (str * pyval)) :=
  match r with
  | Some (PDict kv) => if dict_has kv (py "function") then Some kv else None
  | _ => None
  end.

(** The loop over the fenced blocks. *)
Fixpoint first_block (blocks : list str) : option (list (str * pyval)) :=
  match blocks with
  | [] => None
  | g :: rest =>
      match function_object (json_loads (strip g)) with
      | Some kv => Some kv
      | None => first_block rest
      end
  end.

(** The bracket-matching loop from [idx]: [chunk] holds [s[idx:j]]
    reversed. *)
Fixpoint brace_scan (depth : Z) (chunk : str) (s : str)
  : option (list (str * pyval)) :=
  match s with
  | [] => None
  | c :: r =>
      if c =? 123 then brace_scan (depth + 1) (c :: chunk) r
      else if c =? 125 then
        if depth - 1 =? 0 then
          match json_loads (rev (c :: chunk)) with
          | None => None
          | Some obj =>
              match function_object (Some obj) with
              | Some kv => Some kv
              | None => brace_scan (depth - 1) (c :: chunk) r
              end
          end
        else brace_scan (depth - 1) (c :: chunk) r
      else brace_scan depth (c :: chunk) r
  end.

Definition opener : str := [123; dq] ++ py "function" ++ [dq].

Definition _extract_json_call (text : str) : option (list (str * pyval)) :=
  let s := strip text in
  match function_object (json_loads s) with
  | Some kv => Some kv
  | None =>
      match first_block (fenced_blocks 0 s) with
      | Some kv => Some kv
      | None =>
          match find opener s with
          | Some idx => brace_scan 0 [] (skipn idx s)
          | None => None
          end
      end
  end.

(** [ALIASES.get(func, func)]: the key is hashed first. *)
Definition aliases_get (func : pyval) : py_result pyval :=
  match func with
  | PList _ | PDict _ =>
      Raises (py "TypeError") (py "unhashable type: '" ++ type_name func ++ py "'")
  | PStr name =>
      match List.find (fun kv => str_eqb (fst kv) name) ALIASES with
      | Some kv => Returns (PStr (snd kv))
      | None => Returns func
      end
  | _ => Returns func
  end.

(** [args.get(key, "")] *)
Definition args_get (args : pyval) (key : str) : py_result pyval :=
  match args with
  | PDict kv =>
      Returns match dict_get kv key with Some v => v | None => PStr [] end
  | _ =>
      Raises (py "AttributeError")
        (py "'" ++ type_name args ++ py "' object has no attribute 'get'")
  end.

(** [func == name] for a string literal [name]. *)
Definition is_name (func : pyval) (name : str) : bool :=
  match func with
  | PStr s => str_eqb s name
  | _ => false
  end.

Definition calculate : pyval -> ToolResult := Tools.calculate sympy_float.

(** The body of the [try] block of [try_route_llm_function_call]. *)
Definition dispatch (func args : pyval) : py_result outcome :=
  if is_name func (py "get_weather") then
    a <- args_get args (py "location") ;;
    let r := get_weather a in
    Returns {| calls := [(T_get_weather, a)];
               reply := Some (if ok r then content r
                              else py "Error from get_weather: " ++ content r) |}
  else if is_name func (py "calculate") then
    a <- args_get args (py "expression") ;;
    let r := calculate a in
    Returns {| calls := [(T_calculate, a)];
               reply := Some (if ok r then content r
                              else py "Error from calculate: " ++ content r) |}
  else if is_name func (py "search_arxiv") then
    a <- args_get args (py "query") ;;
    let r := search_arxiv a in
    Returns {| calls := [(T_search_arxiv, a)];
               reply := Some (if ok r then content r
                              else py "Error from search_arxiv: " ++ content r) |}
  else
    Returns {| calls := [];
               reply := Some (py "Error: Unknown function '" ++ py_str func ++ py "'") |}.

Definition try_route_llm_function_call (llm_output : str) : py_result outcome :=
  match _extract_json_call llm_output with
  | None => Returns {| calls := []; reply := None |}
  | Some [] => Returns {| calls := []; reply := None |}
  | Some obj =>
      let func := match dict_get obj (py "function") with
                  | Some v => v
                  | None => PNone
                  end in
      func <- aliases_get func ;;
      let args := match dict_get obj (py "arguments") with
                  | Some v => if truthy v then v else PDict []
                  | None => PDict []
                  end in
      match dispatch func args with
      | Returns o => Returns o
      | Raises _ e =>
          Returns {| calls := [];
                     reply := Some (py "Error: Could not process function call. Details: "
                                    ++ e) |}
      end
  end.

Definition maybe_call_by_rules (user_text : str) : py_result outcome :=
  let q := strip user_text in
  let ql := lower U q in
  let expr := text_to_math_expr q in
  if negb (str_eqb expr []) && search_operator expr then
    let r := calculate (PStr expr) in
    Returns {| calls := [(T_calculate, PStr expr)];
               reply := Some (if ok r then content r
                              else py "Error from calculate: " ++ content r) |}
  else if existsb (fun w => contains w ql) weather_words then
    let city := match search_city ql with
                | Some g => strip g
                | None => []
                end in
    let city := strip (drop_time_words U None 0 city) in
    let city := strip (squeeze_spaces city) in
    let r := get_weather (PStr city) in
    Returns {| calls := [(T_get_weather, PStr city)];
               reply := Some (if ok r then content r
                              else py "Error from get_weather: " ++ content r) |}
  else if existsb (fun w => contains w ql) arxiv_words then
    let r := search_arxiv (PStr q) in
    Returns {| calls := [(T_search_arxiv, PStr q)];
               reply := Some (if ok r then content r
                              else py "Error from search_arxiv: " ++ content r) |}
  else Returns {| calls := []; reply := None |}.

End Routing.

End Router.
Import Router.

(** ** A reference evaluator for [float(N(sympify(expression)))]

    SymPy is not part of the repository.  Concrete calls of [calculate] are
    evaluated against this reference, which covers the expressions made of
    decimal integer literals, [+], [-], [*], [/] and parentheses: SymPy
    reads such a string with Python's grammar, computes with exact rationals
    and [N] and [float] give the nearest binary64 number.  A string over
    these characters that Python's grammar rejects makes [sympify] raise.
    Outside this fragment (other characters, [**], [//], a literal with a
    leading zero, a division by zero, a result outside the normal range,
    an argument that is not a string) the reference is not meant to be
    used; it answers with a raise there. *)

Module SympyRef.

Inductive token :=
  | TInt (n : Z) | TPlus | TMinus | TStar | TSlash | TLpar | TRpar.

Definition flush (num : option str) (ts : option (list token)) : option (list token) :=
  match num, ts with
  | _, None => None
  | None, Some l => Some l
  | Some ds, Some l =>
      match rev ds with
      | d :: _ :: _ => if d =? 48 then None else Some (TInt (digits_value (rev ds)) :: l)
      | _ => Some (TInt (digits_value (rev ds)) :: l)
      end
  end.

(** [num] holds the digits of the literal being read, last first. *)
Fixpoint tokenize (num : option str) (s : str) : option (list token) :=
  match s with
  | [] => flush num (Some [])
  | c :: r =>
      if is_ascii_digit c then
        tokenize (Some (c :: match num with Some ds => ds | None => [] end)) r
      else
        let op (t : token) := flush num (option_map (cons t) (tokenize None r)) in
        if c =? 43 then op TPlus
        else if c =? 45 then op TMinus
        else if c =? 42 then
          match r with
          | d :: _ => if d =? 42 then None else op TStar
          | [] => op TStar
          end
        else if c =? 47 then
          match r with
          | d :: _ => if d =? 47 then None else op TSlash
          | [] => op TSlash
          end
        else if c =? 40 then op TLpar
        else if c =? 41 then op TRpar
        else None
  end.

(** A rational [num / den] with [den > 0]. *)
Definition rat := (Z * Z)%type.

Definition rat_add (a b : rat) : rat := (fst a * snd b + fst b * snd a, snd a * snd b).
Definition rat_sub (a b : rat) : rat := (fst a * snd b - fst b * snd a, snd a * snd b).
Definition rat_mul (a b : rat) : rat := (fst a * fst b, snd a * snd b).
Definition rat_neg (a : rat) : rat := (- fst a, snd a).
Definition rat_div (a b : rat) : option rat :=
  match fst b with
  | Z0 => None
  | Zpos _ => Some (fst a * snd b, snd a * fst b)
  | Zneg _ => Some (- (fst a * snd b), - (snd a * fst b))
  end.

Inductive parsed :=
  | POk (v : rat) (rest : list token)
  | PSyntax
  | PUnsupported.

(** Python's expression grammar on these tokens:
    [sum := term (('+'|'-') term)*], [term := factor (('*'|'/') factor)*],
    [factor := ('+'|'-') factor | INT | '(' sum ')']. *)
Fixpoint p_factor (fuel : nat) (ts : list token) : parsed :=
  match fuel with
  | O => PUnsupported
  | S n =>
      match ts with
      | TPlus :: r => p_factor n r
      | TMinus :: r =>
          match p_factor n r with
          | POk v r' => POk (rat_neg v) r'
          | e => e
          end
      | TInt k :: r => POk (k, 1) r
      | TLpar :: r =>
          match p_sum n r with
          | POk v (TRpar :: r') => POk v r'
          | POk _ _ => PSyntax
          | e => e
          end
      | _ => PSyntax
      end
  end
with p_term_rest (fuel : nat) (acc : rat) (ts : list token) : parsed :=
  match fuel with
  | O => PUnsupported
  | S n =>
      match ts with
      | TStar :: r =>
          match p_factor n r with
          | POk v r' => p_term_rest n (rat_mul acc v) r'
          | e => e
          end
      | TSlash :: r =>
          match p_factor n r with
          | POk v r' =>
              match rat_div acc v with
              | Some q => p_term_rest n q r'
              | None => PUnsupported
              end
          | e => e
          end
      | _ => POk acc ts
      end
  end
with p_term (fuel : nat) (ts : list token) : parsed :=
  match fuel with
  | O => PUnsupported
  | S n =>
      match p_factor n ts with
      | POk v r => p_term_rest n v r
      | e => e
      end
  end
with p_sum_rest (fuel : nat) (acc : rat) (ts : list token) : parsed :=
  match fuel with
  | O => PUnsupported
  | S n =>
      match ts with
      | TPlus :: r =>
          match p_term n r with
          | POk v r' => p_sum_rest n (rat_add acc v) r'
          | e => e
          end
      | TMinus :: r =>
          match p_term n r with
          | POk v r' => p_sum_rest n (rat_sub acc v) r'
          | e => e
          end
      | _ => POk acc ts
      end
  end
with p_sum (fuel : nat) (ts : list token) : parsed :=
  match fuel with
  | O => PUnsupported
  | S n =>
      match p_term n ts with
      | POk v r => p_sum_rest n v r
      | e => e
      end
  end.

Definition is_normal_or_zero (f : float) : bool :=
  match f with
  | S754_zero _ => true
  | S754_finite _ m _ => Zpos (digits2_pos m) =? prec
  | _ => false
  end.

Definition unsupported : py_result float :=
  Raises (py "SympifyError") (py "expression outside the reference fragment").

Definition syntax_error (s : str) : py_result float :=
  Raises (py "SympifyError") (py "could not parse '" ++ s ++ py "'").

Definition sympy_float (expression : pyval) : py_result float :=
  match expression with
  | PStr s =>
      match tokenize None s with
      | None => unsupported
      | Some ts =>
          match p_sum (4 * length ts + 4) ts with
          | POk v [] =>
              let f := float_of_ratio (fst v) (snd v) in
              if is_normal_or_zero f then Returns f else unsupported
          | POk _ (_ :: _) => syntax_error s
          | PSyntax => syntax_error s
          | PUnsupported => unsupported
          end
      end
  | _ => unsupported
  end.

End SympyRef.

(** ** Vocabulary of the statements *)

Module Spec.

(** The arithmetic operator characters [+ - * / %]. *)
Definition is_arith_char (c : Z) : bool :=
  (c =? 43) || (c =? 45) || (c =? 42) || (c =? 47) || (c =? 37).

Definition has_arith (s : str) : Prop :=
  exists c, In c s /\ is_arith_char c = true.

(** [sub] occurs in [s] as a contiguous piece. *)
Definition substring (sub s : str) : Prop :=
  exists a b, s = a ++ sub ++ b.

(** Where the bracket count started at [depth] first comes back to zero:
    the number of characters through that closing brace. *)
Fixpoint first_balance (depth : Z) (s : str) : option nat :=
  match s with
  | [] => None
  | c :: r =>
      if c =? 123 then option_map S (first_balance (depth + 1) r)
      else if c =? 125 then
        if depth - 1 =? 0 then Some 1%nat
        else option_map S (first_balance (depth - 1) r)
      else option_map S (first_balance depth r)
  end.

(** The alias table applied to a name. *)
Definition resolve (name : str) : str :=
  match List.find (fun kv => str_eqb (fst kv) name) ALIASES with
  | Some kv => snd kv
  | None => name
  end.

(** The names [try_route_llm_function_call] dispatches on. *)
Definition registered (name : str) : bool :=
  str_eqb name (py "get_weather") || str_eqb name (py "calculate")
  || str_eqb name (py "search_arxiv").

(** What can be passed to [dict.get] as a key. *)
Definition hashable (v : pyval) : bool :=
  match v with
  | PList _ | PDict _ => false
  | _ => true
  end.

Definition count_char (c : Z) (s : str) : nat := count_occ Z.eq_dec s c.

Definition no_letters (s : str) : bool := forallb (fun c => negb (is_ascii_alpha c)) s.

Definition no_backtick (s : str) : bool := forallb (fun c => negb (c =? 96)) s.

Definition all_space (s : str) : bool := forallb is_space s.

(** *** The reference environment

    Concrete inputs are evaluated with the reference decoder
    [Json.json_loads], the reference evaluator [SympyRef.sympy_float], the
    tables below and services that cannot be reached. *)

(** Unicode tables that leave every code point they are asked about
    unclassified and unchanged; ASCII and CJK text never consults them. *)
Definition plain_unicode : unicode_db :=
  {| uni_alnum := fun _ => false;
     uni_lower := fun s i => match nth_error s i with Some c => [c] | None => [] end |}.

(** A service that cannot be reached: the tool reports a failure. *)
Definition offline (what : str) : pyval -> ToolResult :=
  fun _ => {| ok := false; content := what ++ py " error: offline" |}.

(** The rendering of a tool's result by the router. *)
Definition rendered (name : str) (r : ToolResult) : str :=
  if ok r then content r else py "Error from " ++ name ++ py ": " ++ content r.

(** *** Placement of a payload *)

(** No block of the list decodes to an object with a [function] field. *)
Definition no_call_among (json_loads : str -> option pyval) (blocks : list str)
  : bool :=
  forallb (fun g => match function_object (json_loads (strip g)) with
                    | Some _ => false
                    | None => true
                    end) blocks.

(** How a payload may sit in the trimmed model output for the extractor to
    recover it: it is the whole of it; or it is the content of one of the
    fenced blocks that the pattern finds in it, no earlier block decoding
    to a call; or no block decodes to a call and the payload stands at the
    first occurrence of the opener, its braces (those inside string values
    included) first balanced at its last character.  The prose around the
    payload is not restricted otherwise. *)
Inductive embeds (json_loads : str -> option pyval) (payload : str)
  : str -> Prop :=
  | embeds_whole : embeds json_loads payload payload
  | embeds_fence (s : str) (earlier later : list str) :
      fenced_blocks 0 s = earlier ++ payload :: later ->
      no_call_among json_loads earlier = true ->
      embeds json_loads payload s
  | embeds_prose (pre post : str) :
      no_call_among json_loads (fenced_blocks 0 (pre ++ payload ++ post)) = true ->
      find opener (pre ++ payload ++ post) = Some (length pre) ->
      first_balance 0 payload = Some (length payload) ->
      embeds json_loads payload (pre ++ payload ++ post).

(** *** The formats of [calculate] *)

(** [abs(f - round(f)) < 1e-12], [r] being [round(f)]. *)
Definition near_integer (f : float) (r : Z) : bool :=
  float_lt (float_abs (float_sub f (float_of_int r))) (float_of_decimal 1 (-12)).

(** [n] is [c * 10^k * 100] rounded to an integer, halves going up. *)
Definition half_up_cents (c k n : Z) : Prop :=
  (2 * n - 1) * 10 ^ Z.max 0 (- (k + 2)) <= 2 * c * 10 ^ Z.max 0 (k + 2)
  /\ 2 * c * 10 ^ Z.max 0 (k + 2) < (2 * n + 1) * 10 ^ Z.max 0 (- (k + 2)).

(** The text ends with a decimal point and exactly two digits, and has no
    other decimal point. *)
Definition two_decimals (s : str) : bool :=
  match rev s with
  | b :: a :: p :: ip =>
      is_ascii_digit b && is_ascii_digit a && (p =? 46)
      && negb (existsb (Z.eqb 46) ip)
  | _ => false
  end.

Definition no_decimal_point (s : str) : bool := negb (existsb (Z.eqb 46) s).

(** A float whose value is an integer. *)
Definition is_integer_valued (f : float) : bool :=
  match f with
  | S754_zero _ => true
  | S754_finite _ m e => (0 <=? e) || (Zpos m mod 2 ^ (- e) =? 0)
  | _ => false
  end.

(** A finite float with a fractional part. *)
Definition has_fraction (f : float) : bool :=
  match f with
  | S754_finite _ m e => (e <? 0) && negb (Zpos m mod 2 ^ (- e) =? 0)
  | _ => false
  end.

(** *** Claims as the specification words them *)

(** C2, as stated: the normalized text has one [+], no letters, and
    [calculate] answers ["8"] on it. *)
Definition normalizes_and_evaluates_to_8 : Prop :=
  let e := text_to_math_expr plain_unicode (py "what is five plus three") in
  count_char 43 e = 1%nat /\ no_letters e = true
  /\ Tools.calculate SympyRef.sympy_float (PStr e)
     = {| ok := true; content := py "8" |}.

(** C3, as stated: a well-formed payload with string arguments, wherever it
    stands in surrounding prose, is recovered exactly. *)
Definition string_arguments (A : list (str * pyval)) : bool :=
  forallb (fun kv => match snd kv with PStr _ => true | _ => false end) A.

Definition wrapped_payload_is_always_recovered : Prop :=
  forall (pre post payload X : str) (A : list (str * pyval)),
    starts_with opener payload = true ->
    Json.json_loads payload
    = Some (PDict [(py "function", PStr X); (py "arguments", PDict A)]) ->
    string_arguments A = true ->
    _extract_json_call Json.json_loads (pre ++ payload ++ post)
    = Some [(py "function", PStr X); (py "arguments", PDict A)].

(** C6, as stated (its general part on non-integers): every result with a
    fractional part is rendered with exactly two decimal places. *)
Definition fractions_render_two_decimals : Prop :=
  forall (expression : pyval) (f : float),
    SympyRef.sympy_float expression = Returns f ->
    has_fraction f = true ->
    two_decimals (content (Tools.calculate SympyRef.sympy_float expression)) = true.

(** C10, as stated: a digit next to one of [+ - * / % ( )] sends the
    utterance to [calculate]. *)
Fixpoint digit_beside (c : Z) (s : str) : bool :=
  match s with
  | x :: ((y :: _) as r) =>
      ((x =? c) && is_ascii_digit y) || (is_ascii_digit x && (y =? c))
      || digit_beside c r
  | _ => false
  end.

Definition digit_beside_symbol_routes_to_calculate : Prop :=
  forall (user_text : str) (c : Z),
    In c [43; 45; 42; 47; 37; 40; 41] ->
    digit_beside c user_text = true ->
    exists a r,
      maybe_call_by_rules plain_unicode SympyRef.sympy_float
        (offline (py "Weather")) (offline (py "arXiv search")) user_text
      = Returns {| calls := [(T_calculate, a)]; reply := r |}.

End Spec.
Import Spec.

(** ** tool_specs.py *)

Module ToolSpecs.

Record tool_spec := {
  description : str;
  arguments : list (str * str);
  required : list str
}.

Definition TOOL_SPECS : list (str * tool_spec) :=
  [ (py "search_arxiv",
     {| description := py "Search arXiv for a topic and return a short snippet.";
        arguments := [(py "query", py "string")];
        required := [py "query"] |});
    (py "calculate",
     {| description := py "Evaluate a mathematical expression using standard math syntax.";
        arguments := [(py "expression", py "string")];
        required := [py "expression"] |});
    (py "get_weather",
     {| description := py "Get the current weather for a given city/location.";
        arguments := [(py "location", py "string")];
        required := [] |}) ].

End ToolSpecs.
Import ToolSpecs.

(** ** tools.py: the tools that query a service *)

Module Services.

(** [v.get(key, default)] *)
Definition py_get (v : pyval) (key : str) (default : pyval) : py_result pyval :=
  match v with
  | PDict kv =>
      Returns match dict_get kv key with Some x => x | None => default end
  | _ =>
      Raises (py "AttributeError")
        (py "'" ++ type_name v ++ py "' object has no attribute 'get'")
  end.

(** [v.strip()] *)
Definition py_strip (v : pyval) : py_result str :=
  match v with
  | PStr s => Returns (strip s)
  | _ =>
      Raises (py "AttributeError")
        (py "'" ++ type_name v ++ py "' object has no attribute 'strip'")
  end.

(** [v[0]]; the keys of a decoded object are strings, [0] is none of them. *)
Definition first_item (v : pyval) : py_result pyval :=
  match v with
  | PList (x :: _) => Returns x
  | PList [] => Raises (py "IndexError") (py "list index out of range")
  | PStr (c :: _) => Returns (PStr [c])
  | PStr [] => Raises (py "IndexError") (py "string index out of range")
  | PDict _ => Raises (py "KeyError") (py "0")
  | _ =>
      Raises (py "TypeError")
        (py "'" ++ type_name v ++ py "' object is not subscriptable")
  end.

(** [d[key]] for one of the two literal keys of [_geocode_city]; [d] is a
    dictionary there, [d.get] having returned before. *)
Definition item (d : pyval) (key : str) : py_result pyval :=
  match d with
  | PDict kv =>
      match dict_get kv key with
      | Some x => Returns x
      | None => Raises (py "KeyError") (py "'" ++ key ++ py "'")
      end
  | _ =>
      Raises (py "TypeError")
        (py "'" ++ type_name d ++ py "' object is not subscriptable")
  end.

(** [int(f)] for a float: truncation towards zero. *)
Definition int_of_float (f : float) : py_result Z :=
  match f with
  | S754_nan => Raises (py "ValueError") (py "cannot convert float NaN to integer")
  | S754_infinity _ =>
      Raises (py "OverflowError") (py "cannot convert float infinity to integer")
  | S754_zero _ => Returns 0
  | S754_finite s m e =>
      let a := if 0 <=? e then Zpos m * 2 ^ e else Zpos m / 2 ^ (- e) in
      Returns (if s then - a else a)
  end.

(** [s.strip(",")] *)
Fixpoint lstrip_char (c : Z) (s : str) : str :=
  match s with
  | [] => []
  | x :: s' => if x =? c then lstrip_char c s' else s
  end.

Definition strip_char (c : Z) (s : str) : str :=
  rev (lstrip_char c (rev (lstrip_char c s))).

Definition _WMO : list (Z * str) :=
  [ (0, py "clear sky"); (1, py "mainly clear"); (2, py "partly cloudy");
    (3, py "overcast");
    (45, py "fog"); (48, py "rime fog");
    (51, py "light drizzle"); (53, py "moderate drizzle"); (55, py "dense drizzle");
    (61, py "light rain"); (63, py "moderate rain"); (65, py "heavy rain");
    (71, py "light snow"); (73, py "moderate snow"); (75, py "heavy snow");
    (80, py "rain showers"); (81, py "heavy rain showers");
    (82, py "violent rain showers");
    (95, py "thunderstorm"); (96, py "thunderstorm w/ light hail");
    (99, py "thunderstorm w/ heavy hail") ].

(** [_WMO.get(code, "unknown")] *)
Definition _WMO_get (code : Z) : str :=
  match List.find (fun kv => fst kv =? code) _WMO with
  | Some kv => snd kv
  | None => py "unknown"
  end.

(** What [_geocode_city] returns for a place. *)
Record geo := { g_name : pyval; g_country : pyval; g_lat : pyval; g_lon : pyval }.

Section Weather.

(** [os.getenv("DEFAULT_CITY", "Toronto, ON")] *)
Variable DEFAULT_CITY : str.

(** The two requests, each through [raise_for_status()] and [r.json()]:
    the decoded body, or the exception of the request, of the status or
    of the decoding. *)
Variable geocoding_api : str -> py_result pyval.
Variable forecast_api : pyval -> pyval -> py_result pyval.

(** Of the interpreter, not spelled out: [str(v)] for a list or a
    dictionary and [int(v)] for a string, a list or a dictionary. *)
Variable container_str : pyval -> str.
Variable int_of_other : pyval -> py_result Z.

(** [f"{v}"] *)
Definition fmt (v : pyval) : str :=
  match v with
  | PNone => py "None"
  | PBool b => if b then py "True" else py "False"
  | PInt n => str_of_int n
  | PFloat f => float_repr f
  | PStr s => s
  | PList _ | PDict _ => container_str v
  end.

(** [int(v)] for a [v] that is not [None]. *)
Definition py_int (v : pyval) : py_result Z :=
  match v with
  | PBool b => Returns (if b then 1 else 0)
  | PInt n => Returns n
  | PFloat f => int_of_float f
  | _ => int_of_other v
  end.

Definition _geocode_city (name : str) : py_result (option geo) :=
  j <- geocoding_api name ;;
  results <- py_get j (py "results") PNone ;;
  if negb (truthy results) then Returns None
  else
    it <- first_item results ;;
    name' <- py_get it (py "name") PNone ;;
    country <- py_get it (py "country") PNone ;;
    lat <- item it (py "latitude") ;;
    lon <- item it (py "longitude") ;;
    Returns (Some {| g_name := name'; g_country := country;
                     g_lat := lat; g_lon := lon |}).

(** The body of the [try] block of [get_weather]. *)
Definition get_weather_try (location : pyval) : py_result ToolResult :=
  city <- py_strip (if truthy location then location else PStr DEFAULT_CITY) ;;
  g <- _geocode_city city ;;
  match g with
  | None =>
      Returns {| ok := false;
                 content := py "Could not find location '" ++ city
                            ++ py "'. Please specify a city (e.g., 'weather in Toronto')." |}
  | Some g =>
      j <- forecast_api (g_lat g) (g_lon g) ;;
      cur <- py_get j (py "current") (PDict []) ;;
      t <- py_get cur (py "temperature_2m") PNone ;;
      feels <- py_get cur (py "apparent_temperature") PNone ;;
      wcode <- py_get cur (py "weather_code") PNone ;;
      wind <- py_get cur (py "wind_speed_10m") PNone ;;
      prcp <- py_get cur (py "precipitation") PNone ;;
      code <- match wcode with
              | PNone => Returns (-1)
              | _ => py_int wcode
              end ;;
      let desc := _WMO_get code in
      let place :=
        strip_char 44 (strip (fmt (g_name g) ++ py ", " ++ fmt (g_country g))) in
      Returns {| ok := true;
                 content := place ++ py ": " ++ fmt t ++ py "°C, feels like "
                            ++ fmt feels ++ py "°C, " ++ desc ++ py ", wind "
                            ++ fmt wind ++ py " km/h, precip " ++ fmt prcp
                            ++ py " mm (current)." |}
  end.

Definition get_weather (location : pyval) : ToolResult :=
  match get_weather_try location with
  | Returns r => r
  | Raises _ msg => {| ok := false; content := py "Weather error: " ++ msg |}
  end.

End Weather.

(** An [entry] element of the Atom feed as [search_arxiv] reads it: for
    [title], [summary], [published] and the [name] of each [author],
    whether [find] has an element ([None]: it has none) and the [text] of
    that element ([None]: it has no text). *)
Record entry := {
  title_text : option (option str);
  author_names : list (option (option str));
  summary_text : option (option str);
  published_text : option (option str)
}.

Record paper := { title : str; authors : str; summary : str; published : str }.

(** [entry.find(...).text] *)
Definition text_of (e : option (option str)) : py_result (option str) :=
  match e with
  | Some t => Returns t
  | None =>
      Raises (py "AttributeError") (py "'NoneType' object has no attribute 'text'")
  end.

(** [t.strip()] and [t[:10]] for a [text] *)
Definition stripped (t : option str) : py_result str :=
  match t with
  | Some s => Returns (strip s)
  | None =>
      Raises (py "AttributeError") (py "'NoneType' object has no attribute 'strip'")
  end.

Definition first10 (t : option str) : py_result str :=
  match t with
  | Some s => Returns (firstn 10 s)
  | None => Raises (py "TypeError") (py "'NoneType' object is not subscriptable")
  end.

(** The list comprehension over the [author] elements. *)
Fixpoint names (l : list (option (option str))) : py_result (list (option str)) :=
  match l with
  | [] => Returns []
  | a :: l' =>
      t <- text_of a ;;
      ts <- names l' ;;
      Returns (t :: ts)
  end.

(** [", ".join(l)]: the items are checked first. *)
Fixpoint first_none (i : Z) (l : list (option str)) : option Z :=
  match l with
  | [] => None
  | None :: _ => Some i
  | Some _ :: l' => first_none (i + 1) l'
  end.

Fixpoint joined (l : list (option str)) : str :=
  match l with
  | [] => []
  | Some s :: [] => s
  | Some s :: l' => s ++ py ", " ++ joined l'
  | None :: l' => joined l'
  end.

Definition join (l : list (option str)) : py_result str :=
  match first_none 0 l with
  | Some i =>
      Raises (py "TypeError")
        (py "sequence item " ++ str_of_int i
         ++ py ": expected str instance, NoneType found")
  | None => Returns (joined l)
  end.

(** The body of the loop over the entries. *)
Definition paper_of_entry (e : entry) : py_result paper :=
  t <- text_of (title_text e) ;;
  title <- stripped t ;;
  authors <- names (author_names e) ;;
  s <- text_of (summary_text e) ;;
  summary <- stripped s ;;
  p <- text_of (published_text e) ;;
  published <- first10 p ;;
  authors <- join authors ;;
  Returns {| title := title;
             authors := authors;
             summary := if (200 <? Z.of_nat (length summary))
                        then firstn 200 summary ++ py "..."
                        else summary;
             published := published |}.

Fixpoint papers_of (entries : list entry) : py_result (list paper) :=
  match entries with
  | [] => Returns []
  | e :: entries' =>
      p <- paper_of_entry e ;;
      ps <- papers_of entries' ;;
      Returns (p :: ps)
  end.

Definition nl : str := [10].

(** The loop that formats the papers, numbered from [i]. *)
Fixpoint listing (i : Z) (papers : list paper) : str :=
  match papers with
  | [] => []
  | p :: papers' =>
      str_of_int i ++ py ". " ++ title p ++ nl
      ++ py "   Authors: " ++ authors p ++ nl
      ++ py "   Published: " ++ published p ++ nl
      ++ py "   Summary: " ++ summary p ++ nl ++ nl
      ++ listing (i + 1) papers'
  end.

Section Arxiv.

(** The request for the stripped query (quoted by [urllib]), through
    [raise_for_status()] and [ET.fromstring]: the [entry] elements of the
    feed, or the exception of the request, of the status or of the
    parser. *)
Variable arxiv_api : str -> py_result (list entry).

(** The body of the [try] block of [search_arxiv]. *)
Definition search_arxiv_try (query : pyval) : py_result ToolResult :=
  query <- py_strip query ;;
  if str_eqb query [] then
    Returns {| ok := false;
               content := py "Please provide a search query for arXiv papers." |}
  else
    entries <- arxiv_api query ;;
    papers <- papers_of entries ;;
    match papers with
    | [] =>
        Returns {| ok := false;
                   content := py "No papers found for query: '" ++ query ++ py "'" |}
    | _ :: _ =>
        Returns {| ok := true;
                   content :=
                     strip (py "Found " ++ str_of_int (Z.of_nat (length papers))
                            ++ py " papers for '" ++ query ++ py "':" ++ nl ++ nl
                            ++ listing 1 papers) |}
    end.

Definition search_arxiv (query : pyval) : ToolResult :=
  match search_arxiv_try query with
  | Returns r => r
  | Raises _ msg => {| ok := false; content := py "arXiv search error: " ++ msg |}
  end.

End Arxiv.

End Services.

(** ** llm.py: the conversation manager *)

Module Llm.

(** A chat message, [{"role": ..., "content": ...}]. *)
Record message := { role : str; content : str }.

Record ConvManager := {
  history : list (str * str);
  max_history : Z;
  max_input_tokens : Z
}.

(** [ConvManager()] *)
Definition conv_manager : ConvManager :=
  {| history := []; max_history := 4; max_input_tokens := 1024 |}.

(** [l[-k:]] *)
Definition last_items {A : Type} (k : Z) (l : list A) : list A :=
  let n := Z.of_nat (length l) in
  let start := if 0 <? k then Z.max (n - k) 0 else Z.min (- k) n in
  skipn (Z.to_nat start) l.

(** The loop that appends the rounds of the history. *)
Definition rounds (h : list (str * str)) : list message :=
  flat_map (fun ua => [ {| role := py "user"; content := fst ua |};
                        {| role := py "assistant"; content := snd ua |} ]) h.

Definition _build_messages (self : ConvManager) (user_text : str) : list message :=
  [ {| role := py "system"; content := py "You are a helpful, concise assistant." |} ]
  ++ rounds (last_items (max_history self) (history self))
  ++ [ {| role := py "user"; content := user_text |} ].

(** The [for] loop of [_apply_template_and_truncate] over
    [range(1, len(hist) - 1)]: [window] holds the messages from [idx]
    to the last but one. *)
Fixpoint find_cut (idx : nat) (user_seen : bool) (window : list message)
  : option nat :=
  match window with
  | [] => None
  | m :: rest =>
      if str_eqb (role m) (py "user") && negb user_seen
      then find_cut (S idx) true rest
      else if str_eqb (role m) (py "assistant") && user_seen then Some idx
      else find_cut (S idx) user_seen rest
  end.

Section Model.

(** The system prompt of [fc_prompt.py], which interpolates
    [json.dumps(TOOL_SPECS, indent=2)]. *)
Variable SYSTEM_FC : str.

(** [_tokenizer.apply_chat_template(messages, tokenize=False,
    add_generation_prompt=True)], the number of tokens of a text, and the
    decoded continuation that [_model.generate] gives for a prompt,
    greedy or sampled. *)
Variable apply_chat_template : list message -> py_result str.
Variable _token_len : str -> py_result Z.
Variable generate : str -> bool -> py_result str.

(** The [while True] loop of [_apply_template_and_truncate]; [None] when
    [fuel] rounds do not suffice. *)
Fixpoint truncate_loop (self : ConvManager) (fuel : nat) (hist : list message)
  : option (py_result str) :=
  match fuel with
  | O => None
  | S fuel' =>
      match apply_chat_template hist with
      | Raises exc msg => Some (Raises exc msg)
      | Returns prompt =>
          match _token_len prompt with
          | Raises exc msg => Some (Raises exc msg)
          | Returns n =>
              if (n <=? max_input_tokens self) || (length hist <=? 2)%nat
              then Some (Returns prompt)
              else
                match find_cut 1 false
                        (firstn (length hist - 2) (skipn 1 hist)) with
                | Some (S i) =>
                    truncate_loop self fuel'
                      (firstn 1 hist ++ skipn (S (S i)) hist)
                | _ => Some (Returns prompt)
                end
          end
      end
  end.

Definition _apply_template_and_truncate (self : ConvManager)
    (messages : list message) : option (py_result str) :=
  truncate_loop self (S (length messages)) messages.

Definition _generate_once (prompt : str) (do_sample : bool) : py_result str :=
  out <- generate prompt do_sample ;;
  let reply := strip out in
  Returns (if (Z.of_nat (length reply) <? 8)
              || existsb (str_eqb reply) [py "."; py "?"; py "!"; py "not,that?"]
           then []
           else reply).

Definition generate_response (self : ConvManager) (user_text : str)
  : py_result (ConvManager * str) :=
  let messages :=
    [ {| role := py "system"; content := SYSTEM_FC |} ]
    ++ rounds (last_items (max_history self) (history self))
    ++ [ {| role := py "user"; content := user_text |} ] in
  prompt <- apply_chat_template messages ;;
  reply <- _generate_once prompt false ;;
  reply <- (if str_eqb reply [] then _generate_once prompt true else Returns reply) ;;
  let reply :=
    if str_eqb reply []
    then py "Thanks! I heard your point and will keep it concise."
    else reply in
  let history := history self ++ [(user_text, reply)] in
  let history :=
    if (10 <? Z.of_nat (length history)) then last_items 10 history else history in
  Returns ({| history := history;
              max_history := max_history self;
              max_input_tokens := max_input_tokens self |}, reply).

End Model.

End Llm.

(** ** main.py: the endpoints *)

Module Main.

Inductive response :=
  | FileResponse (path : str)
  | JSONResponse (status_code : Z) (error : str)
  | DebugLog (request_text llm_raw final_text audio_url : str).

Section Endpoints.

Variable U : unicode_db.
Variable json_loads : str -> option pyval.
Variable sympy_float : pyval -> py_result float.
Variable get_weather : pyval -> ToolResult.
Variable search_arxiv : pyval -> ToolResult.

(** [asr.transcribe_audio] and [tts.synthesize_speech]: the text heard in
    the upload and the path of the synthesized file, or what they raise. *)
Variable transcribe_audio : list Byte.byte -> py_result str.
Variable synthesize_speech : str -> py_result str.

(** The model behind [conv_manager], see [Llm]. *)
Variable SYSTEM_FC : str.
Variable apply_chat_template : list Llm.message -> py_result str.
Variable generate : str -> bool -> py_result str.

(** [quote(path, safe="")] and [str(request.url_for("get_audio"))]. *)
Variable quote : str -> str.
Variable audio_route : str.

(** Steps 3 and 4 of both endpoints: the routing of the model output,
    the fallback by rules and the prompt for an empty reply; with the
    tools invoked on the way. *)
Definition final_text (llm_raw user_text : str)
  : py_result (list (tool * pyval) * str) :=
  routed <- try_route_llm_function_call json_loads sympy_float get_weather
              search_arxiv llm_raw ;;
  chosen <- match reply routed with
            | None =>
                tool_hit <- maybe_call_by_rules U sympy_float get_weather
                              search_arxiv user_text ;;
                Returns (calls routed ++ calls tool_hit,
                         match reply tool_hit with
                         | Some t => t
                         | None => llm_raw
                         end)
            | Some t => Returns (calls routed, t)
            end ;;
  let reply_text := snd chosen in
  Returns (fst chosen,
           if str_eqb reply_text [] || str_eqb (strip reply_text) []
           then py "I didn't catch that. Could you please repeat?"
           else reply_text).

(** The [try] block shared by the endpoints up to the synthesis: the
    texts and the path, with the conversation as the model call left
    it.  An exception leaves the conversation as it was when raised. *)
Definition answer (conv : Llm.ConvManager) (audio_bytes : list Byte.byte)
  : Llm.ConvManager * py_result (str * str * str * str) :=
  match transcribe_audio audio_bytes with
  | Raises exc msg => (conv, Raises exc msg)
  | Returns user_text =>
      match Llm.generate_response SYSTEM_FC apply_chat_template generate
              conv user_text with
      | Raises exc msg => (conv, Raises exc msg)
      | Returns (conv', llm_raw) =>
          (conv',
           r <- final_text llm_raw user_text ;;
           audio_path <- synthesize_speech (snd r) ;;
           Returns (user_text, llm_raw, snd r, audio_path))
      end
  end.

Definition chat_endpoint (conv : Llm.ConvManager) (audio_bytes : list Byte.byte)
  : Llm.ConvManager * response :=
  let '(conv', r) := answer conv audio_bytes in
  (conv',
   match r with
   | Returns (_, _, _, audio_path) => FileResponse audio_path
   | Raises _ msg => JSONResponse 500 msg
   end).

Definition chat_debug_endpoint (conv : Llm.ConvManager)
    (audio_bytes : list Byte.byte) : Llm.ConvManager * response :=
  let '(conv', r) := answer conv audio_bytes in
  (conv',
   match r with
   | Returns (user_text, llm_raw, final, audio_path) =>
       DebugLog user_text llm_raw final
         (audio_route ++ py "?path=" ++ quote audio_path)
   | Raises _ msg => JSONResponse 500 msg
   end).

End Endpoints.

End Main.

(** ** Vocabulary of the further properties *)

Module Facts.

(** The characters of a symbolic expression: digits, the decimal point,
    [+ - * / %] and the parentheses. *)
Definition is_symbol_char (c : Z) : bool :=
  is_ascii_digit c || (c =? 46) || (c =? 43) || (c =? 45) || (c =? 42)
  || (c =? 47) || (c =? 37) || (c =? 40) || (c =? 41).

(** No two neighbours of [s] are both [c]. *)
Fixpoint no_double (c : Z) (s : str) : bool :=
  match s with
  | x :: ((y :: _) as r) => negb ((x =? c) && (y =? c)) && no_double c r
  | _ => true
  end.

(** The tool a registered name stands for, and a run of it. *)
Definition tool_named (name : str) : option tool :=
  if str_eqb name (py "get_weather") then Some T_get_weather
  else if str_eqb name (py "calculate") then Some T_calculate
  else if str_eqb name (py "search_arxiv") then Some T_search_arxiv
  else None.

(** The key of the arguments object that the router reads for a tool. *)
Definition argument_key (t : tool) : str :=
  match t with
  | T_get_weather => py "location"
  | T_calculate => py "expression"
  | T_search_arxiv => py "query"
  end.

Definition tool_name (t : tool) : str :=
  match t with
  | T_get_weather => py "get_weather"
  | T_calculate => py "calculate"
  | T_search_arxiv => py "search_arxiv"
  end.

Definition is_dict (v : pyval) : bool :=
  match v with
  | PDict _ => true
  | _ => false
  end.

Definition is_str (v : pyval) : bool :=
  match v with
  | PStr _ => true
  | _ => false
  end.

Definition run_tool (sympy_float : pyval -> py_result float)
    (get_weather search_arxiv : pyval -> ToolResult) (t : tool)
  : pyval -> ToolResult :=
  match t with
  | T_get_weather => get_weather
  | T_calculate => Tools.calculate sympy_float
  | T_search_arxiv => search_arxiv
  end.

(** [d.get(k, "")] on a dictionary. *)
Definition get_or_empty (A : list (str * pyval)) (k : str) : pyval :=
  match dict_get A k with
  | Some v => v
  | None => PStr []
  end.

(** A feed of one entry, whatever the query, and services that answer
    for one place. *)
Definition sample_entry : Services.entry :=
  {| Services.title_text := Some (Some (py " Routing in a Voice Assistant "));
     Services.author_names :=
       [Some (Some (py "Ada Example")); Some (Some (py "Bob Sample"))];
     Services.summary_text :=
       Some (Some (py "We study how a voice assistant decides between answering in plain words and calling a tool. The router first looks for a structured call in the output of the model and falls back to keyword rules on the utterance when it finds none."));
     Services.published_text := Some (Some (py "2024-06-12T17:57:34Z")) |}.

Definition sample_paper : Services.paper :=
  {| Services.title := py "Routing in a Voice Assistant";
     Services.authors := py "Ada Example, Bob Sample";
     Services.summary := py "We study how a voice assistant decides between answering in plain words and calling a tool. The router first looks for a structured call in the output of the model and falls back to keyword rules on t...";
     Services.published := py "2024-06-12" |}.

Definition unreadable_entry : Services.entry :=
  {| Services.title_text := None;
     Services.author_names := [];
     Services.summary_text := Some (Some (py "text"));
     Services.published_text := Some (Some (py "2024")) |}.

Definition sample_feed (q : str) : py_result (list Services.entry) :=
  Returns [sample_entry].

Definition sample_geocoding (name : str) : py_result pyval :=
  if str_eqb name (py "Toronto, ON") then
    Returns (PDict [(py "results",
                     PList [PDict [(py "name", PStr (py "Toronto"));
                                   (py "country", PStr (py "Canada"));
                                   (py "latitude", PInt 43);
                                   (py "longitude", PInt (-79))]])])
  else Returns (PDict [(py "generationtime_ms", PInt 1)]).

Definition sample_forecast (lat lon : pyval) : py_result pyval :=
  Returns (PDict [(py "current",
                   PDict [(py "temperature_2m", PInt 21);
                          (py "apparent_temperature", PInt 20);
                          (py "weather_code", PInt 3);
                          (py "wind_speed_10m", PInt 9);
                          (py "precipitation", PInt 0)])]).

(** The interpreter's part that the weather tool leaves open, for
    objects that the sample services never produce. *)
Definition no_container_str (v : pyval) : str := [].
Definition no_int_of_other (v : pyval) : py_result Z :=
  Raises (py "TypeError") (py "int() argument").

(** A chat template that writes one line per message, and a model that
    answers every prompt with the same sentence. *)
Definition sample_template (messages : list Llm.message) : py_result str :=
  Returns (concat (map (fun m => Llm.role m ++ py ": " ++ Llm.content m ++ [10])
                     messages)).

Definition sample_generate (prompt : str) (do_sample : bool) : py_result str :=
  Returns (py " Sure, happy to help. ").

Definition sample_system : str := py "You are a voice assistant.".

(** A conversation of five rounds, and one that has only its last four. *)
Definition four_rounds : list (str * str) :=
  [ (py "hello", py "Sure, happy to help.");
    (py "who are you", py "Sure, happy to help.");
    (py "tell me more", py "Sure, happy to help.");
    (py "thank you", py "Sure, happy to help.") ].

Definition long_conversation : Llm.ConvManager :=
  {| Llm.history := (py "good morning", py "Good morning to you.") :: four_rounds;
     Llm.max_history := 4;
     Llm.max_input_tokens := 1024 |}.

Definition short_conversation : Llm.ConvManager :=
  {| Llm.history := four_rounds;
     Llm.max_history := 4;
     Llm.max_input_tokens := 1024 |}.

(** [kept] is what remains of [l] when rounds are dropped from its
    front. *)
Definition suffix_of {A : Type} (kept l : list A) : Prop :=
  exists dropped, l = dropped ++ kept.

(** An upload in which ["hello"] is heard, a synthesizer that writes
    one file, and a model that answers with a call whose [function] is a
    list. *)
Definition sample_transcribe (audio_bytes : list Byte.byte) : py_result str :=
  Returns (py "hello").

Definition sample_speech (text : str) : py_result str :=
  Returns (py "/tmp/reply.wav").

Definition list_call_generate (prompt : str) (do_sample : bool) : py_result str :=
  Returns (pyq "{'function': ['calculate'], 'arguments': {}}").

Definition call_generate (prompt : str) (do_sample : bool) : py_result str :=
  Returns (pyq "{'function': 'calculate', 'arguments': {'expression': '2+2'}}").

Definition after_hello (reply : str) : Llm.ConvManager :=
  {| Llm.history := [(py "hello", reply)];
     Llm.max_history := 4;
     Llm.max_input_tokens := 1024 |}.

(** A city as the weather rule hands it to the tool: ASCII letters,
    commas and single spaces, with no space at either end. *)
Definition is_clean_city (city : str) : bool :=
  forallb (fun c => is_ascii_alpha c || (c =? 44) || (c =? 32)) city
  && no_double 32 city
  && negb (starts_with [32] city)
  && negb (starts_with [32] (rev city)).

(** The characters of a decimal numeral. *)
Definition is_numeral_char (c : Z) : bool :=
  is_ascii_digit c || (c =? 45) || (c =? 46).

(** Sample payloads: a call of [calculate], and one whose argument holds
    a closing brace; each without its outer braces, whole, and decoded. *)
Definition call_body : str :=
  pyq "'function':'calculate','arguments':{'expression':'2+2'}".

Definition call_text : str := 123 :: call_body ++ [125].

Definition call_object : list (str * pyval) :=
  [(py "function", PStr (py "calculate"));
   (py "arguments", PDict [(py "expression", PStr (py "2+2"))])].

Definition brace_body : str :=
  pyq "'function':'calculate','arguments':{'expression':'}'}".

Definition brace_text : str := 123 :: brace_body ++ [125].

Definition brace_object : list (str * pyval) :=
  [(py "function", PStr (py "calculate"));
   (py "arguments", PDict [(py "expression", PStr (py "}"))])].

(** A plain decimal numeral: an optional leading [-], then one digit or
    more, then either nothing or a [.] followed by exactly two digits. *)
Definition unsigned_part (s : str) : str :=
  match s with
  | c :: r => if c =? 45 then r else s
  | [] => s
  end.

Definition is_numeral (s : str) : bool :=
  let '(whole, rest) := span is_ascii_digit (unsigned_part s) in
  negb (str_eqb whole [])
  && match rest with
     | [] => true
     | [p; a; b] => (p =? 46) && is_ascii_digit a && is_ascii_digit b
     | _ => false
     end.

(** The digits of a text, in order; and lists that are obtained from
    another by deleting elements. *)
Definition digits_of (s : str) : str := filter is_ascii_digit s.

Inductive subseq {A : Type} : list A -> list A -> Prop :=
  | subseq_nil (l : list A) : subseq [] l
  | subseq_skip (x : A) (l1 l2 : list A) : subseq l1 l2 -> subseq l1 (x :: l2)
  | subseq_keep (x : A) (l1 l2 : list A) : subseq l1 l2 -> subseq (x :: l1) (x :: l2).

(** [obj.get("arguments", {}) or {}] *)
Definition effective_arguments (obj : list (str * pyval)) : pyval :=
  match dict_get obj (py "arguments") with
  | Some v => if truthy v then v else PDict []
  | None => PDict []
  end.

(** A routing step that gave no reply invoked no tool, and no step
    invokes more than one. *)
Definition single_call (o : outcome) : Prop :=
  (length (calls o) <= 1)%nat /\ (reply o = None -> calls o = []).

End Facts.
Import Facts.

(** * Properties *)

(** Closed goals are settled by evaluation. *)
Ltac by_computation := vm_compute; reflexivity.

(** ** Strings *)

Lemma str_eqb_eq (a b : str) : str_eqb a b = true <-> a = b.
Proof.
  unfold str_eqb. destruct (list_eq_dec Z.eq_dec a b); split; congruence.
Qed.

Lemma str_eqb_neq (a b : str) : str_eqb a b = false <-> a <> b.
Proof.
  unfold str_eqb. destruct (list_eq_dec Z.eq_dec a b); split; congruence.
Qed.

Lemma starts_with_app (p s : str) :
  starts_with p s = true <-> exists r, s = p ++ r.
Proof.
  revert s. induction p as [|a p IH]; intros s; simpl.
  - split; [intros _; now exists s | reflexivity].
  - destruct s as [|b s].
    + split; [discriminate | intros [r H]; discriminate].
    + rewrite andb_true_iff, Z.eqb_eq, IH. split.
      * intros [-> [r ->]]. now exists r.
      * intros [r H]. injection H as -> ->. split; [reflexivity | now exists r].
Qed.

Lemma starts_with_self_app (p r : str) : starts_with p (p ++ r) = true.
Proof. apply starts_with_app. now exists r. Qed.

Lemma skipn_app_length (p r : str) : skipn (length p) (p ++ r) = r.
Proof. induction p; simpl; auto. Qed.

Lemma firstn_app_length (p r : str) : firstn (length p) (p ++ r) = p.
Proof. induction p; simpl; congruence. Qed.

(** ** The normalizer keeps operator characters *)

Lemma has_arith_cons (c : Z) (s : str) :
  has_arith (c :: s) <-> is_arith_char c = true \/ has_arith s.
Proof.
  unfold has_arith. split.
  - intros [x [[<- | Hin] Hx]]; [now left | right; now exists x].
  - intros [Hc | [x [Hin Hx]]]; [exists c | exists x]; simpl; auto.
Qed.

Lemma has_arith_app (a b : str) :
  has_arith (a ++ b) <-> has_arith a \/ has_arith b.
Proof.
  unfold has_arith. split.
  - intros [x [Hin Hx]]. apply in_app_or in Hin as [H | H];
      [left | right]; now exists x.
  - intros [[x [Hin Hx]] | [x [Hin Hx]]]; exists x; split; auto;
      apply in_or_app; auto.
Qed.

Lemma has_arith_nil : ~ has_arith [].
Proof. intros [x [[] _]]. Qed.

Lemma arith_not_space (c : Z) : is_arith_char c = true -> is_space c = false.
Proof.
  unfold is_arith_char, is_space, in_range. intros H.
  repeat rewrite orb_true_iff in H. repeat rewrite Z.eqb_eq in H.
  destruct H as [[[[-> | ->] | ->] | ->] | ->]; reflexivity.
Qed.

Lemma arith_is_expr_char (c : Z) : is_arith_char c = true -> is_expr_char c = true.
Proof.
  unfold is_arith_char. intros H.
  repeat rewrite orb_true_iff in H. repeat rewrite Z.eqb_eq in H.
  destruct H as [[[[-> | ->] | ->] | ->] | ->]; reflexivity.
Qed.

Lemma arith_is_operator_char (c : Z) :
  is_arith_char c = true -> is_operator_char c = true.
Proof.
  unfold is_arith_char. intros H.
  repeat rewrite orb_true_iff in H. repeat rewrite Z.eqb_eq in H.
  destruct H as [[[[-> | ->] | ->] | ->] | ->]; reflexivity.
Qed.

Lemma lstrip_dropped_spaces (s : str) :
  exists a, s = a ++ lstrip s /\ forallb is_space a = true.
Proof.
  induction s as [|c s [a [IH Ha]]]; simpl.
  - now exists [].
  - destruct (is_space c) eqn:E.
    + exists (c :: a). simpl. rewrite E, Ha. split; [congruence | reflexivity].
    + now exists [].
Qed.

Lemma strip_decompose (s : str) :
  exists a b, s = a ++ strip s ++ b
              /\ forallb is_space a = true /\ forallb is_space b = true.
Proof.
  unfold strip, rstrip.
  destruct (lstrip_dropped_spaces s) as [a [Ha Sa]].
  destruct (lstrip_dropped_spaces (rev (lstrip s))) as [b [Hb Sb]].
  exists a, (rev b). repeat split; auto.
  - rewrite Ha at 1. f_equal.
    rewrite <- (rev_involutive (lstrip s)) at 1. rewrite Hb at 1.
    now rewrite rev_app_distr.
  - rewrite forallb_forall in *. intros x Hx. apply Sb. now apply in_rev.
Qed.

Lemma strip_substring (s : str) : substring (strip s) s.
Proof.
  destruct (strip_decompose s) as [a [b [H _]]]. now exists a, b.
Qed.

Lemma has_arith_strip (s : str) : has_arith s -> has_arith (strip s).
Proof.
  destruct (strip_decompose s) as [a [b [H [Sa Sb]]]].
  intros Hs. rewrite H in Hs. rewrite !has_arith_app in Hs.
  rewrite forallb_forall in Sa, Sb.
  destruct Hs as [[x [Hin Hx]] | [Hs | [x [Hin Hx]]]]; auto.
  - apply arith_not_space in Hx. rewrite (Sa x Hin) in Hx. discriminate.
  - apply arith_not_space in Hx. rewrite (Sb x Hin) in Hx. discriminate.
Qed.

Section Normalizer.

Variable U : unicode_db.

Lemma lower_char_arith (whole : str) (i : nat) (c : Z) :
  is_arith_char c = true -> lower_char U whole i c = [c].
Proof.
  unfold is_arith_char. intros H.
  repeat rewrite orb_true_iff in H. repeat rewrite Z.eqb_eq in H.
  destruct H as [[[[-> | ->] | ->] | ->] | ->]; reflexivity.
Qed.

Lemma has_arith_lower_from (whole : str) (i : nat) (s : str) :
  has_arith s -> has_arith (lower_from U whole i s).
Proof.
  revert i. induction s as [|c s IH]; intros i; simpl.
  - intros H. now apply has_arith_nil in H.
  - rewrite has_arith_cons, has_arith_app. intros [Hc | Hs].
    + left. rewrite lower_char_arith by assumption.
      apply has_arith_cons. now left.
    + right. now apply IH.
Qed.

Lemma has_arith_lower (s : str) : has_arith s -> has_arith (lower U s).
Proof. apply has_arith_lower_from. Qed.

(** A key without operator characters never consumes one. *)
Lemma has_arith_re_sub_word_go (k0 : Z) (k' v : str) :
  (forall x, In x (k0 :: k') -> is_arith_char x = false) ->
  forall (s : str) (prev : option Z) (skip : nat),
    (forall x, In x (firstn skip s) -> is_arith_char x = false) ->
    has_arith s -> has_arith (re_sub_word_go U (k0 :: k') v prev skip s).
Proof.
  intros Hk. induction s as [|c s IH]; intros prev skip Hskip Hs.
  - now apply has_arith_nil in Hs.
  - simpl re_sub_word_go. destruct skip as [|n].
    + destruct (word_match U (k0 :: k') prev (c :: s)) eqn:M.
      * unfold word_match in M. rewrite !andb_true_iff in M.
        destruct M as [[M _] _]. apply starts_with_app in M as [r M].
        simpl in M. injection M as <- ->.
        apply has_arith_app. right. apply IH.
        -- simpl. rewrite firstn_app_length. intros x Hx. apply Hk. now right.
        -- apply has_arith_cons in Hs as [Hc | Hs]; auto.
           rewrite (Hk c) in Hc by now left. discriminate.
      * apply has_arith_cons.
        apply has_arith_cons in Hs as [Hc | Hs]; [now left | right].
        apply IH; [intros x [] | assumption].
    + apply IH.
      * intros x Hx. apply Hskip. simpl. now right.
      * apply has_arith_cons in Hs as [Hc | Hs]; auto.
        rewrite (Hskip c) in Hc by (simpl; now left). discriminate.
Qed.

Lemma has_arith_re_sub_word (k v s : str) :
  forallb (fun x => negb (is_arith_char x)) k = true ->
  has_arith s -> has_arith (re_sub_word U k v s).
Proof.
  intros Hk Hs. destruct k as [|k0 k']; [exact Hs|].
  unfold re_sub_word. apply has_arith_re_sub_word_go; auto.
  - rewrite forallb_forall in Hk. intros x Hx.
    apply Hk in Hx. now apply negb_true_iff in Hx.
  - intros x [].
Qed.

Lemma has_arith_fold_pairs (l : list (str * str)) (s : str) :
  forallb (fun kv => forallb (fun x => negb (is_arith_char x)) (fst kv)) l = true ->
  has_arith s ->
  has_arith (fold_left (fun s kv => re_sub_word U (fst kv) (snd kv) s) l s).
Proof.
  revert s. induction l as [|kv l IH]; intros s Hl Hs; simpl; auto.
  simpl in Hl. apply andb_true_iff in Hl as [Hk Hl].
  apply IH; auto. now apply has_arith_re_sub_word.
Qed.

Lemma has_arith_fold_noise (l : list str) (v s : str) :
  forallb (fun k => forallb (fun x => negb (is_arith_char x)) k) l = true ->
  has_arith s ->
  has_arith (fold_left (fun s k => re_sub_word U k v s) l s).
Proof.
  revert s. induction l as [|k l IH]; intros s Hl Hs; simpl; auto.
  simpl in Hl. apply andb_true_iff in Hl as [Hk Hl].
  apply IH; auto. now apply has_arith_re_sub_word.
Qed.

Lemma has_arith_keep_expr_chars (s : str) :
  has_arith s -> has_arith (map (fun c => if is_expr_char c then c else 32) s).
Proof.
  intros [c [Hin Hc]]. exists c. split; auto.
  apply in_map_iff. exists c. split; auto.
  now rewrite arith_is_expr_char.
Qed.

Lemma has_arith_drop_spaces (s : str) :
  has_arith s -> has_arith (filter (fun c => negb (is_space c)) s).
Proof.
  intros [c [Hin Hc]]. exists c. split; auto.
  apply filter_In. split; auto. now rewrite arith_not_space.
Qed.

Lemma collapse_runs_keeps (c x : Z) (s : str) :
  In x s -> In x (collapse_runs c s).
Proof.
  induction s as [|a s IH]; [auto|].
  intros Hin. simpl collapse_runs. destruct s as [|b s'].
  - exact Hin.
  - destruct ((a =? c) && (b =? c)) eqn:E.
    + apply IH. destruct Hin as [<- | Hin]; auto.
      apply andb_true_iff in E as [Ea Eb].
      apply Z.eqb_eq in Ea, Eb. subst. now left.
    + destruct Hin as [<- | Hin]; [now left | right; auto].
Qed.

Lemma has_arith_collapse_runs (c : Z) (s : str) :
  has_arith s -> has_arith (collapse_runs c s).
Proof.
  intros [x [Hin Hx]]. exists x. split; auto. now apply collapse_runs_keeps.
Qed.

Lemma has_arith_replace_go (old new : str) (s : str) :
  has_arith new -> has_arith s -> has_arith (replace_go old new 0 s).
Proof.
  intros Hnew. induction s as [|c s IH]; intros Hs.
  - now apply has_arith_nil in Hs.
  - simpl. destruct (starts_with old (c :: s)).
    + apply has_arith_app. now left.
    + apply has_arith_cons.
      apply has_arith_cons in Hs as [Hc | Hs]; [now left | right; auto].
Qed.

Lemma has_arith_text_to_math_expr (q : str) :
  has_arith q -> has_arith (text_to_math_expr U q).
Proof.
  intros Hq. unfold text_to_math_expr, replace.
  change (py "**+") with [42; 42; 43].
  apply has_arith_replace_go.
  { exists 42. split; [now left | reflexivity]. }
  do 3 apply has_arith_collapse_runs.
  apply has_arith_drop_spaces, has_arith_keep_expr_chars.
  apply has_arith_fold_noise; [reflexivity|].
  apply has_arith_fold_pairs; [reflexivity|].
  apply has_arith_fold_pairs; [reflexivity|].
  now apply has_arith_lower.
Qed.

Lemma has_arith_search_operator (e : str) :
  has_arith e -> e <> [] /\ search_operator e = true.
Proof.
  intros [c [Hin Hc]]. split.
  - intros ->. destruct Hin.
  - induction e as [|a e IH]; [destruct Hin|].
    simpl search_operator. destruct Hin as [<- | Hin].
    + rewrite (arith_is_operator_char _ Hc). now rewrite orb_true_r.
    + rewrite IH by assumption. now rewrite orb_true_r.
Qed.

End Normalizer.

Lemma has_arith_existsb (s : str) :
  has_arith s <-> existsb is_arith_char s = true.
Proof. unfold has_arith. now rewrite existsb_exists. Qed.

(** ** Rule-based fallback *)

Section RuleRouting.

Variable U : unicode_db.
Variable sympy_float : pyval -> py_result float.
Variables get_weather search_arxiv : pyval -> ToolResult.

Lemma rules_calculate (user_text : str) :
  has_arith (text_to_math_expr U (strip user_text)) ->
  maybe_call_by_rules U sympy_float get_weather search_arxiv user_text
  = Returns
      {| calls := [(T_calculate, PStr (text_to_math_expr U (strip user_text)))];
         reply := Some (rendered (py "calculate")
                          (Tools.calculate sympy_float
                             (PStr (text_to_math_expr U (strip user_text))))) |}.
Proof.
  intros H. apply has_arith_search_operator in H as [Hne Hop].
  unfold maybe_call_by_rules.
  apply str_eqb_neq in Hne. rewrite Hne, Hop. reflexivity.
Qed.

(** C5. In rule-based fallback the arithmetic check comes first: whenever
    the normalized utterance contains an arithmetic operator, the router
    invokes [calculate] on the normalized expression (and nothing else),
    whatever weather or literature keywords the utterance has. *)
Theorem arithmetic_rule_takes_precedence (user_text : str) :
  existsb is_arith_char (text_to_math_expr U (strip user_text)) = true ->
  maybe_call_by_rules U sympy_float get_weather search_arxiv user_text
  = Returns
      {| calls := [(T_calculate, PStr (text_to_math_expr U (strip user_text)))];
         reply := Some (rendered (py "calculate")
                          (Tools.calculate sympy_float
                             (PStr (text_to_math_expr U (strip user_text))))) |}.
Proof.
  intros H. apply has_arith_existsb in H. now apply rules_calculate.
Qed.

(** C10, amended. An utterance that contains one of the characters
    [+ - * / %] anywhere (a hyphenated noun, a date) is dispatched to
    [calculate] with the normalized residue as the expression, even when
    it has literature or weather keywords. *)
Theorem operator_character_routes_to_calculate (user_text : str) :
  existsb is_arith_char user_text = true ->
  maybe_call_by_rules U sympy_float get_weather search_arxiv user_text
  = Returns
      {| calls := [(T_calculate, PStr (text_to_math_expr U (strip user_text)))];
         reply := Some (rendered (py "calculate")
                          (Tools.calculate sympy_float
                             (PStr (text_to_math_expr U (strip user_text))))) |}.
Proof.
  intros H. apply has_arith_existsb in H. apply rules_calculate.
  now apply has_arith_text_to_math_expr, has_arith_strip.
Qed.

(** The fallback returns for every utterance: nothing in it can raise. *)
Lemma rules_never_raise (user_text : str) :
  exists o,
    maybe_call_by_rules U sympy_float get_weather search_arxiv user_text = Returns o.
Proof.
  unfold maybe_call_by_rules.
  repeat match goal with
         | |- context [if ?b then _ else _] => destruct b
         end; eexists; reflexivity.
Qed.

End RuleRouting.

(** C9. The localized operator words are substituted between word
    boundaries, and an ideograph is a word character just as a digit is:
    in ["5加3"] there is no boundary around the operator word, nothing is
    substituted and the ideograph is then discarded, which leaves ["53"].
    The same holds for every pair of digits and each of the four
    one-character operator words.  Set off by spaces the word does become
    the operator. *)
Theorem localized_operator_between_digits (U : unicode_db) :
  text_to_math_expr U (py "5加3") = py "53"
  /\ forallb (fun a =>
       forallb (fun b =>
         forallb (fun op => str_eqb (text_to_math_expr U ([a] ++ op ++ [b])) [a; b])
           [py "加"; py "减"; py "乘"; py "除"])
         (py "0123456789"))
       (py "0123456789") = true
  /\ text_to_math_expr U (py "5 加 3") = py "5+3".
Proof. repeat split; vm_compute; reflexivity. Qed.

(** C2 as stated fails: on the normalized text [calculate] does not
    answer ["8"]. *)
Lemma five_plus_three_is_not_8 : ~ normalizes_and_evaluates_to_8.
Proof.
  unfold normalizes_and_evaluates_to_8. intros [_ [_ H]].
  vm_compute in H. discriminate H.
Qed.

(** C2, amended. ["what is five plus three"] normalizes to ["+"]: one [+]
    and no letters, the number words being dropped, not converted; on that
    text [calculate] reports a failure. Written with digits the utterance
    normalizes to ["5+3"], on which [calculate] answers ["8"]. *)
Theorem number_words_are_dropped (U : unicode_db) :
  text_to_math_expr U (py "what is five plus three") = py "+"
  /\ count_char 43 (py "+") = 1%nat /\ no_letters (py "+") = true
  /\ ok (Tools.calculate SympyRef.sympy_float (PStr (py "+"))) = false
  /\ starts_with (py "Math calculation error: ")
       (content (Tools.calculate SympyRef.sympy_float (PStr (py "+")))) = true
  /\ text_to_math_expr U (py "what is 5 plus 3") = py "5+3"
  /\ Tools.calculate SympyRef.sympy_float (PStr (py "5+3"))
     = {| ok := true; content := py "8" |}.
Proof. repeat split; vm_compute; reflexivity. Qed.

(** ** Routing a model output *)

Lemma aliases_get_alias (name : str) :
  In name (map fst ALIASES) ->
  aliases_get (PStr name) = Returns (PStr (py "search_arxiv")).
Proof.
  simpl. intros [<- | [<- | [<- | [<- | []]]]]; reflexivity.
Qed.

Lemma aliases_get_resolve (name : str) :
  aliases_get (PStr name) = Returns (PStr (resolve name)).
Proof.
  unfold aliases_get, resolve.
  now destruct (List.find (fun kv => str_eqb (fst kv) name) ALIASES).
Qed.

Lemma aliases_get_hashable (v : pyval) :
  hashable v = true -> exists w, aliases_get v = Returns w.
Proof.
  destruct v; try discriminate; intros _; try (eexists; reflexivity).
  rewrite aliases_get_resolve. eexists; reflexivity.
Qed.

Section ModelOutputRouting.

Variable json_loads : str -> option pyval.
Variable sympy_float : pyval -> py_result float.
Variables get_weather search_arxiv : pyval -> ToolResult.

(** The part of [try_route_llm_function_call] that follows a successful
    extraction of a non-empty object. *)
Lemma route_extracted {llm_output : str} {obj : list (str * pyval)} {func : pyval} :
  _extract_json_call json_loads llm_output = Some obj ->
  dict_get obj (py "function") = Some func ->
  try_route_llm_function_call json_loads sympy_float get_weather search_arxiv
    llm_output
  = (func' <- aliases_get func ;;
     match dispatch sympy_float get_weather search_arxiv func'
             match dict_get obj (py "arguments") with
             | Some v => if truthy v then v else PDict []
             | None => PDict []
             end with
     | Returns o => Returns o
     | Raises _ e =>
         Returns {| calls := [];
                    reply := Some (py "Error: Could not process function call. Details: "
                                   ++ e) |}
     end).
Proof.
  intros He Hf. unfold try_route_llm_function_call. rewrite He.
  destruct obj as [|kv obj]; [discriminate Hf|]. now rewrite Hf.
Qed.

(** C7. The alias table is consulted once, before dispatch: a call named
    by an alias ([recent_papers] among them) with an arguments object [A]
    is routed exactly as the call named [search_arxiv] with the same [A];
    both invoke the [search_arxiv] tool on [A.get("query", "")], so an
    alias never takes the unknown-function path, which invokes no tool. *)
Theorem alias_routes_as_search_arxiv
    (name : str) (A : list (str * pyval))
    (out_alias out_canon : str) (obj_alias obj_canon : list (str * pyval)) :
  In name (map fst ALIASES) ->
  _extract_json_call json_loads out_alias = Some obj_alias ->
  dict_get obj_alias (py "function") = Some (PStr name) ->
  dict_get obj_alias (py "arguments") = Some (PDict A) ->
  _extract_json_call json_loads out_canon = Some obj_canon ->
  dict_get obj_canon (py "function") = Some (PStr (py "search_arxiv")) ->
  dict_get obj_canon (py "arguments") = Some (PDict A) ->
  let query := match dict_get A (py "query") with
               | Some v => v
               | None => PStr []
               end in
  try_route_llm_function_call json_loads sympy_float get_weather search_arxiv
    out_alias
  = try_route_llm_function_call json_loads sympy_float get_weather search_arxiv
      out_canon
  /\ try_route_llm_function_call json_loads sympy_float get_weather search_arxiv
       out_alias
     = Returns {| calls := [(T_search_arxiv, query)];
                  reply := Some (rendered (py "search_arxiv") (search_arxiv query)) |}.
Proof.
  intros Hin He1 Hf1 Ha1 He2 Hf2 Ha2 query.
  rewrite (route_extracted He1 Hf1), (route_extracted He2 Hf2).
  rewrite Ha1, Ha2, (aliases_get_alias _ Hin).
  change (aliases_get (PStr (py "search_arxiv")))
    with (@Returns pyval (PStr (py "search_arxiv"))).
  split; [reflexivity|].
  destruct A as [|a A']; reflexivity.
Qed.

(** C8. A well-formed payload whose function name, after alias
    resolution, is none of [get_weather], [calculate], [search_arxiv] is
    answered with exactly [Error: Unknown function 'X'], [X] being the
    resolved name, and no tool is invoked. *)
Theorem unknown_function_reply
    (llm_output : str) (obj : list (str * pyval)) (X : str) :
  _extract_json_call json_loads llm_output = Some obj ->
  dict_get obj (py "function") = Some (PStr X) ->
  registered (resolve X) = false ->
  try_route_llm_function_call json_loads sympy_float get_weather search_arxiv
    llm_output
  = Returns {| calls := [];
               reply := Some (py "Error: Unknown function '" ++ resolve X ++ py "'") |}.
Proof.
  intros He Hf Hr. rewrite (route_extracted He Hf), aliases_get_resolve.
  unfold registered in Hr. rewrite !orb_false_iff in Hr.
  destruct Hr as [[Hw Hc] Hs].
  simpl bind. unfold dispatch, is_name. rewrite Hw, Hc, Hs. reflexivity.
Qed.

(** A call whose [function] value can be hashed is always answered. *)
Lemma route_returns_when_hashable (llm_output : str) :
  (forall obj v,
      _extract_json_call json_loads llm_output = Some obj ->
      dict_get obj (py "function") = Some v -> hashable v = true) ->
  exists o,
    try_route_llm_function_call json_loads sympy_float get_weather search_arxiv
      llm_output = Returns o.
Proof.
  intros H. unfold try_route_llm_function_call.
  destruct (_extract_json_call json_loads llm_output) as [obj|] eqn:He;
    [|eexists; reflexivity].
  destruct obj as [|kv obj]; [eexists; reflexivity|].
  destruct (dict_get (kv :: obj) (py "function")) as [v|] eqn:Hf.
  - destruct (aliases_get_hashable v (H _ _ eq_refl Hf)) as [w ->]. simpl bind.
    destruct (dispatch _ _ _ _ _); eexists; reflexivity.
  - eexists; reflexivity.
Qed.

End ModelOutputRouting.

(** C1. The router is meant never to raise, and its fallback
    [maybe_call_by_rules] never does; [try_route_llm_function_call] returns
    whenever the extracted [function] value can be hashed.  But the alias
    lookup stands before the [try] block: on a payload whose [function]
    value is a list the lookup raises [TypeError] and the exception reaches
    the caller. *)
Theorem router_raises_on_unhashable_function
    (U : unicode_db) (sympy_float : pyval -> py_result float)
    (get_weather search_arxiv : pyval -> ToolResult) :
  try_route_llm_function_call Json.json_loads sympy_float get_weather search_arxiv
    (pyq "{'function': [], 'arguments': {}}")
  = Raises (py "TypeError") (py "unhashable type: 'list'")
  /\ (forall user_text, exists o,
         maybe_call_by_rules U sympy_float get_weather search_arxiv user_text
         = Returns o)
  /\ (forall json_loads llm_output,
         (forall obj v,
             _extract_json_call json_loads llm_output = Some obj ->
             dict_get obj (py "function") = Some v -> hashable v = true) ->
         exists o,
           try_route_llm_function_call json_loads sympy_float get_weather
             search_arxiv llm_output = Returns o).
Proof.
  split; [vm_compute; reflexivity|]. split.
  - apply rules_never_raise.
  - intros. now apply route_returns_when_hashable.
Qed.

(** ** The call extractor *)

#[local] Arguments starts_with : simpl never.
#[local] Arguments ci_starts_with : simpl never.

Lemma substring_trans (a b c : str) :
  substring a b -> substring b c -> substring a c.
Proof.
  intros [x [y ->]] [u [v ->]]. exists (u ++ x), (y ++ v).
  now rewrite !app_assoc.
Qed.

Lemma substring_cons (a s : str) (c : Z) : substring a s -> substring a (c :: s).
Proof. intros [x [y ->]]. now exists (c :: x), y. Qed.

Lemma substring_app_r (a p s : str) : substring a s -> substring a (p ++ s).
Proof. intros [x [y ->]]. exists (p ++ x), y. now rewrite app_assoc. Qed.

Lemma substring_prefix (p r : str) : substring p (p ++ r).
Proof. now exists [], r. Qed.

Lemma span_eq (p : Z -> bool) (s a b : str) : span p s = (a, b) -> s = a ++ b.
Proof.
  revert a b. induction s as [|c s IH]; simpl; intros a b H.
  - now injection H as <- <-.
  - destruct (p c).
    + destruct (span p s) as [a' b'] eqn:E. injection H as <- <-.
      simpl. f_equal. now apply IH.
    + now injection H as <- <-.
Qed.

Lemma span_stop (p : Z -> bool) (a : str) (c : Z) (r : str) :
  forallb p a = true -> p c = false -> span p (a ++ c :: r) = (a, c :: r).
Proof.
  intros Ha Hc. induction a as [|x a IH]; simpl.
  - now rewrite Hc.
  - simpl in Ha. apply andb_true_iff in Ha as [Hx Ha].
    now rewrite Hx, (IH Ha).
Qed.

Lemma skipn_suffix (n : nat) (s : str) : exists a, s = a ++ skipn n s.
Proof. exists (firstn n s). now rewrite firstn_skipn. Qed.

Lemma close_fence_prefix (s acc body : str) (n : nat) :
  close_fence acc s = Some (body, n) -> exists rest, rev acc ++ s = body ++ rest.
Proof.
  revert acc. induction s as [|c r IH]; intros acc; simpl; [discriminate|].
  destruct (span is_space r) as [ws rest] eqn:E.
  destruct ((c =? 125) && starts_with fence rest).
  - intros H. injection H as <- _. exists r. simpl. now rewrite <- app_assoc.
  - intros H. apply IH in H as [rest' H]. exists rest'.
    rewrite <- H. simpl. now rewrite <- app_assoc.
Qed.

Lemma match_fence_substring (s g : str) (len : nat) :
  match_fence s = Some (g, len) -> substring g s.
Proof.
  unfold match_fence. destruct (starts_with fence s); [|discriminate].
  destruct (skipn_suffix 3 s) as [a0 H0].
  set (r0 := skipn 3 s) in *.
  set (r1 := if ci_starts_with (py "json") r0 then skipn 4 r0 else r0).
  assert (H1 : exists a1, r0 = a1 ++ r1).
  { unfold r1. destruct (ci_starts_with (py "json") r0);
      [apply skipn_suffix | now exists []]. }
  destruct H1 as [a1 H1].
  destruct (span is_space r1) as [ws r2] eqn:E. apply span_eq in E.
  destruct r2 as [|c r3]; [discriminate|].
  destruct (c =? 123); [|discriminate].
  destruct (close_fence [] r3) as [[body n]|] eqn:C; [|discriminate].
  intros H. injection H as <- _.
  apply close_fence_prefix in C as [rest C]. simpl in C.
  exists (a0 ++ a1 ++ ws), rest.
  rewrite H0, H1, E, C. now rewrite <- !app_assoc.
Qed.

Lemma fenced_blocks_substring (s : str) :
  forall skip g, In g (fenced_blocks skip s) -> substring g s.
Proof.
  induction s as [|c s IH]; intros skip g; simpl; [intros []|].
  destruct skip as [|n].
  - destruct (match_fence (c :: s)) as [[g' len]|] eqn:M.
    + intros [<- | Hin].
      * now apply match_fence_substring in M.
      * apply substring_cons. now apply IH in Hin.
    + intros Hin. apply substring_cons. now apply IH in Hin.
  - intros Hin. apply substring_cons. now apply IH in Hin.
Qed.

Lemma match_fence_needs_backtick (c : Z) (s : str) :
  (c =? 96) = false -> match_fence (c :: s) = None.
Proof.
  intros H. unfold match_fence, fence, starts_with.
  rewrite Z.eqb_sym in H. now rewrite H.
Qed.

Lemma fenced_blocks_skip_prefix (pre s : str) :
  no_backtick pre = true -> fenced_blocks 0 (pre ++ s) = fenced_blocks 0 s.
Proof.
  induction pre as [|c pre IH]; [reflexivity|].
  unfold no_backtick. cbn [forallb app fenced_blocks].
  intros H. apply andb_true_iff in H as [Hc H]. apply negb_true_iff in Hc.
  rewrite match_fence_needs_backtick by assumption. now apply IH.
Qed.

Lemma fenced_blocks_none (s : str) :
  no_backtick s = true -> fenced_blocks 0 s = [].
Proof.
  intros H. rewrite <- (app_nil_r s).
  now rewrite fenced_blocks_skip_prefix.
Qed.

Lemma first_balance_app (p post : str) :
  forall (d : Z) (n : nat),
    first_balance d p = Some n -> first_balance d (p ++ post) = Some n.
Proof.
  induction p as [|c p IH]; intros d n; simpl; [discriminate|].
  destruct (c =? 123).
  - destruct (first_balance (d + 1) p) as [k|] eqn:E; [|discriminate].
    now rewrite (IH _ _ E).
  - destruct (c =? 125).
    + destruct (d - 1 =? 0); auto.
      destruct (first_balance (d - 1) p) as [k|] eqn:E; [|discriminate].
      now rewrite (IH _ _ E).
    + destruct (first_balance d p) as [k|] eqn:E; [|discriminate].
      now rewrite (IH _ _ E).
Qed.

Lemma space_not_json_tag (c : Z) (r : str) :
  is_space c = true \/ c = 123 -> ci_starts_with (py "json") (c :: r) = false.
Proof.
  intros H. unfold ci_starts_with. change (py "json") with [106; 115; 111; 110].
  cbv beta iota. fold ci_starts_with.
  assert (E : ci_eq 106 c = false); [|now rewrite E].
  unfold ci_eq. change (106 =? 105) with false. change (106 =? 115) with false.
  change (106 =? 107) with false. rewrite !andb_false_l, !orb_false_r.
  destruct (c =? 106) eqn:E1.
  { apply Z.eqb_eq in E1. subst. destruct H; discriminate. }
  destruct (c + 32 =? 106) eqn:E2; [|now rewrite andb_false_r].
  apply Z.eqb_eq in E2. assert (c = 74) by lia. subst. destruct H; discriminate.
Qed.

Lemma fence_before_brace (x t : str) :
  starts_with fence (x ++ 125 :: t) = true -> starts_with fence x = true.
Proof.
  unfold fence.
  destruct x as [|a [|b [|c x]]]; cbn [app starts_with];
    change (96 =? 125) with false; rewrite ?andb_false_l, ?andb_false_r;
    auto; discriminate.
Qed.

Lemma find_cons_none (sub : str) (c : Z) (s : str) :
  find sub (c :: s) = None ->
  starts_with sub (c :: s) = false /\ find sub s = None.
Proof.
  cbn [find]. destruct (starts_with sub (c :: s)); [discriminate|].
  destruct (find sub s); [discriminate | auto].
Qed.

Lemma find_found (sub s : str) :
  forall n, find sub s = Some n ->
            (n <= length s)%nat /\ starts_with sub (skipn n s) = true.
Proof.
  induction s as [|c s IH]; intros n; cbn [find].
  - destruct (starts_with sub []) eqn:E; [|discriminate].
    intros H. injection H as <-. split; [apply Nat.le_refl | exact E].
  - destruct (starts_with sub (c :: s)) eqn:E.
    + intros H. injection H as <-. split; [cbn [length]; lia | exact E].
    + destruct (find sub s) as [k|] eqn:F; [|discriminate].
      intros H. injection H as <-. destruct (IH k eq_refl) as [L S].
      split; [cbn [length]; lia | exact S].
Qed.

(** Inside a block that has no fence, no closing brace before the last
    one is followed by white space and a fence. *)
Lemma no_early_fence (body t : str) :
  find fence body = None ->
  starts_with fence (snd (span is_space (body ++ 125 :: t))) = false.
Proof.
  induction body as [|c body IH]; intros H.
  - reflexivity.
  - apply find_cons_none in H as [H0 H].
    cbn [app span]. destruct (is_space c).
    + specialize (IH H). destruct (span is_space (body ++ 125 :: t)). exact IH.
    + cbn [snd].
      destruct (starts_with fence (c :: body ++ 125 :: t)) eqn:E; [|reflexivity].
      apply (fence_before_brace (c :: body) t) in E. congruence.
Qed.

Lemma close_fence_found (body ws2 post : str) :
  find fence body = None -> all_space ws2 = true ->
  forall acc, exists n,
    close_fence acc (body ++ 125 :: ws2 ++ fence ++ post)
    = Some (rev acc ++ body ++ [125], n).
Proof.
  intros Hb Hw. induction body as [|c body IH]; intros acc.
  - cbn [app close_fence].
    change (fence ++ post) with (96 :: [96; 96] ++ post).
    rewrite (span_stop is_space ws2 96 _ Hw eq_refl).
    change (96 :: [96; 96] ++ post) with (fence ++ post).
    rewrite starts_with_self_app. cbn [Z.eqb Pos.eqb andb].
    eexists. reflexivity.
  - apply find_cons_none in Hb as [_ Hb].
    cbn [app close_fence].
    pose proof (no_early_fence body (ws2 ++ fence ++ post) Hb) as E.
    destruct (span is_space (body ++ 125 :: ws2 ++ fence ++ post)) as [ws rest].
    cbn [snd] in E. rewrite E, andb_false_r.
    destruct (IH Hb (c :: acc)) as [n ->]. exists n.
    cbn [rev]. now rewrite <- app_assoc.
Qed.

(** The tag of a block: [json] in any letter case. *)
Lemma ci_tag_skipped (tag r : str) :
  length tag = 4%nat -> ci_starts_with (py "json") tag = true ->
  ci_starts_with (py "json") (tag ++ r) = true /\ skipn 4 (tag ++ r) = r.
Proof.
  destruct tag as [|a [|b [|c [|d [|e tag]]]]]; try discriminate. intros _.
  change (py "json") with [106; 115; 111; 110].
  cbn [app ci_starts_with skipn]. intros H. split; [exact H | reflexivity].
Qed.

Lemma match_fence_found (tag ws1 body ws2 post : str) :
  tag = [] \/ (length tag = 4%nat /\ ci_starts_with (py "json") tag = true) ->
  all_space ws1 = true -> all_space ws2 = true -> find fence body = None ->
  exists len,
    match_fence (fence ++ tag ++ ws1 ++ (123 :: body ++ [125]) ++ ws2 ++ fence ++ post)
    = Some (123 :: body ++ [125], len).
Proof.
  intros Ht H1 H2 Hb. unfold match_fence.
  rewrite starts_with_self_app.
  change (skipn 3 (fence ++ ?x)) with x.
  assert (Hr : (if ci_starts_with (py "json")
                     (tag ++ ws1 ++ (123 :: body ++ [125]) ++ ws2 ++ fence ++ post)
                then skipn 4 (tag ++ ws1 ++ (123 :: body ++ [125]) ++ ws2 ++ fence ++ post)
                else tag ++ ws1 ++ (123 :: body ++ [125]) ++ ws2 ++ fence ++ post)
               = ws1 ++ 123 :: body ++ 125 :: ws2 ++ fence ++ post).
  { destruct Ht as [-> | [Hl Hc]].
    - cbn [app]. destruct ws1 as [|w ws1].
      + cbn [app]. rewrite space_not_json_tag by now right.
        now rewrite <- app_assoc.
      + cbn [app]. unfold all_space in H1. cbn [forallb] in H1.
        apply andb_true_iff in H1 as [Hw _].
        rewrite space_not_json_tag by now left.
        now rewrite <- !app_assoc.
    - destruct (ci_tag_skipped tag
                  (ws1 ++ (123 :: body ++ [125]) ++ ws2 ++ fence ++ post) Hl Hc)
        as [E1 E2].
      rewrite E1, E2. cbn [app]. now rewrite <- !app_assoc. }
  rewrite Hr.
  rewrite (span_stop is_space ws1 123 _ H1 eq_refl).
  destruct (close_fence_found body ws2 post Hb H2 []) as [n ->].
  cbn [Z.eqb Pos.eqb rev app]. eexists. reflexivity.
Qed.

Lemma match_fence_needs_fence (s : str) :
  starts_with fence s = false -> match_fence s = None.
Proof. intros H. unfold match_fence. now rewrite H. Qed.

(** Before the first fence of the text there is no block. *)
Lemma fenced_blocks_first_fence (pre s : str) :
  find fence (pre ++ s) = Some (length pre) ->
  fenced_blocks 0 (pre ++ s) = fenced_blocks 0 s.
Proof.
  induction pre as [|c pre IH]; [reflexivity|].
  intros H. cbn [app length find] in H.
  destruct (starts_with fence (c :: pre ++ s)) eqn:E; [discriminate|].
  destruct (find fence (pre ++ s)) as [n|] eqn:F; [|discriminate].
  injection H as ->.
  cbn [app fenced_blocks]. rewrite (match_fence_needs_fence _ E). now apply IH.
Qed.

(** A block starts with an opening brace and ends with a closing one. *)
Lemma close_fence_shape (s acc body : str) (n : nat) :
  close_fence acc s = Some (body, n) -> exists b, body = b ++ [125].
Proof.
  revert acc. induction s as [|c r IH]; intros acc; cbn [close_fence];
    [discriminate|].
  destruct (span is_space r) as [ws rest].
  destruct ((c =? 125) && starts_with fence rest) eqn:E.
  - apply andb_true_iff in E as [E _]. apply Z.eqb_eq in E. subst c.
    intros H. injection H as <- _. exists (rev acc). reflexivity.
  - apply IH.
Qed.

Lemma match_fence_shape (s g : str) (len : nat) :
  match_fence s = Some (g, len) -> exists b, g = 123 :: b ++ [125].
Proof.
  unfold match_fence. destruct (starts_with fence s); [|discriminate].
  cbv zeta.
  destruct (span is_space _) as [ws r2].
  destruct r2 as [|c r3]; [discriminate|].
  destruct (c =? 123) eqn:E; [|discriminate]. apply Z.eqb_eq in E. subst c.
  destruct (close_fence [] r3) as [[body n]|] eqn:C; [|discriminate].
  intros H. injection H as <- _.
  apply close_fence_shape in C as [b ->]. now exists b.
Qed.

Lemma fenced_block_shape (s : str) :
  forall skip g, In g (fenced_blocks skip s) -> exists b, g = 123 :: b ++ [125].
Proof.
  induction s as [|c s IH]; intros skip g; cbn [fenced_blocks]; [intros []|].
  destruct skip as [|n]; [|apply IH].
  destruct (match_fence (c :: s)) as [[g' len]|] eqn:M; [|apply IH].
  intros [<- | Hin]; [now apply match_fence_shape in M | now apply IH in Hin].
Qed.

Lemma first_balance_firstn (s : str) :
  forall (d : Z) (n : nat),
    first_balance d s = Some n ->
    (n <= length s)%nat /\ first_balance d (firstn n s) = Some n.
Proof.
  induction s as [|c r IH]; intros d n; cbn [first_balance]; [discriminate|].
  destruct (c =? 123) eqn:E1.
  { destruct (first_balance (d + 1) r) as [k|] eqn:F; [|discriminate].
    intros H. injection H as <-. destruct (IH _ _ F) as [L B].
    split; [cbn [length]; lia|]. cbn [firstn first_balance]. now rewrite E1, B. }
  destruct (c =? 125) eqn:E2.
  - destruct (d - 1 =? 0) eqn:D.
    + intros H. injection H as <-. split; [cbn [length]; lia|].
      cbn [firstn first_balance]. now rewrite E1, E2, D.
    + destruct (first_balance (d - 1) r) as [k|] eqn:F; [|discriminate].
      intros H. injection H as <-. destruct (IH _ _ F) as [L B].
      split; [cbn [length]; lia|].
      cbn [firstn first_balance]. now rewrite E1, E2, D, B.
  - destruct (first_balance d r) as [k|] eqn:F; [|discriminate].
    intros H. injection H as <-. destruct (IH _ _ F) as [L B].
    split; [cbn [length]; lia|].
    cbn [firstn first_balance]. now rewrite E1, E2, B.
Qed.

(** A text that starts with the opener still does when it is cut at its
    first point of balance. *)
Lemma first_balance_past_opener (r : str) (n : nat) :
  starts_with opener r = true -> first_balance 0 r = Some n ->
  starts_with opener (firstn n r) = true.
Proof.
  intros H. apply starts_with_app in H as [t ->].
  change opener with [123; 34; 102; 117; 110; 99; 116; 105; 111; 110; 34].
  simpl. destruct (first_balance 1 t) as [k|]; simpl; [|discriminate].
  intros H. injection H as <-. reflexivity.
Qed.

Lemma strip_braced (body : str) :
  strip (123 :: body ++ [125]) = 123 :: body ++ [125].
Proof.
  unfold strip, rstrip. cbn [lstrip]. change (is_space 123) with false. cbv iota.
  change (123 :: body ++ [125]) with ((123 :: body) ++ [125]).
  rewrite rev_app_distr. cbn [rev app lstrip].
  change (is_space 125) with false. cbv iota.
  cbn [rev]. rewrite rev_app_distr, rev_involutive. reflexivity.
Qed.

Section Extractor.

Variable json_loads : str -> option pyval.

Lemma function_object_some (r : option pyval) (kv : list (str * pyval)) :
  function_object r = Some kv <->
  r = Some (PDict kv) /\ dict_has kv (py "function") = true.
Proof.
  unfold function_object. split.
  - destruct r as [[| | | | | |kv']|]; try discriminate.
    destruct (dict_has kv' (py "function")) eqn:E; [|discriminate].
    intros H. injection H as <-. now split.
  - intros [-> ->]. reflexivity.
Qed.

Lemma first_block_sound (blocks : list str) (kv : list (str * pyval)) :
  first_block json_loads blocks = Some kv ->
  exists g, In g blocks /\ function_object (json_loads (strip g)) = Some kv.
Proof.
  induction blocks as [|g blocks IH]; simpl; [discriminate|].
  destruct (function_object (json_loads (strip g))) as [kv'|] eqn:E.
  - intros H. injection H as <-. exists g. auto.
  - intros H. destruct (IH H) as [g' [Hin Hg]]. exists g'. auto.
Qed.

Lemma first_block_none (blocks : list str) :
  first_block json_loads blocks = None <-> no_call_among json_loads blocks = true.
Proof.
  unfold no_call_among.
  induction blocks as [|g blocks IH]; cbn [first_block forallb];
    [split; reflexivity|].
  destruct (function_object (json_loads (strip g))); cbn [andb];
    [split; discriminate | exact IH].
Qed.

Lemma first_block_app (earlier rest : list str) :
  no_call_among json_loads earlier = true ->
  first_block json_loads (earlier ++ rest) = first_block json_loads rest.
Proof.
  unfold no_call_among.
  induction earlier as [|g e IH]; cbn [forallb app first_block]; [reflexivity|].
  destruct (function_object (json_loads (strip g))); cbn [andb];
    [discriminate | exact IH].
Qed.

Lemma first_block_split (blocks : list str) (kv : list (str * pyval)) :
  first_block json_loads blocks = Some kv ->
  exists earlier g later,
    blocks = earlier ++ g :: later
    /\ no_call_among json_loads earlier = true
    /\ function_object (json_loads (strip g)) = Some kv.
Proof.
  induction blocks as [|g blocks IH]; cbn [first_block]; [discriminate|].
  destruct (function_object (json_loads (strip g))) as [kv'|] eqn:E.
  - intros H. injection H as <-. exists [], g, blocks. auto.
  - intros H. destruct (IH H) as (e & g' & l & -> & N & F).
    exists (g :: e), g', l. repeat split; auto.
    unfold no_call_among in *. cbn [forallb]. now rewrite E.
Qed.

Lemma brace_scan_sound (s : str) :
  forall (depth : Z) (chunk : str) (kv : list (str * pyval)),
    brace_scan json_loads depth chunk s = Some kv ->
    exists p rest, rev chunk ++ s = p ++ rest
                   /\ function_object (json_loads p) = Some kv.
Proof.
  induction s as [|c r IH]; intros depth chunk kv; cbn [brace_scan];
    [discriminate|].
  assert (Hrec : forall d,
             brace_scan json_loads d (c :: chunk) r = Some kv ->
             exists p rest, rev chunk ++ c :: r = p ++ rest
                            /\ function_object (json_loads p) = Some kv).
  { intros d H. apply IH in H as [p [rest [H1 H2]]]. exists p, rest.
    split; auto. rewrite <- H1. cbn [rev]. now rewrite <- app_assoc. }
  destruct (c =? 123); [apply Hrec|].
  destruct (c =? 125); [|apply Hrec].
  destruct (depth - 1 =? 0); [|apply Hrec].
  destruct (json_loads (rev (c :: chunk))) as [obj|] eqn:E; [|discriminate].
  destruct (function_object (Some obj)) as [kv'|] eqn:F; [|apply Hrec].
  intros H. injection H as <-.
  exists (rev (c :: chunk)), r. split.
  - cbn [rev]. now rewrite <- app_assoc.
  - now rewrite E.
Qed.

(** Whatever the extractor returns was obtained by decoding a piece of
    the input. *)
Lemma extract_sound (text : str) (kv : list (str * pyval)) :
  _extract_json_call json_loads text = Some kv ->
  exists sub, substring sub text /\ function_object (json_loads sub) = Some kv.
Proof.
  unfold _extract_json_call.
  destruct (function_object (json_loads (strip text))) as [kv1|] eqn:E1.
  { intros H. injection H as <-. exists (strip text).
    split; [apply strip_substring | assumption]. }
  destruct (first_block json_loads (fenced_blocks 0 (strip text))) as [kv2|] eqn:E2.
  { intros H. injection H as <-.
    apply first_block_sound in E2 as [g [Hin Hg]].
    exists (strip g). split; auto.
    apply substring_trans with g; [apply strip_substring|].
    apply substring_trans with (strip text); [|apply strip_substring].
    now apply fenced_blocks_substring in Hin. }
  destruct (find opener (strip text)) as [idx|]; [|discriminate].
  intros H. apply brace_scan_sound in H as [p [rest [H1 H2]]].
  exists p. split; auto. cbn [rev app] in H1.
  apply substring_trans with (strip text); [|apply strip_substring].
  destruct (skipn_suffix idx (strip text)) as [a Ha].
  rewrite Ha, H1. apply substring_app_r, substring_prefix.
Qed.

Lemma brace_scan_unbalanced (s : str) :
  forall (depth : Z) (chunk : str),
    first_balance depth s = None -> brace_scan json_loads depth chunk s = None.
Proof.
  induction s as [|c r IH]; intros depth chunk; cbn [brace_scan first_balance];
    [reflexivity|].
  destruct (c =? 123).
  - destruct (first_balance (depth + 1) r) eqn:E; [discriminate|].
    intros _. now apply IH.
  - destruct (c =? 125).
    + destruct (depth - 1 =? 0); [discriminate|].
      destruct (first_balance (depth - 1) r) eqn:E; [discriminate|].
      intros _. now apply IH.
    + destruct (first_balance depth r) eqn:E; [discriminate|].
      intros _. now apply IH.
Qed.

(** At the first point of balance the loop decodes the text read so far;
    it returns the object, stops when the decoder raises, and goes on
    only past an object without the [function] field. *)
Lemma brace_scan_first (s : str) :
  forall (depth : Z) (chunk : str) (n : nat),
    first_balance depth s = Some n ->
    brace_scan json_loads depth chunk s
    = match json_loads (rev chunk ++ firstn n s) with
      | None => None
      | Some obj =>
          match function_object (Some obj) with
          | Some kv => Some kv
          | None => brace_scan json_loads 0 (rev (firstn n s) ++ chunk) (skipn n s)
          end
      end.
Proof.
  induction s as [|c r IH]; intros depth chunk n;
    cbn [brace_scan first_balance]; [discriminate|].
  assert (Hrec : forall d k,
             first_balance d r = Some k ->
             brace_scan json_loads d (c :: chunk) r
             = match json_loads (rev chunk ++ firstn (S k) (c :: r)) with
               | None => None
               | Some obj =>
                   match function_object (Some obj) with
                   | Some kv => Some kv
                   | None => brace_scan json_loads 0
                               (rev (firstn (S k) (c :: r)) ++ chunk)
                               (skipn (S k) (c :: r))
                   end
               end).
  { intros d k H. rewrite (IH _ (c :: chunk) _ H).
    cbn [firstn skipn rev]. now rewrite <- !app_assoc. }
  destruct (c =? 123).
  { destruct (first_balance (depth + 1) r) as [k|] eqn:E; [|discriminate].
    intros H. injection H as <-. now apply Hrec. }
  destruct (c =? 125).
  - destruct (depth - 1 =? 0) eqn:D.
    + intros H. injection H as <-. apply Z.eqb_eq in D. rewrite D.
      reflexivity.
    + destruct (first_balance (depth - 1) r) as [k|] eqn:E; [|discriminate].
      intros H. injection H as <-. now apply Hrec.
  - destruct (first_balance depth r) as [k|] eqn:E; [|discriminate].
    intros H. injection H as <-. now apply Hrec.
Qed.

(** C3, amended. A payload that decodes to an object with a [function]
    field is recovered exactly, its [function] and [arguments] values
    included, in three placements: it is the whole trimmed output; it is
    the content of a fenced block of the output, no earlier block decoding
    to a call; or no block decodes to a call and the payload stands at the
    first occurrence of the opener, its braces (those inside string values
    included) first balanced at its end; in the last two placements
    provided the output as a whole is not itself such an object.  The
    prose around the payload is free: it may hold backticks and blocks
    that are no calls.  In particular a block that opens at the first
    fence of the output, tagged [json] in any letter case or not at all,
    with a payload that holds no fence, is in the second placement.
    Conversely, with a decoder that reads a text starting with the opener,
    when it reads it at all, as an object with the [function] field, every
    object the extractor returns is the decoding of a payload in one of
    the three placements. *)
Theorem embedded_payload_is_recovered :
  (forall (text payload : str) (obj : list (str * pyval)),
      embeds json_loads payload (strip text) ->
      json_loads payload = Some (PDict obj) ->
      dict_has obj (py "function") = true ->
      strip text = payload \/ function_object (json_loads (strip text)) = None ->
      _extract_json_call json_loads text = Some obj)
  /\ (forall pre tag ws1 body ws2 post : str,
         find fence
           (pre ++ fence ++ tag ++ ws1 ++ (123 :: body ++ [125])
                ++ ws2 ++ fence ++ post)
         = Some (length pre) ->
         tag = [] \/ (length tag = 4%nat /\ ci_starts_with (py "json") tag = true) ->
         all_space ws1 = true ->
         all_space ws2 = true ->
         find fence body = None ->
         embeds json_loads (123 :: body ++ [125])
           (pre ++ fence ++ tag ++ ws1 ++ (123 :: body ++ [125])
                ++ ws2 ++ fence ++ post))
  /\ ((forall (chunk : str) (v : pyval),
          starts_with opener chunk = true ->
          json_loads chunk = Some v ->
          function_object (Some v) <> None) ->
      forall (text : str) (obj : list (str * pyval)),
        _extract_json_call json_loads text = Some obj ->
        exists payload,
          embeds json_loads payload (strip text)
          /\ json_loads payload = Some (PDict obj)
          /\ dict_has obj (py "function") = true
          /\ (strip text = payload
              \/ function_object (json_loads (strip text)) = None)).
Proof.
  split; [|split].
  - intros text payload obj He Hp Hf Hw.
    assert (Hobj : function_object (json_loads payload) = Some obj).
    { apply function_object_some. auto. }
    unfold _extract_json_call.
    destruct Hw as [Hw | Hw]; [now rewrite Hw, Hobj|].
    rewrite Hw. remember (strip text) as s eqn:Es. clear Es text.
    destruct He as [|s earlier later Hb Hn|pre post Hn Hfind Hbal].
    + congruence.
    + rewrite Hb, (first_block_app _ _ Hn). cbn [first_block].
      assert (Hs : strip payload = payload).
      { destruct (fenced_block_shape s 0%nat payload) as [b ->];
          [rewrite Hb; apply in_elt | apply strip_braced]. }
      now rewrite Hs, Hobj.
    + rewrite (proj2 (first_block_none _) Hn), Hfind.
      rewrite skipn_app_length.
      rewrite (brace_scan_first _ 0 [] _ (first_balance_app _ post _ _ Hbal)).
      cbn [rev app]. rewrite firstn_app_length, Hp.
      change (function_object (Some (PDict obj)))
        with (if dict_has obj (py "function") then Some obj else None).
      now rewrite Hf.
  - intros pre tag ws1 body ws2 post Hfirst Ht H1 H2 Hbody.
    destruct (match_fence_found tag ws1 body ws2 post Ht H1 H2 Hbody) as [len M].
    remember (fence ++ tag ++ ws1 ++ (123 :: body ++ [125]) ++ ws2 ++ fence ++ post)
      as F eqn:EF.
    assert (Hs : exists tl, F = 96 :: tl) by (subst F; eexists; reflexivity).
    destruct Hs as [tl Hs].
    assert (B : fenced_blocks 0 (pre ++ F)
                = [] ++ (123 :: body ++ [125]) :: fenced_blocks (Nat.pred len) tl).
    { rewrite (fenced_blocks_first_fence _ _ Hfirst). rewrite Hs in *.
      cbn [fenced_blocks app]. now rewrite M. }
    exact (embeds_fence json_loads _ _ [] _ B eq_refl).
  - intros Hdec text obj. unfold _extract_json_call.
    remember (strip text) as s eqn:Es. clear Es text.
    destruct (function_object (json_loads s)) as [kv1|] eqn:E1.
    { intros H. injection H as <-. exists s.
      apply function_object_some in E1 as [E1 F1].
      repeat split; auto. apply embeds_whole. }
    destruct (first_block json_loads (fenced_blocks 0 s)) as [kv2|] eqn:E2.
    { intros H. injection H as <-.
      apply first_block_split in E2 as (earlier & g & later & Hb & Hn & Hg).
      assert (Hs : strip g = g).
      { destruct (fenced_block_shape s 0%nat g) as [b ->];
          [rewrite Hb; apply in_elt | apply strip_braced]. }
      rewrite Hs in Hg. apply function_object_some in Hg as [Hg Hf].
      exists g. split; [exact (embeds_fence json_loads g s earlier later Hb Hn)|].
      auto. }
    destruct (find opener s) as [idx|] eqn:F; [|discriminate].
    destruct (find_found _ _ _ F) as [Li So].
    destruct (first_balance 0 (skipn idx s)) as [n|] eqn:B.
    2: { rewrite (brace_scan_unbalanced _ _ _ B). discriminate. }
    rewrite (brace_scan_first _ 0 [] n B). cbn [rev app].
    destruct (first_balance_firstn _ _ _ B) as [Ln Bn].
    destruct (json_loads (firstn n (skipn idx s))) as [v|] eqn:J; [|discriminate].
    destruct (function_object (Some v)) as [kv|] eqn:Fo.
    2: { exfalso.
         exact (Hdec _ v (first_balance_past_opener _ _ So B) J Fo). }
    intros H. injection H as <-.
    apply function_object_some in Fo as [Fo Hf]. injection Fo as ->.
    assert (G : forall pre p post,
               s = pre ++ p ++ post -> length pre = idx -> length p = n ->
               first_balance 0 p = Some n -> embeds json_loads p s).
    { intros pre p post -> Lp Lq Bp. apply embeds_prose.
      - apply first_block_none, E2.
      - now rewrite Lp.
      - now rewrite Lq. }
    exists (firstn n (skipn idx s)). split; [|auto].
    apply (G (firstn idx s) _ (skipn n (skipn idx s))).
    + now rewrite !firstn_skipn.
    + now apply firstn_length_le.
    + now apply firstn_length_le.
    + exact Bn.
Qed.

(** C4. An input no piece of which decodes to an object with a
    [function] field yields no call, and the extractor never raises.
    In particular, when the first two strategies find nothing: no call
    if the bracket count never comes back to zero; no call for a decoded
    object that lacks the [function] field; and no call if the text up to
    the first point of balance does not decode, whatever follows it. *)
Theorem no_payload_no_call :
  (forall text,
      (forall sub, substring sub text -> function_object (json_loads sub) = None) ->
      _extract_json_call json_loads text = None)
  /\ (forall text,
         function_object (json_loads (strip text)) = None ->
         first_block json_loads (fenced_blocks 0 (strip text)) = None ->
         (forall idx, find opener (strip text) = Some idx ->
                      first_balance 0 (skipn idx (strip text)) = None) ->
         _extract_json_call json_loads text = None)
  /\ (forall text kv,
         json_loads (strip text) = Some (PDict kv) ->
         dict_has kv (py "function") = false ->
         no_backtick (strip text) = true ->
         find opener (strip text) = None ->
         _extract_json_call json_loads text = None)
  /\ (forall text pre chunk post,
         strip text = pre ++ chunk ++ post ->
         function_object (json_loads (strip text)) = None ->
         first_block json_loads (fenced_blocks 0 (strip text)) = None ->
         find opener (strip text) = Some (length pre) ->
         first_balance 0 (chunk ++ post) = Some (length chunk) ->
         json_loads chunk = None ->
         _extract_json_call json_loads text = None).
Proof.
  repeat split.
  - intros text H.
    destruct (_extract_json_call json_loads text) as [kv|] eqn:E; auto.
    apply extract_sound in E as [sub [Hs Hf]]. rewrite (H sub Hs) in Hf.
    discriminate.
  - intros text H1 H2 H3. unfold _extract_json_call. rewrite H1, H2.
    destruct (find opener (strip text)) as [idx|] eqn:F; auto.
    now apply brace_scan_unbalanced, H3.
  - intros text kv H1 H2 H3 H4. unfold _extract_json_call.
    rewrite H1, H4, (fenced_blocks_none _ H3). unfold function_object.
    now rewrite H2.
  - intros text pre chunk post Hs H1 H2 H3 H4 H5. unfold _extract_json_call.
    rewrite H1, H2, H3, Hs, skipn_app_length.
    rewrite (brace_scan_first _ 0 [] _ H4).
    cbn [rev app]. now rewrite firstn_app_length, H5.
Qed.

End Extractor.

(** ** The reference decoder on a text that starts with the opener *)

Lemma dict_has_set (acc : list (str * pyval)) (k key : str) (v : pyval) :
  dict_has acc k = true \/ key = k -> dict_has (dict_set acc key v) k = true.
Proof.
  unfold dict_has. induction acc as [|[k' v'] acc IH]; cbn [dict_set dict_get].
  - intros [H | ->]; [discriminate|].
    now rewrite (proj2 (str_eqb_eq k k) eq_refl).
  - intros H. destruct (str_eqb k' key) eqn:E; cbn [dict_get].
    + destruct (str_eqb k' k) eqn:E'; [reflexivity|].
      destruct H as [H | ->]; [exact H | congruence].
    + destruct (str_eqb k' k) eqn:E'; [reflexivity|].
      apply IH. exact H.
Qed.

(** The members read after a key are added to those read before it. *)
Lemma members_keeps_keys (fuel : nat) :
  forall (acc : list (str * pyval)) (s : str) (v : pyval) (rest k : str),
    Json.members fuel acc s = Some (v, rest) ->
    dict_has acc k = true ->
    exists kv, v = PDict kv /\ dict_has kv k = true.
Proof.
  induction fuel as [|n IH]; intros acc s v rest k; simpl; [discriminate|].
  destruct s as [|c r]; [discriminate|].
  destruct (c =? 34); [|discriminate].
  destruct (Json.scanstring [] r) as [[key r1]|]; [|discriminate].
  destruct (Json.skip_ws r1) as [|c2 r2]; [discriminate|].
  destruct (c2 =? 58); [|discriminate].
  destruct (Json.scan_once n (Json.skip_ws r2)) as [[v0 r3]|]; [|discriminate].
  destruct (Json.skip_ws r3) as [|c4 r4]; [discriminate|].
  destruct (c4 =? 125).
  - intros H Hk. injection H as <- <-. eexists. split; [reflexivity|].
    apply dict_has_set. now left.
  - destruct (c4 =? 44); [|discriminate].
    intros H Hk. apply (IH _ _ _ _ k H). apply dict_has_set. now left.
Qed.

Lemma scan_object_first_key (n : nat) (t : str) (v : pyval) (rest : str) :
  Json.scan_once (S (S n))
    ([123; 34; 102; 117; 110; 99; 116; 105; 111; 110; 34] ++ t) = Some (v, rest) ->
  exists kv, v = PDict kv /\ dict_has kv (py "function") = true.
Proof.
  change (py "function") with [102; 117; 110; 99; 116; 105; 111; 110].
  simpl.
  destruct (Json.skip_ws t) as [|c2 r2]; [discriminate|].
  destruct (c2 =? 58); [|discriminate].
  destruct (Json.scan_once n (Json.skip_ws r2)) as [[v0 r3]|]; [|discriminate].
  destruct (Json.skip_ws r3) as [|c4 r4]; [discriminate|].
  destruct (c4 =? 125).
  - intros H. injection H as <- <-. eexists. split; reflexivity.
  - destruct (c4 =? 44); [|discriminate].
    intros H. apply (members_keeps_keys _ _ _ _ _ _ H). reflexivity.
Qed.

(** A text that starts with the opener decodes, when it decodes, to an
    object with the [function] field. *)
Lemma json_loads_opener (chunk : str) (v : pyval) :
  starts_with opener chunk = true ->
  Json.json_loads chunk = Some v ->
  function_object (Some v) <> None.
Proof.
  intros H. apply starts_with_app in H as [t ->].
  change opener with [123; 34; 102; 117; 110; 99; 116; 105; 111; 110; 34].
  unfold Json.json_loads.
  change (Json.skip_ws ([123; 34; 102; 117; 110; 99; 116; 105; 111; 110; 34] ++ t))
    with ([123; 34; 102; 117; 110; 99; 116; 105; 111; 110; 34] ++ t).
  destruct (Json.scan_once _ _) as [[v' rest]|] eqn:S; [|discriminate].
  apply scan_object_first_key in S as [kv [-> Hk]].
  destruct (Json.skip_ws rest); [|discriminate].
  intros E. injection E as <-. unfold function_object. now rewrite Hk.
Qed.

(** ** The claims at concrete inputs *)

(** C3 as stated fails: a closing brace inside a string value ends the
    bracket count early, the text cut there does not decode, and the
    payload, though well formed, is not recovered from the prose. *)
Lemma brace_in_string_value_is_not_recovered :
  ~ wrapped_payload_is_always_recovered.
Proof.
  intros H.
  specialize (H (py "x ") (py " y")
                (pyq "{'function':'calculate','arguments':{'expression':'}'}}")
                (py "calculate") [(py "expression", PStr (py "}"))]
                eq_refl eq_refl eq_refl).
  vm_compute in H. discriminate H.
Qed.

(** C3 at the specification's example, the embedded object is extracted
    exactly; and so is a payload in prose that holds an inline backtick, in
    a block tagged in upper case, in the second block of the output, in a
    block though a string value of it holds a closing brace, and in prose
    that follows a block which is no call.  With the reference decoder,
    what the extractor returns comes from one of the three placements. *)
Lemma call_in_prose_is_recovered :
  _extract_json_call Json.json_loads
    (py "Here's the call: "
     ++ pyq "{'function':'calculate','arguments':{'expression':'2+2'}}"
     ++ py " thanks")
  = Some [(py "function", PStr (py "calculate"));
          (py "arguments", PDict [(py "expression", PStr (py "2+2"))])]
  /\ _extract_json_call Json.json_loads
       (py "Use `calculate`: " ++ call_text ++ py " ok")
     = Some call_object
  /\ _extract_json_call Json.json_loads
       (py "```JSON" ++ [10] ++ call_text ++ [10] ++ py "```")
     = Some call_object
  /\ _extract_json_call Json.json_loads
       (py "```json" ++ [10] ++ pyq "{'note': 1}" ++ [10] ++ py "```"
        ++ py " then " ++ py "```json" ++ [10] ++ call_text ++ [10] ++ py "```")
     = Some call_object
  /\ _extract_json_call Json.json_loads
       (py "x ```" ++ brace_text ++ py "``` y")
     = Some brace_object
  /\ _extract_json_call Json.json_loads
       (py "```" ++ pyq "{'a': 1}" ++ py "``` so: " ++ call_text ++ py " done")
     = Some call_object
  /\ (exists payload,
         embeds Json.json_loads payload
           (strip (py "x ```" ++ brace_text ++ py "``` y"))
         /\ Json.json_loads payload = Some (PDict brace_object)
         /\ dict_has brace_object (py "function") = true
         /\ (strip (py "x ```" ++ brace_text ++ py "``` y") = payload
             \/ function_object
                  (Json.json_loads (strip (py "x ```" ++ brace_text ++ py "``` y")))
                = None)).
Proof.
  split; [|split; [|split; [|split; [|split; [|split]]]]].
  - apply (proj1 (embedded_payload_is_recovered Json.json_loads)
             (py "Here's the call: "
              ++ pyq "{'function':'calculate','arguments':{'expression':'2+2'}}"
              ++ py " thanks")
             (pyq "{'function':'calculate','arguments':{'expression':'2+2'}}")).
    + apply (embeds_prose Json.json_loads
               (pyq "{'function':'calculate','arguments':{'expression':'2+2'}}")
               (py "Here's the call: ") (py " thanks")); by_computation.
    + by_computation.
    + by_computation.
    + right. by_computation.
  - apply (proj1 (embedded_payload_is_recovered Json.json_loads)
             (py "Use `calculate`: " ++ call_text ++ py " ok") call_text).
    + assert (E : strip (py "Use `calculate`: " ++ call_text ++ py " ok")
                  = py "Use `calculate`: " ++ call_text ++ py " ok")
        by by_computation.
      rewrite E.
      apply (embeds_prose Json.json_loads call_text
               (py "Use `calculate`: ") (py " ok")); by_computation.
    + by_computation.
    + by_computation.
    + right. by_computation.
  - apply (proj1 (embedded_payload_is_recovered Json.json_loads)
             (py "```JSON" ++ [10] ++ call_text ++ [10] ++ py "```") call_text).
    + assert (E : strip (py "```JSON" ++ [10] ++ call_text ++ [10] ++ py "```")
                  = [] ++ fence ++ py "JSON" ++ [10] ++ (123 :: call_body ++ [125])
                       ++ [10] ++ fence ++ [])
        by by_computation.
      rewrite E.
      apply (proj1 (proj2 (embedded_payload_is_recovered Json.json_loads))
               [] (py "JSON") [10] call_body [10] []);
        try by_computation.
      right. split; by_computation.
    + by_computation.
    + by_computation.
    + right. by_computation.
  - apply (proj1 (embedded_payload_is_recovered Json.json_loads)
             (py "```json" ++ [10] ++ pyq "{'note': 1}" ++ [10] ++ py "```"
              ++ py " then " ++ py "```json" ++ [10] ++ call_text ++ [10]
              ++ py "```")
             call_text).
    + apply (embeds_fence Json.json_loads call_text _ [pyq "{'note': 1}"] []);
        by_computation.
    + by_computation.
    + by_computation.
    + right. by_computation.
  - apply (proj1 (embedded_payload_is_recovered Json.json_loads)
             (py "x ```" ++ brace_text ++ py "``` y") brace_text).
    + assert (E : strip (py "x ```" ++ brace_text ++ py "``` y")
                  = py "x " ++ fence ++ [] ++ [] ++ (123 :: brace_body ++ [125])
                       ++ [] ++ fence ++ py " y")
        by by_computation.
      rewrite E.
      apply (proj1 (proj2 (embedded_payload_is_recovered Json.json_loads))
               (py "x ") [] [] brace_body [] (py " y"));
        try by_computation.
      now left.
    + by_computation.
    + by_computation.
    + right. by_computation.
  - apply (proj1 (embedded_payload_is_recovered Json.json_loads)
             (py "```" ++ pyq "{'a': 1}" ++ py "``` so: " ++ call_text
              ++ py " done")
             call_text).
    + assert (E : strip (py "```" ++ pyq "{'a': 1}" ++ py "``` so: " ++ call_text
                         ++ py " done")
                  = (py "```" ++ pyq "{'a': 1}" ++ py "``` so: ") ++ call_text
                    ++ py " done")
        by by_computation.
      rewrite E.
      apply (embeds_prose Json.json_loads call_text
               (py "```" ++ pyq "{'a': 1}" ++ py "``` so: ") (py " done"));
        by_computation.
    + by_computation.
    + by_computation.
    + right. by_computation.
  - apply (proj2 (proj2 (embedded_payload_is_recovered Json.json_loads))
             json_loads_opener).
    by_computation.
Defined.

(** C4 at a concrete input: the text up to the first point of balance is
    cut inside a string and does not decode; the well-formed call that
    follows is never looked at. *)
Lemma later_call_is_not_scanned :
  Json.json_loads (pyq "{'function':'calculate','arguments':{}}")
  = Some (PDict [(py "function", PStr (py "calculate")); (py "arguments", PDict [])])
  /\ Json.json_loads (pyq "{'function':'}") = None
  /\ _extract_json_call Json.json_loads
       (pyq "{'function':'}'} {'function':'calculate','arguments':{}}")
     = None.
Proof.
  split; [by_computation|]. split; [by_computation|].
  apply (proj2 (proj2 (proj2 (no_payload_no_call Json.json_loads)))
           (pyq "{'function':'}'} {'function':'calculate','arguments':{}}")
           [] (pyq "{'function':'}")
           (pyq "'} {'function':'calculate','arguments':{}}"));
    by_computation.
Defined.

(** C5 at the specification's example: the utterance has a weather
    keyword and still goes to [calculate]. *)
Lemma arithmetic_precedence_example :
  existsb (fun w => contains w
                      (lower plain_unicode
                         (strip (py "what is five plus three weather"))))
    weather_words = true
  /\ maybe_call_by_rules plain_unicode SympyRef.sympy_float
       (offline (py "Weather")) (offline (py "arXiv search"))
       (py "what is five plus three weather")
     = Returns
         {| calls := [(T_calculate, PStr (py "+"))];
            reply := Some (rendered (py "calculate")
                             (Tools.calculate SympyRef.sympy_float (PStr (py "+")))) |}.
Proof.
  split; [by_computation|].
  rewrite (arithmetic_rule_takes_precedence plain_unicode
             SympyRef.sympy_float (offline (py "Weather"))
             (offline (py "arXiv search"))
             (py "what is five plus three weather")) by by_computation.
  by_computation.
Defined.

(** C7 at a concrete pair of outputs. *)
Lemma recent_papers_example :
  try_route_llm_function_call Json.json_loads SympyRef.sympy_float
    (offline (py "Weather")) (offline (py "arXiv search"))
    (pyq "{'function':'recent_papers','arguments':{'query':'llm agents'}}")
  = try_route_llm_function_call Json.json_loads SympyRef.sympy_float
      (offline (py "Weather")) (offline (py "arXiv search"))
      (pyq "{'function':'search_arxiv','arguments':{'query':'llm agents'}}")
  /\ try_route_llm_function_call Json.json_loads SympyRef.sympy_float
       (offline (py "Weather")) (offline (py "arXiv search"))
       (pyq "{'function':'recent_papers','arguments':{'query':'llm agents'}}")
     = Returns
         {| calls := [(T_search_arxiv, PStr (py "llm agents"))];
            reply := Some (rendered (py "search_arxiv")
                             (offline (py "arXiv search") (PStr (py "llm agents")))) |}.
Proof.
  apply (alias_routes_as_search_arxiv Json.json_loads SympyRef.sympy_float
           (offline (py "Weather")) (offline (py "arXiv search"))
           (py "recent_papers") [(py "query", PStr (py "llm agents"))]
           (pyq "{'function':'recent_papers','arguments':{'query':'llm agents'}}")
           (pyq "{'function':'search_arxiv','arguments':{'query':'llm agents'}}")
           [(py "function", PStr (py "recent_papers"));
            (py "arguments", PDict [(py "query", PStr (py "llm agents"))])]
           [(py "function", PStr (py "search_arxiv"));
            (py "arguments", PDict [(py "query", PStr (py "llm agents"))])]);
    try by_computation.
  left. reflexivity.
Defined.

(** C8 at a concrete output. *)
Lemma unknown_function_example :
  try_route_llm_function_call Json.json_loads SympyRef.sympy_float
    (offline (py "Weather")) (offline (py "arXiv search"))
    (pyq "{'function':'play_music','arguments':{'title':'x'}}")
  = Returns {| calls := [];
               reply := Some (py "Error: Unknown function 'play_music'") |}.
Proof.
  apply (unknown_function_reply Json.json_loads SympyRef.sympy_float
           (offline (py "Weather")) (offline (py "arXiv search"))
           (pyq "{'function':'play_music','arguments':{'title':'x'}}")
           [(py "function", PStr (py "play_music"));
            (py "arguments", PDict [(py "title", PStr (py "x"))])]
           (py "play_music")); by_computation.
Defined.

(** C10 as stated fails: a digit next to a parenthesis leaves no operator
    in the normalized text, and the literature rule takes the utterance. *)
Lemma digit_beside_parenthesis_goes_to_search :
  ~ digit_beside_symbol_routes_to_calculate.
Proof.
  intros H.
  destruct (H (py "papers (2024)") 40) as [a [r E]];
    [vm_compute; tauto | by_computation |].
  vm_compute in E. discriminate E.
Qed.

(** C10 at the hyphenated noun: [calculate("-19")], although the
    utterance has a literature keyword. *)
Lemma hyphenated_noun_example :
  existsb (fun w => contains w
                      (lower plain_unicode (strip (py "papers on covid-19"))))
    arxiv_words = true
  /\ maybe_call_by_rules plain_unicode SympyRef.sympy_float
       (offline (py "Weather")) (offline (py "arXiv search"))
       (py "papers on covid-19")
     = Returns {| calls := [(T_calculate, PStr (py "-19"))];
                  reply := Some (py "-19") |}.
Proof.
  split; [by_computation|].
  rewrite (operator_character_routes_to_calculate plain_unicode
             SympyRef.sympy_float (offline (py "Weather"))
             (offline (py "arXiv search"))
             (py "papers on covid-19")) by by_computation.
  by_computation.
Defined.

(** ** The formats of [calculate] *)

Lemma uint_digits_are_digits (d : Decimal.uint) :
  forallb is_ascii_digit (uint_digits d) = true.
Proof. induction d; simpl; auto. Qed.

Lemma digit_not_point (c : Z) : is_ascii_digit c = true -> (46 =? c) = false.
Proof.
  unfold is_ascii_digit, in_range. intros H.
  apply andb_true_iff in H as [H _]. apply Z.leb_le in H.
  apply Z.eqb_neq. lia.
Qed.

Lemma existsb_rev_str (p : Z -> bool) (s : str) :
  existsb p (rev s) = existsb p s.
Proof.
  induction s as [|c s IH]; [reflexivity|].
  cbn [rev existsb]. rewrite existsb_app, IH. cbn [existsb].
  rewrite orb_false_r. apply orb_comm.
Qed.

Lemma digits_no_point (s : str) :
  forallb is_ascii_digit s = true -> existsb (Z.eqb 46) s = false.
Proof.
  induction s as [|c s IH]; cbn [forallb existsb]; auto.
  intros H. apply andb_true_iff in H as [Hc H].
  now rewrite (digit_not_point _ Hc), IH.
Qed.

Lemma str_of_int_no_point (n : Z) : existsb (Z.eqb 46) (str_of_int n) = false.
Proof.
  destruct n; cbn [str_of_int existsb]; auto;
    try change (46 =? 45) with false; cbn [orb];
    apply digits_no_point, uint_digits_are_digits.
Qed.

Lemma format_cents_two_decimals (neg : bool) (n : Z) :
  two_decimals (format_cents neg n) = true.
Proof.
  unfold two_decimals, format_cents.
  rewrite !rev_app_distr. cbn [rev app].
  assert (Ha : 0 <= (n mod 100) / 10 <= 9).
  { pose proof (Z.mod_pos_bound n 100 eq_refl). split.
    - apply Z.div_pos; lia.
    - apply Z.lt_succ_r, Z.div_lt_upper_bound; lia. }
  assert (Hb : 0 <= (n mod 100) mod 10 <= 9).
  { pose proof (Z.mod_pos_bound (n mod 100) 10 eq_refl). lia. }
  assert (D : forall x, 0 <= x <= 9 -> is_ascii_digit (48 + x) = true).
  { intros x Hx. unfold is_ascii_digit, in_range.
    apply andb_true_iff. split; apply Z.leb_le; lia. }
  rewrite (D _ Ha), (D _ Hb). cbn [andb Z.eqb Pos.eqb].
  apply negb_true_iff.
  rewrite existsb_app, !existsb_rev_str, str_of_int_no_point.
  now destruct neg.
Qed.

Lemma pow_max_pos (b n : Z) : 0 < b -> 0 < b ^ Z.max 0 n.
Proof. intros H. apply Z.pow_pos_nonneg; lia. Qed.

(** A decimal that [repr] can pick is not above the midpoint between the
    float and its successor. *)
Lemma r_try_upper (m : positive) (e k c : Z) :
  r_try m e k = Some c ->
  0 <= c /\ r_cand e k c <= r_bound e k (r_hi m).
Proof.
  unfold r_try.
  set (below := r_bound e k (r_mid m) / r_cand e k 1).
  assert (Hb : 0 <= below).
  { apply Z.div_pos.
    - unfold r_bound, r_mid, r_num2.
      pose proof (pow_max_pos 2 (e - 2) eq_refl).
      pose proof (pow_max_pos 10 (- k) eq_refl). nia.
    - unfold r_cand, r_den2.
      pose proof (pow_max_pos 2 (2 - e) eq_refl).
      pose proof (pow_max_pos 10 k eq_refl). nia. }
  assert (Hin : forall x, r_inside m e k x = true ->
                          r_cand e k x <= r_bound e k (r_hi m)).
  { intros x. unfold r_inside. destruct (Z.even (Z.pos m)); intros H;
      apply andb_true_iff in H as [_ H];
      [apply Z.leb_le in H | apply Z.ltb_lt in H]; lia. }
  destruct ((0 <? below) && r_inside m e k below) eqn:E1;
    destruct (r_inside m e k (below + 1)) eqn:E2; cbn [andb];
    try discriminate.
  - apply andb_true_iff in E1 as [_ E1].
    destruct (_ ?= _); [destruct (Z.even below)| |];
      intros H; injection H as <-; split; auto; lia.
  - intros H. injection H as <-. apply andb_true_iff in E1 as [_ E1].
    split; auto.
  - intros H. injection H as <-. split; [lia | auto].
Qed.

Lemma r_search_upper (m : positive) (e : Z) :
  e < 0 ->
  forall (fuel : nat) (k : Z),
    0 <= fst (r_search m e fuel k)
    /\ r_cand e (snd (r_search m e fuel k)) (fst (r_search m e fuel k))
       <= r_bound e (snd (r_search m e fuel k)) (r_hi m).
Proof.
  intros He. induction fuel as [|n IH]; intros k; cbn [r_search].
  - destruct (0 <=? e) eqn:E; [apply Z.leb_le in E; lia|].
    cbn [fst snd]. unfold r_cand, r_bound, r_hi, r_den2, r_num2.
    rewrite (Z.max_l 0 e), (Z.max_r 0 (2 - e)), (Z.max_l 0 (e - 2)),
      (Z.max_r 0 (- e)) by lia.
    replace (2 - e) with (2 + - e) by lia.
    rewrite Z.pow_add_r by lia.
    replace (10 ^ (- e)) with (2 ^ (- e) * 5 ^ (- e))
      by (rewrite <- Z.pow_mul_l; reflexivity).
    assert (0 < 2 ^ (- e)) by (apply Z.pow_pos_nonneg; lia).
    assert (0 < 5 ^ (- e)) by (apply Z.pow_pos_nonneg; lia).
    change (10 ^ 0) with 1. change (2 ^ 0) with 1. change (2 ^ 2) with 4.
    set (a := 2 ^ (- e)) in *. set (b := 5 ^ (- e)) in *.
    split; nia.
  - destruct (r_try m e k) as [c|] eqn:T.
    + cbn [fst snd]. now apply r_try_upper.
    + apply IH.
Qed.

Lemma digits2_pos_bound (m : positive) : Zpos m < 2 ^ Zpos (digits2_pos m).
Proof.
  induction m as [m IH|m IH|]; cbn [digits2_pos].
  - rewrite Pos2Z.inj_succ, Z.pow_succ_r by lia. lia.
  - rewrite Pos2Z.inj_succ, Z.pow_succ_r by lia. lia.
  - reflexivity.
Qed.

Lemma valid_mantissa_bound (s : bool) (m : positive) (e : Z) :
  valid_binary prec emax (S754_finite s m e) = true -> Zpos m < 2 ^ 53.
Proof.
  cbn [valid_binary]. unfold bounded, canonical_mantissa, fexp, emin, prec, emax.
  intros H. apply andb_true_iff in H as [H _]. apply Z.eqb_eq in H.
  pose proof (digits2_pos_bound m) as B.
  assert (D : Zpos (digits2_pos m) <= 53) by lia.
  apply Z.lt_le_trans with (1 := B). apply Z.pow_le_mono_r; lia.
Qed.

(** For a float with a fraction the quantize step stays within the
    precision of the decimal context, and its result is the half-up
    rounding of the decimal that [repr] spells. *)
Lemma quantize_repr_digits (neg : bool) (m : positive) (e : Z) :
  e < 0 -> Zpos m < 2 ^ 53 ->
  exists n,
    quantize_cents {| d_neg := neg;
                      d_coef := fst (repr_digits m e);
                      d_exp := snd (repr_digits m e) |} = Returns n
    /\ half_up_cents (fst (repr_digits m e)) (snd (repr_digits m e)) n.
Proof.
  intros He Hm. unfold repr_digits.
  destruct (r_search_upper m e He
              (S (Z.to_nat (Z.max 0 (Z.pos (digits2_pos m) + e) - Z.min e 0)))
              (Z.max 0 (Z.pos (digits2_pos m) + e))) as [Hc Hu].
  set (ck := r_search m e _ _) in *.
  destruct ck as [c k]. cbn [fst snd] in *.
  unfold r_cand, r_bound, r_hi, r_den2, r_num2 in Hu.
  rewrite (Z.max_r 0 (2 - e)), (Z.max_l 0 (e - 2)) in Hu by lia.
  change (2 ^ 0) with 1 in Hu.
  replace (2 - e) with (3 + (- e - 1)) in Hu by lia.
  rewrite Z.pow_add_r in Hu by lia. change (2 ^ 3) with 8 in Hu.
  assert (P : 0 < 2 ^ (- e - 1)) by (apply Z.pow_pos_nonneg; lia).
  assert (A : 0 < 10 ^ Z.max 0 k) by now apply pow_max_pos.
  assert (B : 0 < 10 ^ Z.max 0 (- k)) by now apply pow_max_pos.
  assert (Hcap : c * 10 ^ Z.max 0 k < 2 ^ 53 * 10 ^ Z.max 0 (- k)).
  { assert (c * 10 ^ Z.max 0 k * 8 <= c * 10 ^ Z.max 0 k * (8 * 2 ^ (- e - 1))) by nia.
    change (2 ^ 53) with 9007199254740992 in *. nia. }
  unfold quantize_cents, half_up_cents. cbn [d_coef d_exp].
  destruct (0 <=? k + 2) eqn:K.
  - apply Z.leb_le in K. exists (c * 10 ^ (k + 2)).
    rewrite (Z.max_l 0 (- (k + 2))), (Z.max_r 0 (k + 2)) by lia.
    change (10 ^ 0) with 1.
    assert (N : c * 10 ^ (k + 2) < 10 ^ 28).
    { assert (k = -2 \/ k = -1 \/ 0 <= k) as [-> | [-> | K0]] by lia.
      - change (10 ^ Z.max 0 (-2)) with 1 in Hcap.
        change (10 ^ Z.max 0 (- -2)) with 100 in Hcap.
        change (10 ^ (-2 + 2)) with 1.
        change (2 ^ 53) with 9007199254740992 in Hcap.
        change (10 ^ 28) with 10000000000000000000000000000. lia.
      - change (10 ^ Z.max 0 (-1)) with 1 in Hcap.
        change (10 ^ Z.max 0 (- -1)) with 10 in Hcap.
        change (10 ^ (-1 + 2)) with 10.
        change (2 ^ 53) with 9007199254740992 in Hcap.
        change (10 ^ 28) with 10000000000000000000000000000. lia.
      - rewrite (Z.max_r 0 k), (Z.max_l 0 (- k)) in Hcap by lia.
        rewrite Z.pow_add_r by lia. change (10 ^ 0) with 1 in Hcap.
        change (10 ^ 2) with 100. change (2 ^ 53) with 9007199254740992 in *.
        change (10 ^ 28) with 10000000000000000000000000000. lia. }
    apply Z.leb_gt in N. rewrite N. split; [reflexivity | lia].
  - apply Z.leb_gt in K.
    rewrite (Z.max_r 0 (- (k + 2))), (Z.max_l 0 (k + 2)) by lia.
    change (10 ^ 0) with 1.
    rewrite (Z.max_l 0 k), (Z.max_r 0 (- k)) in Hcap by lia.
    change (10 ^ 0) with 1 in Hcap.
    set (den := 10 ^ (- (k + 2))) in *.
    assert (Hden : 0 < den) by (apply Z.pow_pos_nonneg; lia).
    assert (Hk : 10 ^ (- k) = den * 100).
    { unfold den. replace (- k) with (- (k + 2) + 2) by lia.
      rewrite Z.pow_add_r by lia. reflexivity. }
    rewrite Hk in Hcap.
    pose proof (Z.div_mod c den ltac:(lia)) as DM.
    pose proof (Z.mod_pos_bound c den Hden) as MB.
    set (q := c / den) in *. set (r := c mod den) in *.
    assert (Q : q < 2 ^ 53 * 100).
    { change (2 ^ 53) with 9007199254740992 in *. nia. }
    exists (if den <=? 2 * r then q + 1 else q).
    assert (N : (if den <=? 2 * r then q + 1 else q) < 10 ^ 28).
    { change (2 ^ 53) with 9007199254740992 in Q.
      change (10 ^ 28) with 10000000000000000000000000000.
      destruct (den <=? 2 * r); lia. }
    apply Z.leb_gt in N. rewrite N. split; [reflexivity|].
    destruct (den <=? 2 * r) eqn:R;
      [apply Z.leb_le in R | apply Z.leb_gt in R]; nia.
Qed.

(** *** Integers convert to floats exactly *)

Lemma shr_1_even (w : Z) :
  shr_1 {| shr_m := 2 * w; shr_r := false; shr_s := false |}
  = {| shr_m := w; shr_r := false; shr_s := false |}.
Proof. destruct w; reflexivity. Qed.

Lemma iter_shr_exact (p : positive) :
  forall z,
    iter_pos shr_1 p {| shr_m := z * 2 ^ Zpos p; shr_r := false; shr_s := false |}
    = {| shr_m := z; shr_r := false; shr_s := false |}.
Proof.
  induction p as [p IH|p IH|]; intros z; cbn [iter_pos].
  - replace (z * 2 ^ Zpos p~1) with (2 * ((z * 2 ^ Zpos p) * 2 ^ Zpos p)).
    + now rewrite shr_1_even, !IH.
    + replace (Zpos p~1) with (Zpos p + Zpos p + 1) by lia.
      rewrite !Z.pow_add_r by lia. change (2 ^ 1) with 2. ring.
  - replace (z * 2 ^ Zpos p~0) with ((z * 2 ^ Zpos p) * 2 ^ Zpos p).
    + now rewrite !IH.
    + replace (Zpos p~0) with (Zpos p + Zpos p) by lia.
      rewrite !Z.pow_add_r by lia. ring.
  - change (2 ^ 1) with 2. rewrite Z.mul_comm. apply shr_1_even.
Qed.

Lemma pos_iter_xO_value (m p : positive) :
  Zpos (Pos.iter xO m p) = Zpos m * 2 ^ Zpos p.
Proof.
  rewrite (Pos.iter_swap_gen _ _ Zpos xO (Z.mul 2)) by reflexivity.
  change (Pos.iter (Z.mul 2) (Zpos m) p) with (Z.shiftl (Zpos m) (Zpos p)).
  apply Z.shiftl_mul_pow2. lia.
Qed.

Lemma pos_iter_xO_digits (m p : positive) :
  Zpos (digits2_pos (Pos.iter xO m p)) = Zpos (digits2_pos m) + Zpos p.
Proof.
  rewrite (Pos.iter_swap_gen _ _ digits2_pos xO Pos.succ) by reflexivity.
  induction p as [|p IH] using Pos.peano_ind.
  - cbn [Pos.iter]. lia.
  - rewrite Pos.iter_succ. lia.
Qed.

Lemma canonical_exponent (m : positive) (e : Z) :
  bounded prec emax m e = true ->
  fexp prec emax (Zpos (digits2_pos m) + e) = e /\ (e <=? emax - prec) = true.
Proof.
  unfold bounded, canonical_mantissa. intros H.
  apply andb_true_iff in H as [H1 H2]. apply Z.eqb_eq in H1. auto.
Qed.

Lemma round_aux_canonical (s : bool) (m : positive) (e : Z) :
  bounded prec emax m e = true ->
  binary_round_aux prec emax s (Zpos m) e loc_Exact = S754_finite s m e.
Proof.
  intros H. destruct (canonical_exponent m e H) as [Hf He].
  unfold binary_round_aux, shr_fexp. cbn [Zdigits2 shr_record_of_loc].
  rewrite Hf, Z.sub_diag. cbn [shr shr_m loc_of_shr_record round_nearest_even].
  cbn [Zdigits2 shr_record_of_loc].
  rewrite Hf, Z.sub_diag. cbn [shr shr_m]. now rewrite He.
Qed.

Lemma binary_round_shl (s : bool) (m p : positive) :
  bounded prec emax m (Zpos p) = true ->
  binary_round prec emax s (Pos.iter xO m p) 0 = S754_finite s m (Zpos p).
Proof.
  intros H. destruct (canonical_exponent m _ H) as [Hf He].
  unfold binary_round. rewrite Z.add_0_r, pos_iter_xO_digits, Hf.
  unfold shl_align. cbn [Z.sub Z.opp Z.add].
  unfold binary_round_aux at 1. unfold shr_fexp at 1.
  cbn [Zdigits2 shr_record_of_loc].
  rewrite Z.add_0_r, pos_iter_xO_digits, Hf. cbn [Z.sub Z.opp Z.add shr].
  rewrite pos_iter_xO_value, iter_shr_exact.
  cbn [shr_m loc_of_shr_record round_nearest_even].
  unfold shr_fexp. cbn [Zdigits2 shr_record_of_loc].
  rewrite Hf, Z.sub_diag. cbn [shr shr_m]. now rewrite He.
Qed.

Lemma binary_round_shr (s : bool) (a p : positive) :
  bounded prec emax (Pos.iter xO a p) (Zneg p) = true ->
  binary_round prec emax s a 0 = S754_finite s (Pos.iter xO a p) (Zneg p).
Proof.
  intros H. destruct (canonical_exponent _ _ H) as [Hf He].
  rewrite pos_iter_xO_digits in Hf.
  unfold binary_round. rewrite Z.add_0_r.
  replace (Zpos (digits2_pos a)) with (Zpos (digits2_pos a) + Zpos p + Zneg p) by lia.
  rewrite Hf. unfold shl_align. cbn [Z.sub Z.opp Z.add].
  now apply round_aux_canonical.
Qed.

Lemma binary_round_zero_exp (s : bool) (m : positive) :
  bounded prec emax m 0 = true ->
  binary_round prec emax s m 0 = S754_finite s m 0.
Proof.
  intros H. destruct (canonical_exponent _ _ H) as [Hf He].
  unfold binary_round. rewrite Hf. unfold shl_align. cbn [Z.sub Z.opp Z.add].
  now apply round_aux_canonical.
Qed.

Lemma float_of_int_signed (s : bool) (a : positive) :
  float_of_int (cond_Zopp s (Zpos a)) = binary_round prec emax s a 0.
Proof. destruct s; reflexivity. Qed.

Lemma float_sub_self (s : bool) (m : positive) (e : Z) :
  float_sub (S754_finite s m e) (S754_finite s m e) = S754_zero false.
Proof.
  unfold float_sub, SFsub. now rewrite Z.sub_diag.
Qed.

(** A valid float with an integer value lies at distance zero from
    [round(f)]. *)
Lemma integer_is_near (f : float) :
  valid_binary prec emax f = true ->
  is_integer_valued f = true ->
  exists r, py_round f = Returns r /\ near_integer f r = true.
Proof.
  destruct f as [s|s| |s m e]; try discriminate.
  - intros _ _. exists 0. split; [reflexivity|]. now destruct s.
  - cbn [valid_binary is_integer_valued]. intros Hv Hi.
    assert (E : exists r, py_round (S754_finite s m e) = Returns r
                          /\ float_of_int r = S754_finite s m e).
    { unfold py_round. destruct e as [|p|p].
      - cbn [Z.leb Z.compare]. change (2 ^ 0) with 1. rewrite Z.mul_1_r.
        exists (cond_Zopp s (Zpos m)). split; [now destruct s|].
        rewrite float_of_int_signed. now apply binary_round_zero_exp.
      - cbn [Z.leb Z.compare]. rewrite <- pos_iter_xO_value.
        exists (cond_Zopp s (Zpos (Pos.iter xO m p))). split; [now destruct s|].
        rewrite float_of_int_signed. now apply binary_round_shl.
      - cbn [Z.leb Z.compare orb Z.opp] in Hi |- *. apply Z.eqb_eq in Hi.
        assert (P : 0 < 2 ^ Zpos p) by (apply Z.pow_pos_nonneg; lia).
        pose proof (Z.div_mod (Zpos m) (2 ^ Zpos p) ltac:(lia)) as DM.
        rewrite Hi, Z.add_0_r in DM.
        destruct (Zpos m / 2 ^ Zpos p) as [|a|a] eqn:Q; try lia.
        assert (M : m = Pos.iter xO a p).
        { apply Pos2Z.inj. rewrite pos_iter_xO_value. lia. }
        rewrite Hi. replace (2 * 0 ?= 2 ^ Zpos p) with Lt
          by (symmetry; apply Z.compare_lt_iff; lia).
        exists (cond_Zopp s (Zpos a)). split; [now destruct s|].
        rewrite float_of_int_signed, M. apply binary_round_shr. now rewrite <- M. }
    destruct E as [r [Hr Hf]]. exists r. split; [exact Hr|].
    unfold near_integer. rewrite Hf, float_sub_self. reflexivity.
Qed.

Section CalculateFormat.

Variable sympy_float : pyval -> py_result float.

Lemma calculate_near_integer (expression : pyval) (f : float) (r : Z) :
  sympy_float expression = Returns f ->
  py_round f = Returns r ->
  near_integer f r = true ->
  Tools.calculate sympy_float expression
  = {| ok := true; content := str_of_int r |}.
Proof.
  intros Hs Hr Hn. unfold Tools.calculate, calculate_try.
  rewrite Hs. cbn [bind]. rewrite Hr. cbn [bind].
  unfold near_integer in Hn. now rewrite Hn.
Qed.

Lemma calculate_fraction (expression : pyval) (s : bool) (m : positive) (e r : Z) :
  sympy_float expression = Returns (S754_finite s m e) ->
  valid_binary prec emax (S754_finite s m e) = true ->
  e < 0 ->
  py_round (S754_finite s m e) = Returns r ->
  near_integer (S754_finite s m e) r = false ->
  exists n,
    half_up_cents (fst (repr_digits m e)) (snd (repr_digits m e)) n
    /\ Tools.calculate sympy_float expression
       = {| ok := true;
            content := if str_eqb (format_cents s n) (py "-0.00")
                       then py "0.00" else format_cents s n |}.
Proof.
  intros Hs Hv He Hr Hn.
  destruct (quantize_repr_digits s m e He (valid_mantissa_bound s m e Hv))
    as [n [Hq Hh]].
  exists n. split; [exact Hh|].
  unfold Tools.calculate, calculate_try.
  rewrite Hs. cbn [bind]. rewrite Hr. cbn [bind].
  unfold near_integer in Hn. rewrite Hn.
  unfold decimal_of_float_str.
  destruct (repr_digits m e) as [c k]. cbn [fst snd] in Hq.
  cbn [bind]. rewrite Hq. reflexivity.
Qed.

(** C6, amended. An integer-valued result, and any result within [1e-12]
    of an integer, is rendered as that integer, with no decimal point.  Any other result (a binary64
    number with a fraction) is rendered with exactly two decimal places,
    the half-up rounding of the decimal its [repr] spells, and a rendering
    ["-0.00"] is replaced by ["0.00"].  [calculate("1/3")] is ["0.33"],
    [calculate("4/2")] is ["2"], [calculate("0/-1")] is ["0"] and
    [calculate("-1/1000")] is ["0.00"]. *)
Theorem calculate_formats :
  (forall expression f,
      sympy_float expression = Returns f ->
      valid_binary prec emax f = true ->
      is_integer_valued f = true ->
      exists r,
        py_round f = Returns r
        /\ Tools.calculate sympy_float expression
           = {| ok := true; content := str_of_int r |}
        /\ no_decimal_point (str_of_int r) = true)
  /\ (forall expression f r,
         sympy_float expression = Returns f ->
         py_round f = Returns r ->
         near_integer f r = true ->
         Tools.calculate sympy_float expression
         = {| ok := true; content := str_of_int r |}
         /\ no_decimal_point (str_of_int r) = true)
  /\ (forall expression s m e r,
         sympy_float expression = Returns (S754_finite s m e) ->
         valid_binary prec emax (S754_finite s m e) = true ->
         e < 0 ->
         py_round (S754_finite s m e) = Returns r ->
         near_integer (S754_finite s m e) r = false ->
         exists n,
           half_up_cents (fst (repr_digits m e)) (snd (repr_digits m e)) n
           /\ Tools.calculate sympy_float expression
              = {| ok := true;
                   content := if str_eqb (format_cents s n) (py "-0.00")
                              then py "0.00" else format_cents s n |}
           /\ two_decimals (content (Tools.calculate sympy_float expression)) = true
           /\ content (Tools.calculate sympy_float expression) <> py "-0.00")
  /\ Tools.calculate SympyRef.sympy_float (PStr (py "1/3"))
     = {| ok := true; content := py "0.33" |}
  /\ Tools.calculate SympyRef.sympy_float (PStr (py "4/2"))
     = {| ok := true; content := py "2" |}
  /\ Tools.calculate SympyRef.sympy_float (PStr (py "0/-1"))
     = {| ok := true; content := py "0" |}
  /\ Tools.calculate SympyRef.sympy_float (PStr (py "-1/1000"))
     = {| ok := true; content := py "0.00" |}.
Proof.
  split; [|split; [|split; [|repeat split; by_computation]]].
  - intros expression f Hs Hv Hi.
    destruct (integer_is_near f Hv Hi) as [r [Hr Hn]]. exists r.
    split; [exact Hr|]. split.
    + now apply calculate_near_integer with f.
    + unfold no_decimal_point. now rewrite str_of_int_no_point.
  - intros expression f r Hs Hr Hn. split.
    + now apply calculate_near_integer with f.
    + unfold no_decimal_point. now rewrite str_of_int_no_point.
  - intros expression s m e r Hs Hv He Hr Hn.
    destruct (calculate_fraction expression s m e r Hs Hv He Hr Hn) as [n [Hh Hc]].
    exists n. split; [exact Hh|]. split; [exact Hc|]. rewrite Hc. cbn [content].
    destruct (str_eqb (format_cents s n) (py "-0.00")) eqn:E.
    + split; [reflexivity | discriminate].
    + split; [apply format_cents_two_decimals | now apply str_eqb_neq].
Qed.

End CalculateFormat.

(** C6 as stated fails: [1/10000000000000] has a fraction, lies within
    [1e-12] of zero and is rendered ["0"], without decimal places. *)
Lemma tiny_fraction_renders_as_integer : ~ fractions_render_two_decimals.
Proof.
  intros H.
  assert (E : SympyRef.sympy_float (PStr (py "1/10000000000000"))
              = Returns (S754_finite false 7922816251426434 (-96)))
    by by_computation.
  assert (F : has_fraction (S754_finite false 7922816251426434 (-96)) = true)
    by by_computation.
  specialize (H _ _ E F). vm_compute in H. discriminate H.
Qed.

(** C6 at [1/3]: a fraction, rendered with two decimal places. *)
Lemma one_third_example :
  exists n,
    half_up_cents (fst (repr_digits 6004799503160661%positive (-54)))
      (snd (repr_digits 6004799503160661%positive (-54))) n
    /\ Tools.calculate SympyRef.sympy_float (PStr (py "1/3"))
       = {| ok := true;
            content := if str_eqb (format_cents false n) (py "-0.00")
                       then py "0.00" else format_cents false n |}
    /\ two_decimals
         (content (Tools.calculate SympyRef.sympy_float (PStr (py "1/3")))) = true
    /\ content (Tools.calculate SympyRef.sympy_float (PStr (py "1/3"))) <> py "-0.00".
Proof.
  apply (proj1 (proj2 (proj2 (calculate_formats SympyRef.sympy_float)))
           (PStr (py "1/3")) false 6004799503160661%positive (-54) 0);
    by_computation.
Defined.

(** * Further properties of the router *)

(** ** The alphabet of the normalizer's output *)

Lemma collapse_runs_incl (c x : Z) (s : str) :
  In x (collapse_runs c s) -> In x s.
Proof.
  induction s as [|a s IH]; [auto|].
  cbn [collapse_runs]. destruct s as [|b s'].
  - auto.
  - destruct ((a =? c) && (b =? c)).
    + intros H. right. now apply IH.
    + intros [<- | H]; [now left | right; now apply IH].
Qed.

Lemma replace_go_incl (old new : str) (x : Z) (s : str) :
  forall skip, In x (replace_go old new skip s) -> In x new \/ In x s.
Proof.
  induction s as [|a s IH]; intros skip; cbn [replace_go]; [auto|].
  destruct skip as [|n].
  - destruct (starts_with old (a :: s)).
    + intros H. apply in_app_or in H as [H | H]; [now left|].
      apply IH in H as [H | H]; [now left | right; now right].
    + intros [<- | H]; [right; now left|].
      apply IH in H as [H | H]; [now left | right; now right].
  - intros H. apply IH in H as [H | H]; [now left | right; now right].
Qed.

Lemma expr_char_not_space_is_symbol (c : Z) :
  is_expr_char c = true -> is_space c = false -> is_symbol_char c = true.
Proof.
  unfold is_expr_char, is_symbol_char. intros H Hs.
  rewrite Hs, orb_false_r in H. exact H.
Qed.

(** The steps of the normalizer that follow the substitutions. *)
Lemma cleanup_alphabet (s0 : str) (x : Z) :
  In x (replace [42; 42; 43] [42; 42]
          (collapse_runs 47
             (collapse_runs 45
                (collapse_runs 43
                   (filter (fun c => negb (is_space c))
                      (map (fun c => if is_expr_char c then c else 32) s0)))))) ->
  is_symbol_char x = true.
Proof.
  unfold replace. intros Hx.
  apply replace_go_incl in Hx as [Hx | Hx].
  { destruct Hx as [<- | [<- | []]]; reflexivity. }
  do 3 apply collapse_runs_incl in Hx.
  apply filter_In in Hx as [Hx Hs]. apply negb_true_iff in Hs.
  apply in_map_iff in Hx as [y [Hy _]].
  apply expr_char_not_space_is_symbol; [|exact Hs].
  subst x. destruct (is_expr_char y) eqn:E; [exact E | reflexivity].
Qed.

(** X1. Whatever the utterance, the normalized text consists of digits,
    decimal points, [+ - * / %] and parentheses only: no letter, no white
    space, no other character survives. *)
Theorem normalizer_output_alphabet (U : unicode_db) (q : str) :
  forallb is_symbol_char (text_to_math_expr U q) = true.
Proof.
  unfold text_to_math_expr. cbv zeta.
  set (s0 := fold_left _ noise _).
  change (py "**+") with [42; 42; 43]. change (py "**") with [42; 42].
  apply forallb_forall. intros x Hx. exact (cleanup_alphabet s0 x Hx).
Qed.

(** ** No doubled operators *)

Lemma collapse_runs_head (c y : Z) (t : str) :
  exists r, collapse_runs c (y :: t) = y :: r.
Proof.
  revert y. induction t as [|z t IH]; intros y; cbn [collapse_runs].
  - now exists [].
  - destruct ((y =? c) && (z =? c)) eqn:E.
    + apply andb_true_iff in E as [Ey Ez].
      apply Z.eqb_eq in Ey, Ez. subst. apply IH.
    + eexists. reflexivity.
Qed.

Lemma no_double_cons (c x y : Z) (r : str) :
  no_double c (x :: y :: r) = negb ((x =? c) && (y =? c)) && no_double c (y :: r).
Proof. reflexivity. Qed.

Lemma no_double_tail (c x : Z) (s : str) :
  no_double c (x :: s) = true -> no_double c s = true.
Proof.
  destruct s as [|y r]; [reflexivity|]. rewrite no_double_cons.
  intros H. now apply andb_true_iff in H as [_ H].
Qed.

Lemma collapse_runs_no_double (c : Z) (s : str) :
  no_double c (collapse_runs c s) = true.
Proof.
  induction s as [|x s IH]; [reflexivity|].
  cbn [collapse_runs]. destruct s as [|y t]; [reflexivity|].
  destruct ((x =? c) && (y =? c)) eqn:E; [exact IH|].
  destruct (collapse_runs_head c y t) as [r Hr]. rewrite Hr in *.
  rewrite no_double_cons, E. exact IH.
Qed.

Lemma collapse_runs_keeps_no_double (c d : Z) (s : str) :
  c <> d -> no_double c s = true -> no_double c (collapse_runs d s) = true.
Proof.
  intros Hcd. induction s as [|x s IH]; [reflexivity|].
  cbn [collapse_runs]. destruct s as [|y t]; [reflexivity|].
  rewrite no_double_cons. intros H. apply andb_true_iff in H as [Hxy H].
  destruct ((x =? d) && (y =? d)); [now apply IH|].
  destruct (collapse_runs_head d y t) as [r Hr]. rewrite Hr in *.
  rewrite no_double_cons, Hxy. now apply IH.
Qed.

Lemma replace_go_skip (old new : str) (n : nat) :
  forall s, replace_go old new n s = replace_go old new 0 (skipn n s).
Proof.
  induction n as [|n IH]; intros s; [reflexivity|].
  destruct s as [|c s]; [reflexivity|]. cbn [replace_go skipn]. apply IH.
Qed.

Lemma no_double_skipn (c : Z) (n : nat) :
  forall s, no_double c s = true -> no_double c (skipn n s) = true.
Proof.
  induction n as [|n IH]; intros s H; [exact H|].
  destruct s as [|x s]; [reflexivity|]. cbn [skipn].
  apply IH. now apply no_double_tail in H.
Qed.

(** Dropping the [+] of a [**+] joins a [*] with what followed the [+]:
    no doubled [+], [-] or [/] can arise. *)
Lemma replace_star_plus_no_double (c : Z) :
  c <> 42 ->
  forall (n : nat) (s : str),
    (length s <= n)%nat ->
    no_double c s = true ->
    no_double c (replace_go [42; 42; 43] [42; 42] 0 s) = true.
Proof.
  intros Hc. apply Z.eqb_neq in Hc. rewrite Z.eqb_sym in Hc.
  induction n as [|n IH]; intros s Hlen Hs.
  - destruct s; [reflexivity | cbn [length] in Hlen; lia].
  - destruct s as [|x s']; [reflexivity|]. cbn [replace_go].
    destruct (starts_with [42; 42; 43] (x :: s')) eqn:M.
    + apply starts_with_app in M as [rest M]. injection M as -> ->.
      cbn [length Nat.pred app]. rewrite replace_go_skip. cbn [skipn].
      assert (Hr : no_double c (replace_go [42; 42; 43] [42; 42] 0 rest) = true).
      { apply IH; [cbn [length] in Hlen; lia|].
        now apply (no_double_skipn c 3) in Hs. }
      rewrite no_double_cons, Hc. cbn [andb negb].
      destruct (replace_go [42; 42; 43] [42; 42] 0 rest) as [|h t] eqn:E;
        [reflexivity|].
      rewrite no_double_cons, Hc. exact Hr.
    + assert (Hr : no_double c (replace_go [42; 42; 43] [42; 42] 0 s') = true).
      { apply IH; [cbn [length] in Hlen; lia | now apply no_double_tail in Hs]. }
      destruct s' as [|y t]; [reflexivity|].
      rewrite no_double_cons in Hs. apply andb_true_iff in Hs as [Hxy _].
      cbn [replace_go] in *.
      destruct (starts_with [42; 42; 43] (y :: t)).
      * cbn [app] in *. rewrite no_double_cons.
        rewrite Hc, andb_false_r. exact Hr.
      * rewrite no_double_cons, Hxy. exact Hr.
Qed.

(** X2. The final cleanup holds for every utterance: the normalized text
    never has two [+], two [-] or two [/] in a row. *)
Theorem normalizer_merges_doubled_operators (U : unicode_db) (q : str) :
  no_double 43 (text_to_math_expr U q) = true
  /\ no_double 45 (text_to_math_expr U q) = true
  /\ no_double 47 (text_to_math_expr U q) = true.
Proof.
  unfold text_to_math_expr, replace.
  change (py "**+") with [42; 42; 43]. change (py "**") with [42; 42]. cbv iota.
  set (s := filter _ _).
  assert (H43 : 43 <> 42) by discriminate.
  assert (H45 : 45 <> 42) by discriminate.
  assert (H47 : 47 <> 42) by discriminate.
  split; [|split];
    [apply (replace_star_plus_no_double 43 H43 _ _ (le_n _))
    |apply (replace_star_plus_no_double 45 H45 _ _ (le_n _))
    |apply (replace_star_plus_no_double 47 H47 _ _ (le_n _))].
  - do 2 (apply collapse_runs_keeps_no_double; [discriminate|]).
    apply collapse_runs_no_double.
  - apply collapse_runs_keeps_no_double; [discriminate|].
    apply collapse_runs_no_double.
  - apply collapse_runs_no_double.
Qed.

(** ** Symbolic expressions are fixed points *)

Lemma symbol_char_range (c : Z) : is_symbol_char c = true -> 37 <= c <= 57.
Proof.
  unfold is_symbol_char, is_ascii_digit, in_range.
  repeat rewrite orb_true_iff. rewrite andb_true_iff.
  repeat rewrite Z.eqb_eq. rewrite !Z.leb_le. lia.
Qed.

Lemma symbol_char_not_space (c : Z) : is_symbol_char c = true -> is_space c = false.
Proof.
  intros H. apply symbol_char_range in H. unfold is_space, in_range.
  repeat rewrite orb_false_iff. repeat rewrite andb_false_iff.
  repeat rewrite Z.eqb_neq. rewrite !Z.leb_gt. lia.
Qed.

Lemma symbol_char_is_expr_char (c : Z) : is_symbol_char c = true -> is_expr_char c = true.
Proof.
  unfold is_symbol_char, is_expr_char. intros ->. reflexivity.
Qed.

Lemma lower_from_symbols (U : unicode_db) (whole : str) (s : str) :
  forallb is_symbol_char s = true ->
  forall i, lower_from U whole i s = s.
Proof.
  induction s as [|c s IH]; intros H i; [reflexivity|].
  cbn [forallb] in H. apply andb_true_iff in H as [Hc H].
  cbn [lower_from]. rewrite (IH H). apply symbol_char_range in Hc.
  unfold lower_char, is_ascii_upper, in_range.
  replace (c <? 128) with true by (symmetry; apply Z.ltb_lt; lia).
  replace (65 <=? c) with false by (symmetry; apply Z.leb_gt; lia).
  reflexivity.
Qed.

(** A key whose first character is no symbol character. *)
Lemma re_sub_word_go_symbols (U : unicode_db) (k0 : Z) (k v : str) (s : str) :
  ~ 37 <= k0 <= 57 ->
  forallb is_symbol_char s = true ->
  forall prev, re_sub_word_go U (k0 :: k) v prev 0 s = s.
Proof.
  intros Hk. induction s as [|c s IH]; intros H prev; [reflexivity|].
  cbn [forallb] in H. apply andb_true_iff in H as [Hc H].
  cbn [re_sub_word_go]. unfold word_match, starts_with.
  apply symbol_char_range in Hc.
  replace (k0 =? c) with false by (symmetry; apply Z.eqb_neq; lia).
  cbn [andb]. now rewrite IH.
Qed.

Lemma re_sub_word_symbols (U : unicode_db) (k v s : str) :
  match k with
  | [] => true
  | k0 :: _ => negb (in_range 37 57 k0)
  end = true ->
  forallb is_symbol_char s = true ->
  re_sub_word U k v s = s.
Proof.
  destruct k as [|k0 k]; [reflexivity|]. intros Hk Hs.
  apply re_sub_word_go_symbols; [|exact Hs].
  apply negb_true_iff in Hk. unfold in_range in Hk.
  apply andb_false_iff in Hk. rewrite !Z.leb_gt in Hk. lia.
Qed.

Lemma fold_re_sub_word_symbols (U : unicode_db) {A : Type}
    (key value : A -> str) (l : list A) (s : str) :
  forallb (fun a => match key a with
                    | [] => true
                    | k0 :: _ => negb (in_range 37 57 k0)
                    end) l = true ->
  forallb is_symbol_char s = true ->
  fold_left (fun s a => re_sub_word U (key a) (value a) s) l s = s.
Proof.
  intros Hl Hs. induction l as [|a l IH]; [reflexivity|].
  cbn [forallb] in Hl. apply andb_true_iff in Hl as [Ha Hl].
  cbn [fold_left]. rewrite (re_sub_word_symbols U _ _ _ Ha Hs). now apply IH.
Qed.

Lemma map_keep_symbols (s : str) :
  forallb is_symbol_char s = true ->
  map (fun c => if is_expr_char c then c else 32) s = s.
Proof.
  induction s as [|c s IH]; [reflexivity|]. cbn [forallb map].
  intros H. apply andb_true_iff in H as [Hc H].
  now rewrite (symbol_char_is_expr_char _ Hc), IH.
Qed.

Lemma filter_keep_symbols (s : str) :
  forallb is_symbol_char s = true ->
  filter (fun c => negb (is_space c)) s = s.
Proof.
  induction s as [|c s IH]; [reflexivity|]. cbn [forallb filter].
  intros H. apply andb_true_iff in H as [Hc H].
  now rewrite (symbol_char_not_space _ Hc), IH.
Qed.

Lemma collapse_runs_fixed (c : Z) (s : str) :
  no_double c s = true -> collapse_runs c s = s.
Proof.
  induction s as [|x s IH]; [reflexivity|].
  destruct s as [|y t]; [reflexivity|].
  rewrite no_double_cons. intros H. apply andb_true_iff in H as [Hxy H].
  apply negb_true_iff in Hxy.
  change (collapse_runs c (x :: y :: t))
    with (if (x =? c) && (y =? c) then collapse_runs c (y :: t)
          else x :: collapse_runs c (y :: t)).
  now rewrite Hxy, IH.
Qed.

Lemma replace_go_fixed (old new : str) (s : str) :
  contains old s = false -> replace_go old new 0 s = s.
Proof.
  induction s as [|x s IH]; [reflexivity|].
  cbn [contains replace_go]. intros H. apply orb_false_iff in H as [H1 H2].
  now rewrite H1, IH.
Qed.

Lemma strip_no_spaces (s : str) :
  forallb (fun c => negb (is_space c)) s = true -> strip s = s.
Proof.
  intros H.
  assert (L : forall t, forallb (fun c => negb (is_space c)) t = true -> lstrip t = t).
  { intros [|c t] Ht; [reflexivity|]. cbn [forallb] in Ht.
    apply andb_true_iff in Ht as [Hc _]. apply negb_true_iff in Hc.
    cbn [lstrip]. now rewrite Hc. }
  unfold strip, rstrip. rewrite (L s H), L; [apply rev_involutive|].
  apply forallb_forall. intros x Hx. apply in_rev in Hx.
  rewrite forallb_forall in H. now apply H.
Qed.

Section SymbolicInput.

Variable U : unicode_db.
Variable sympy_float : pyval -> py_result float.
Variables get_weather search_arxiv : pyval -> ToolResult.

(** X3. An utterance that is already a symbolic expression (digits,
    decimal points, [+ - * / %] and parentheses only, no doubled [+], [-]
    or [/] and no [**+]) passes the normalizer unchanged; and if it has an
    operator the rule-based fallback hands it to [calculate] verbatim. *)
Theorem symbolic_expression_passes_unchanged (q : str) :
  forallb is_symbol_char q = true ->
  no_double 43 q = true ->
  no_double 45 q = true ->
  no_double 47 q = true ->
  contains (py "**+") q = false ->
  text_to_math_expr U q = q
  /\ (existsb is_arith_char q = true ->
      maybe_call_by_rules U sympy_float get_weather search_arxiv q
      = Returns {| calls := [(T_calculate, PStr q)];
                   reply := Some (rendered (py "calculate")
                                    (Tools.calculate sympy_float (PStr q))) |}).
Proof.
  intros Hs H43 H45 H47 Hpp.
  assert (E : text_to_math_expr U q = q).
  { unfold text_to_math_expr, lower.
    rewrite (lower_from_symbols U q q Hs).
    rewrite (fold_re_sub_word_symbols U fst snd replacements q) by
      (exact Hs || by_computation).
    rewrite (fold_re_sub_word_symbols U fst snd single_words q) by
      (exact Hs || by_computation).
    rewrite (fold_re_sub_word_symbols U (fun k => k) (fun _ => py " ") noise q) by
      (exact Hs || by_computation).
    rewrite (map_keep_symbols q Hs), (filter_keep_symbols q Hs).
    rewrite (collapse_runs_fixed 43 q H43), (collapse_runs_fixed 45 q H45),
      (collapse_runs_fixed 47 q H47).
    unfold replace. change (py "**+") with [42; 42; 43] in *. cbv iota.
    now apply replace_go_fixed. }
  split; [exact E|]. intros Ha.
  assert (St : strip q = q).
  { apply strip_no_spaces. apply forallb_forall. intros x Hx.
    rewrite forallb_forall in Hs. apply negb_true_iff.
    now apply symbol_char_not_space, Hs. }
  rewrite (rules_calculate U sympy_float get_weather search_arxiv q);
    rewrite St, E; [reflexivity|].
  now apply has_arith_existsb.
Qed.

End SymbolicInput.

Lemma symbolic_expression_example :
  text_to_math_expr plain_unicode (py "(12.5-3)*4/2%5**2") = py "(12.5-3)*4/2%5**2"
  /\ (existsb is_arith_char (py "(12.5-3)*4/2%5**2") = true ->
      maybe_call_by_rules plain_unicode SympyRef.sympy_float
        (offline (py "Weather")) (offline (py "arXiv search"))
        (py "(12.5-3)*4/2%5**2")
      = Returns {| calls := [(T_calculate, PStr (py "(12.5-3)*4/2%5**2"))];
                   reply := Some (rendered (py "calculate")
                                    (Tools.calculate SympyRef.sympy_float
                                       (PStr (py "(12.5-3)*4/2%5**2")))) |}).
Proof.
  apply (symbolic_expression_passes_unchanged plain_unicode SympyRef.sympy_float
           (offline (py "Weather")) (offline (py "arXiv search"))
           (py "(12.5-3)*4/2%5**2")); by_computation.
Defined.

(** ** Dispatch of an extracted call *)

Section Dispatch.

Variable json_loads : str -> option pyval.
Variable sympy_float : pyval -> py_result float.
Variables get_weather search_arxiv : pyval -> ToolResult.


Lemma tool_named_name (name : str) (t : tool) :
  tool_named name = Some t -> name = tool_name t.
Proof.
  unfold tool_named.
  destruct (str_eqb name (py "get_weather")) eqn:E1;
    [apply str_eqb_eq in E1; intros H; injection H as <-; exact E1|].
  destruct (str_eqb name (py "calculate")) eqn:E2;
    [apply str_eqb_eq in E2; intros H; injection H as <-; exact E2|].
  destruct (str_eqb name (py "search_arxiv")) eqn:E3;
    [apply str_eqb_eq in E3; intros H; injection H as <-; exact E3|].
  discriminate.
Qed.

Lemma dispatch_tool (name : str) (t : tool) (A : list (str * pyval)) :
  tool_named name = Some t ->
  dispatch sympy_float get_weather search_arxiv (PStr name) (PDict A)
  = Returns {| calls := [(t, get_or_empty A (argument_key t))];
               reply := Some (rendered (tool_name t)
                                (run_tool sympy_float get_weather search_arxiv t
                                   (get_or_empty A (argument_key t)))) |}.
Proof.
  intros H. apply tool_named_name in H. subst name. destruct t; reflexivity.
Qed.

Lemma dispatch_tool_no_object (name : str) (t : tool) (v : pyval) :
  tool_named name = Some t ->
  is_dict v = false ->
  dispatch sympy_float get_weather search_arxiv (PStr name) v
  = Raises (py "AttributeError")
      (py "'" ++ type_name v ++ py "' object has no attribute 'get'").
Proof.
  intros H Hv. apply tool_named_name in H. subst name.
  destruct v; try discriminate Hv; destruct t; reflexivity.
Qed.

Lemma dispatch_single_call (func args : pyval) (o : outcome) :
  dispatch sympy_float get_weather search_arxiv func args = Returns o ->
  single_call o /\ reply o <> None.
Proof.
  unfold dispatch, single_call.
  repeat match goal with
         | |- context [if ?b then _ else _] => destruct b
         end;
    try (destruct (args_get args _); cbn [bind]; [|discriminate]);
    intros H; injection H as <-; cbn [calls reply length];
    repeat split; try discriminate; lia.
Qed.

Lemma route_replies_when_extracted (llm_output : str) (o : outcome) :
  _extract_json_call json_loads llm_output <> None ->
  try_route_llm_function_call json_loads sympy_float get_weather search_arxiv
    llm_output = Returns o ->
  reply o <> None.
Proof.
  intros E H.
  destruct (_extract_json_call json_loads llm_output) as [obj|] eqn:E';
    [clear E | now contradiction E].
  destruct (extract_sound _ _ _ E') as [sub [_ F]].
  apply function_object_some in F as [_ F]. unfold dict_has in F.
  destruct (dict_get obj (py "function")) as [func|] eqn:G; [|discriminate F].
  rewrite (route_extracted json_loads sympy_float get_weather search_arxiv E' G) in H.
  destruct (aliases_get func) as [f|]; cbn [bind] in H; [|discriminate H].
  destruct (dispatch _ _ _ _ _) as [o'|] eqn:D.
  - injection H as <-. now apply dispatch_single_call in D.
  - injection H as <-. discriminate.
Qed.

(** X4. The router answers "no call" exactly when the extractor finds
    nothing: once an object is extracted the step either replies or
    raises, it never falls through to the rules. *)
Theorem no_call_exactly_when_nothing_extracted (llm_output : str) :
  try_route_llm_function_call json_loads sympy_float get_weather search_arxiv
    llm_output = Returns {| calls := []; reply := None |}
  <-> _extract_json_call json_loads llm_output = None.
Proof.
  split.
  - intros H.
    destruct (_extract_json_call json_loads llm_output) as [obj|] eqn:E;
      [|reflexivity].
    assert (E' : _extract_json_call json_loads llm_output <> None)
      by (rewrite E; discriminate).
    now destruct (route_replies_when_extracted _ _ E' H).
  - intros E. unfold try_route_llm_function_call. now rewrite E.
Qed.

(** X5. When the extracted object has no [arguments] field, or one that
    is empty ([null], [{}], [""], [0], [[]], [false]), a registered tool
    is invoked with the empty string as its argument. *)
Theorem missing_arguments_default_to_empty_string
    (llm_output : str) (obj : list (str * pyval)) (name : str) (t : tool) :
  _extract_json_call json_loads llm_output = Some obj ->
  dict_get obj (py "function") = Some (PStr name) ->
  tool_named (resolve name) = Some t ->
  match dict_get obj (py "arguments") with
  | Some v => truthy v = false
  | None => True
  end ->
  try_route_llm_function_call json_loads sympy_float get_weather search_arxiv
    llm_output
  = Returns {| calls := [(t, PStr [])];
               reply := Some (rendered (tool_name t)
                                (run_tool sympy_float get_weather search_arxiv t
                                   (PStr []))) |}.
Proof.
  intros E G T Ha.
  rewrite (route_extracted json_loads sympy_float get_weather search_arxiv E G).
  rewrite aliases_get_resolve. cbn [bind].
  assert (Hargs : match dict_get obj (py "arguments") with
                  | Some v => if truthy v then v else PDict []
                  | None => PDict []
                  end = PDict []).
  { destruct (dict_get obj (py "arguments")) as [v|]; [now rewrite Ha | reflexivity]. }
  rewrite Hargs, (dispatch_tool _ _ [] T). reflexivity.
Qed.

(** X6. When the [arguments] value of a call to a registered tool is not
    an object (a bare string, a number, a list), no tool is invoked and
    the reply reports the failed lookup. *)
Theorem non_object_arguments_are_reported
    (llm_output : str) (obj : list (str * pyval)) (name : str) (t : tool)
    (v : pyval) :
  _extract_json_call json_loads llm_output = Some obj ->
  dict_get obj (py "function") = Some (PStr name) ->
  tool_named (resolve name) = Some t ->
  dict_get obj (py "arguments") = Some v ->
  truthy v = true ->
  is_dict v = false ->
  try_route_llm_function_call json_loads sympy_float get_weather search_arxiv
    llm_output
  = Returns {| calls := [];
               reply := Some (py "Error: Could not process function call. Details: '"
                              ++ type_name v
                              ++ py "' object has no attribute 'get'") |}.
Proof.
  intros E G T Ha Hv Hd.
  rewrite (route_extracted json_loads sympy_float get_weather search_arxiv E G).
  rewrite aliases_get_resolve. cbn [bind].
  rewrite Ha, Hv, (dispatch_tool_no_object _ _ _ T Hd). by_computation.
Qed.

(** X8. The tools advertised to the model are the tools the router
    dispatches: a name is in [TOOL_SPECS] exactly when it is registered;
    every alias stands for an advertised tool and is not itself the name
    of one; what a tool requires is among its declared arguments; and for
    a call to an advertised tool with an arguments object [A] the router
    reads the one argument the specification declares and invokes that
    tool on it. *)
Theorem advertised_tools_are_dispatched :
  (forall name, In name (map fst TOOL_SPECS) <-> registered name = true)
  /\ (forall name,
         In name (map fst ALIASES) ->
         In (resolve name) (map fst TOOL_SPECS)
         /\ ~ In name (map fst TOOL_SPECS))
  /\ (forall name spec,
         In (name, spec) TOOL_SPECS ->
         incl (required spec) (map fst (arguments spec)))
  /\ (forall name spec llm_output obj A,
         In (name, spec) TOOL_SPECS ->
         _extract_json_call json_loads llm_output = Some obj ->
         dict_get obj (py "function") = Some (PStr name) ->
         dict_get obj (py "arguments") = Some (PDict A) ->
         exists t key,
           tool_named name = Some t
           /\ map fst (arguments spec) = [key]
           /\ try_route_llm_function_call json_loads sympy_float get_weather search_arxiv
    llm_output
              = Returns {| calls := [(t, get_or_empty A key)];
                           reply := Some (rendered name
                                            (run_tool sympy_float get_weather
                                               search_arxiv t
                                               (get_or_empty A key))) |}).
Proof.
  split; [|split; [|split]].
  - intros name. unfold registered. rewrite !orb_true_iff, !str_eqb_eq.
    cbn [TOOL_SPECS map fst In]. intuition congruence.
  - intros name [<- | [<- | [<- | [<- | []]]]];
      (split; [left; reflexivity | vm_compute; intuition discriminate]).
  - intros name spec [H | [H | [H | []]]]; injection H as <- <-;
      cbn [required arguments map fst]; auto using incl_refl, incl_nil_l.
  - intros name spec llm_output obj A Hin E G Ha.
    rewrite (route_extracted json_loads sympy_float get_weather search_arxiv E G).
    rewrite aliases_get_resolve, Ha. cbn [bind].
    assert (Hargs : (if truthy (PDict A) then PDict A else PDict []) = PDict A)
      by (destruct A; reflexivity).
    rewrite Hargs.
    destruct Hin as [H | [H | [H | []]]]; injection H as <- <-.
    + exists T_search_arxiv, (py "query"). repeat split.
    + exists T_calculate, (py "expression"). repeat split.
    + exists T_get_weather, (py "location"). repeat split.
Qed.

End Dispatch.

Section SingleCall.

Variable U : unicode_db.
Variable json_loads : str -> option pyval.
Variable sympy_float : pyval -> py_result float.
Variables get_weather search_arxiv : pyval -> ToolResult.

Lemma route_single_call (llm_output : str) (o : outcome) :
  try_route_llm_function_call json_loads sympy_float get_weather search_arxiv
    llm_output = Returns o ->
  single_call o.
Proof.
  unfold try_route_llm_function_call.
  destruct (_extract_json_call json_loads llm_output) as [[|kv obj]|];
    try (intros H; injection H as <-; split; [cbn; lia | reflexivity]).
  destruct (aliases_get _) as [f|]; cbn [bind]; [|discriminate].
  destruct (dispatch _ _ _ _ _) as [o'|] eqn:D.
  - intros H. injection H as <-. now apply dispatch_single_call in D.
  - intros H. injection H as <-. split; [cbn; lia | discriminate].
Qed.

Lemma rules_single_call (user_text : str) (o : outcome) :
  maybe_call_by_rules U sympy_float get_weather search_arxiv user_text = Returns o ->
  single_call o.
Proof.
  unfold maybe_call_by_rules.
  repeat match goal with
         | |- context [if ?b then _ else _] => destruct b
         end;
    intros H; injection H as <-; split; cbn [calls reply length];
    try discriminate; try reflexivity; lia.
Qed.

(** X7. A routing step, of the model output or by the rules, invokes at
    most one tool, and none when it gives no reply. *)
Theorem routing_step_invokes_at_most_one_tool :
  (forall llm_output o,
      try_route_llm_function_call json_loads sympy_float get_weather search_arxiv
        llm_output = Returns o ->
      single_call o)
  /\ (forall user_text o,
         maybe_call_by_rules U sympy_float get_weather search_arxiv user_text
         = Returns o ->
         single_call o).
Proof.
  split; [exact route_single_call | exact rules_single_call].
Qed.

End SingleCall.

Lemma missing_arguments_example :
  try_route_llm_function_call Json.json_loads SympyRef.sympy_float
    (offline (py "Weather")) (offline (py "arXiv search"))
    (pyq "{'function': 'get_weather'}")
  = Returns {| calls := [(T_get_weather, PStr [])];
               reply := Some (rendered (py "get_weather")
                                (offline (py "Weather") (PStr []))) |}.
Proof.
  apply (missing_arguments_default_to_empty_string Json.json_loads
           SympyRef.sympy_float (offline (py "Weather"))
           (offline (py "arXiv search"))
           (pyq "{'function': 'get_weather'}")
           [(py "function", PStr (py "get_weather"))]
           (py "get_weather") T_get_weather); by_computation.
Defined.

Lemma string_arguments_example :
  try_route_llm_function_call Json.json_loads SympyRef.sympy_float
    (offline (py "Weather")) (offline (py "arXiv search"))
    (pyq "{'function': 'calculate', 'arguments': '2+2'}")
  = Returns {| calls := [];
               reply := Some (py "Error: Could not process function call. Details: 'str' object has no attribute 'get'") |}.
Proof.
  rewrite (non_object_arguments_are_reported Json.json_loads
             SympyRef.sympy_float (offline (py "Weather"))
             (offline (py "arXiv search"))
             (pyq "{'function': 'calculate', 'arguments': '2+2'}")
             [(py "function", PStr (py "calculate"));
              (py "arguments", PStr (py "2+2"))]
             (py "calculate") T_calculate (PStr (py "2+2"))) by by_computation.
  by_computation.
Defined.

(** * The tools that query a service *)

Lemma lstrip_head_not_space (c : Z) (s : str) :
  is_space c = false -> lstrip (c :: s) = c :: s.
Proof. intros H. cbn [lstrip]. now rewrite H. Qed.

Lemma lstrip_app_keeps (a b : str) (c : Z) :
  is_space c = false -> exists x, lstrip (b ++ c :: a) = x ++ c :: a.
Proof.
  intros Hc. induction b as [|y b IH].
  - exists []. now apply lstrip_head_not_space.
  - cbn [app lstrip]. destruct (is_space y); [exact IH|].
    now exists (y :: b).
Qed.

(** Stripping a text keeps a prefix that begins and ends with characters
    that are no white space. *)
Lemma strip_keeps_prefix (c d : Z) (a b : str) :
  is_space c = false -> is_space d = false ->
  starts_with (c :: a ++ [d]) (strip ((c :: a ++ [d]) ++ b)) = true.
Proof.
  intros Hc Hd. unfold strip, rstrip.
  change ((c :: a ++ [d]) ++ b) with (c :: (a ++ [d]) ++ b).
  rewrite (lstrip_head_not_space _ _ Hc).
  change (c :: (a ++ [d]) ++ b) with ((c :: a ++ [d]) ++ b).
  rewrite rev_app_distr.
  replace (rev (c :: a ++ [d])) with (d :: rev (c :: a))
    by (change (c :: a ++ [d]) with ((c :: a) ++ [d]); now rewrite rev_app_distr).
  destruct (lstrip_app_keeps (rev (c :: a)) (rev b) d Hd) as [x ->].
  rewrite rev_app_distr.
  replace (rev (d :: rev (c :: a))) with (c :: a ++ [d])
    by (cbn [rev]; now rewrite rev_app_distr, rev_involutive).
  apply starts_with_self_app.
Qed.

Lemma papers_of_length (entries : list Services.entry) (papers : list Services.paper) :
  Services.papers_of entries = Returns papers -> length papers = length entries.
Proof.
  revert papers. induction entries as [|e entries IH]; intros papers; cbn.
  - intros H. now injection H as <-.
  - destruct (Services.paper_of_entry e) as [p|]; cbn [bind]; [|discriminate].
    destruct (Services.papers_of entries) as [ps|]; cbn [bind]; [|discriminate].
    intros H. injection H as <-. cbn [length]. now rewrite (IH ps).
Qed.

Section ArxivSearch.

Variable arxiv_api : str -> py_result (list Services.entry).

(** X9. A successful search reports what the service returned: the query
    was a string that is not blank, the service answered the stripped
    query with at least one entry, every entry was read, and the reply
    starts with the header that counts them: [Found N papers for 'q':],
    [N] being the number of entries of the feed. *)
Theorem search_success_counts_the_entries (query : pyval) :
  ok (Services.search_arxiv arxiv_api query) = true ->
  exists q entries papers,
    Services.py_strip query = Returns q
    /\ q <> []
    /\ arxiv_api q = Returns entries
    /\ Services.papers_of entries = Returns papers
    /\ (0 < length entries)%nat
    /\ content (Services.search_arxiv arxiv_api query)
       = strip (py "Found " ++ str_of_int (Z.of_nat (length entries))
                ++ py " papers for '" ++ q ++ py "':" ++ Services.nl ++ Services.nl
                ++ Services.listing 1 papers)
    /\ starts_with
         (py "Found " ++ str_of_int (Z.of_nat (length entries))
          ++ py " papers for '" ++ q ++ py "':")
         (content (Services.search_arxiv arxiv_api query)) = true.
Proof.
  unfold Services.search_arxiv, Services.search_arxiv_try.
  destruct (Services.py_strip query) as [q|] eqn:Q; cbn [bind]; [|discriminate].
  destruct (str_eqb q []) eqn:E; [discriminate|].
  destruct (arxiv_api q) as [entries|] eqn:A; cbn [bind]; [|discriminate].
  destruct (Services.papers_of entries) as [papers|] eqn:P; cbn [bind];
    [|discriminate].
  destruct papers as [|p ps] eqn:Ps; [discriminate|]. rewrite <- Ps in *.
  intros _. cbn [content]. exists q, entries, papers.
  rewrite (papers_of_length _ _ P).
  assert (L : (0 < length entries)%nat).
  { rewrite <- (papers_of_length _ _ P), Ps. cbn [length]. lia. }
  repeat split; auto.
  - now apply str_eqb_neq.
  - change (py "Found ") with (70 :: py "ound ").
    change (py "':") with (py "'" ++ [58]).
    set (n := str_of_int _).
    replace ((70 :: py "ound ") ++ n ++ py " papers for '" ++ q
             ++ (py "'" ++ [58]) ++ Services.nl ++ Services.nl
             ++ Services.listing 1 papers)
      with ((70 :: (py "ound " ++ n ++ py " papers for '" ++ q ++ py "'") ++ [58])
            ++ Services.nl ++ Services.nl ++ Services.listing 1 papers)
      by (cbn [app]; now rewrite <- !app_assoc).
    replace ((70 :: py "ound ") ++ n ++ py " papers for '" ++ q ++ py "'" ++ [58])
      with (70 :: (py "ound " ++ n ++ py " papers for '" ++ q ++ py "'") ++ [58])
      by (cbn [app]; now rewrite <- !app_assoc).
    now apply strip_keeps_prefix.
Qed.

Lemma search_blank_query (q : str) :
  strip q = [] ->
  Services.search_arxiv arxiv_api (PStr q)
  = {| ok := false;
       content := py "Please provide a search query for arXiv papers." |}.
Proof.
  intros Hq. unfold Services.search_arxiv, Services.search_arxiv_try.
  cbn [Services.py_strip bind]. now rewrite Hq.
Qed.

Lemma search_no_string (v : pyval) :
  is_str v = false ->
  Services.search_arxiv arxiv_api v
  = {| ok := false;
       content := py "arXiv search error: '" ++ type_name v
                  ++ py "' object has no attribute 'strip'" |}.
Proof.
  intros Hv. unfold Services.search_arxiv, Services.search_arxiv_try.
  destruct v; try discriminate Hv; by_computation.
Qed.

Variable json_loads : str -> option pyval.
Variable sympy_float : pyval -> py_result float.
Variable get_weather : pyval -> ToolResult.

(** X10. A call to [search_arxiv], under its own name or an alias,
    whose arguments hold no usable query: when the query is missing,
    empty or only white space, the reply asks for a query and the service
    is not consulted, whatever it would return; when the query is no
    string, the reply reports the error of the search. *)
Theorem search_call_without_usable_query
    (llm_output : str) (obj A : list (str * pyval)) (name : str) :
  _extract_json_call json_loads llm_output = Some obj ->
  dict_get obj (py "function") = Some (PStr name) ->
  resolve name = py "search_arxiv" ->
  effective_arguments obj = PDict A ->
  (forall q,
      get_or_empty A (py "query") = PStr q ->
      strip q = [] ->
      try_route_llm_function_call json_loads sympy_float get_weather
        (Services.search_arxiv arxiv_api) llm_output
      = Returns
          {| calls := [(T_search_arxiv, PStr q)];
             reply := Some (py "Error from search_arxiv: Please provide a search query for arXiv papers.") |})
  /\ (forall v,
         get_or_empty A (py "query") = v ->
         is_str v = false ->
         try_route_llm_function_call json_loads sympy_float get_weather
           (Services.search_arxiv arxiv_api) llm_output
         = Returns
             {| calls := [(T_search_arxiv, v)];
                reply := Some (py "Error from search_arxiv: arXiv search error: '"
                               ++ type_name v
                               ++ py "' object has no attribute 'strip'") |}).
Proof.
  intros E G R Ha.
  assert (D : try_route_llm_function_call json_loads sympy_float get_weather
                (Services.search_arxiv arxiv_api) llm_output
              = Returns
                  {| calls := [(T_search_arxiv, get_or_empty A (py "query"))];
                     reply := Some (rendered (py "search_arxiv")
                                      (Services.search_arxiv arxiv_api
                                         (get_or_empty A (py "query")))) |}).
  { rewrite (route_extracted json_loads sympy_float get_weather
               (Services.search_arxiv arxiv_api) E G).
    rewrite aliases_get_resolve, R. cbn [bind].
    unfold effective_arguments in Ha. rewrite Ha.
    now rewrite (dispatch_tool sympy_float get_weather
                   (Services.search_arxiv arxiv_api)
                   (py "search_arxiv") T_search_arxiv A eq_refl). }
  split.
  - intros q Hq Hs. rewrite D, Hq, (search_blank_query q Hs). by_computation.
  - intros v <- Hv. rewrite D, (search_no_string _ Hv). by_computation.
Qed.

End ArxivSearch.

Lemma search_call_example :
  (forall q,
      get_or_empty [(py "topic", PStr (py "llm agents"))] (py "query") = PStr q ->
      strip q = [] ->
      try_route_llm_function_call Json.json_loads SympyRef.sympy_float
        (offline (py "Weather")) (Services.search_arxiv sample_feed)
        (pyq "{'function': 'recent_papers', 'arguments': {'topic': 'llm agents'}}")
      = Returns
          {| calls := [(T_search_arxiv, PStr q)];
             reply := Some (py "Error from search_arxiv: Please provide a search query for arXiv papers.") |})
  /\ (forall v,
         get_or_empty [(py "topic", PStr (py "llm agents"))] (py "query") = v ->
         is_str v = false ->
         try_route_llm_function_call Json.json_loads SympyRef.sympy_float
           (offline (py "Weather")) (Services.search_arxiv sample_feed)
           (pyq "{'function': 'recent_papers', 'arguments': {'topic': 'llm agents'}}")
         = Returns
             {| calls := [(T_search_arxiv, v)];
                reply := Some (py "Error from search_arxiv: arXiv search error: '"
                               ++ type_name v
                               ++ py "' object has no attribute 'strip'") |}).
Proof.
  apply (search_call_without_usable_query sample_feed Json.json_loads
           SympyRef.sympy_float (offline (py "Weather"))
           (pyq "{'function': 'recent_papers', 'arguments': {'topic': 'llm agents'}}")
           [(py "function", PStr (py "recent_papers"));
            (py "arguments", PDict [(py "topic", PStr (py "llm agents"))])]
           [(py "topic", PStr (py "llm agents"))]
           (py "recent_papers")); by_computation.
Defined.


Lemma search_success_example :
  exists q entries papers,
    Services.py_strip (PStr (py " routing ")) = Returns q
    /\ q <> []
    /\ sample_feed q = Returns entries
    /\ Services.papers_of entries = Returns papers
    /\ (0 < length entries)%nat
    /\ content (Services.search_arxiv sample_feed (PStr (py " routing ")))
       = strip (py "Found " ++ str_of_int (Z.of_nat (length entries))
                ++ py " papers for '" ++ q ++ py "':" ++ Services.nl ++ Services.nl
                ++ Services.listing 1 papers)
    /\ starts_with
         (py "Found " ++ str_of_int (Z.of_nat (length entries))
          ++ py " papers for '" ++ q ++ py "':")
         (content (Services.search_arxiv sample_feed (PStr (py " routing "))))
       = true.
Proof.
  apply (search_success_counts_the_entries sample_feed (PStr (py " routing "))).
  by_computation.
Defined.

Lemma papers_of_raises (entries : list Services.entry) (e : Services.entry) :
  In e entries ->
  (exists exc msg, Services.paper_of_entry e = Raises exc msg) ->
  exists exc msg, Services.papers_of entries = Raises exc msg.
Proof.
  intros Hin [exc [msg He]]. induction entries as [|e' entries IH]; [destruct Hin|].
  cbn [Services.papers_of].
  destruct (Services.paper_of_entry e') as [p|exc' msg'] eqn:E; cbn [bind];
    [|now exists exc', msg'].
  destruct Hin as [-> | Hin]; [congruence|].
  destruct (IH Hin) as [exc'' [msg'' ->]]. now exists exc'', msg''.
Qed.

Section ArxivEntries.

Variable arxiv_api : str -> py_result (list Services.entry).

(** X11. What a listed paper shows of its entry: the stripped title, the
    first ten characters of the date, and the stripped summary, cut to
    its first 200 characters followed by [...] if it is longer; so no
    listed summary has more than 203 characters. *)
Theorem listed_summary_is_bounded (e : Services.entry) (p : Services.paper) :
  Services.paper_of_entry e = Returns p ->
  exists t s d,
    Services.title_text e = Some (Some t)
    /\ Services.summary_text e = Some (Some s)
    /\ Services.published_text e = Some (Some d)
    /\ Services.title p = strip t
    /\ Services.published p = firstn 10 d
    /\ (length (Services.summary p) <= 203)%nat
    /\ ((length (strip s) <= 200)%nat -> Services.summary p = strip s)
    /\ ((200 < length (strip s))%nat ->
        Services.summary p = firstn 200 (strip s) ++ py "...").
Proof.
  unfold Services.paper_of_entry.
  destruct (Services.title_text e) as [[t|]|]; cbn [Services.text_of Services.stripped bind];
    try discriminate.
  destruct (Services.names (Services.author_names e)) as [a|]; cbn [bind];
    [|discriminate].
  destruct (Services.summary_text e) as [[s|]|]; cbn [Services.text_of Services.stripped bind];
    try discriminate.
  destruct (Services.published_text e) as [[d|]|]; cbn [Services.text_of Services.first10 bind];
    try discriminate.
  destruct (Services.join a) as [j|]; cbn [bind]; [|discriminate].
  remember (firstn 200 (strip s)) as cut eqn:Ecut.
  assert (Hcut : (length cut <= 200)%nat) by (subst cut; rewrite length_firstn; lia).
  intros H. injection H as <-. exists t, s, d.
  cbn [Services.title Services.summary Services.published].
  repeat split.
  - destruct (200 <? Z.of_nat (length (strip s))) eqn:L.
    + rewrite length_app. change (length (py "...")) with 3%nat. lia.
    + apply Z.ltb_ge in L. lia.
  - intros L. replace (200 <? Z.of_nat (length (strip s))) with false
      by (symmetry; apply Z.ltb_ge; lia). reflexivity.
  - intros L. replace (200 <? Z.of_nat (length (strip s))) with true
      by (symmetry; apply Z.ltb_lt; lia). now rewrite Ecut.
Qed.

(** X12. One entry that cannot be read (no title element, an author
    without a name, an empty summary element) fails the whole search:
    the papers of the other entries are not listed. *)
Theorem unreadable_entry_fails_the_search
    (query : pyval) (q : str) (entries : list Services.entry) (e : Services.entry) :
  Services.py_strip query = Returns q ->
  arxiv_api q = Returns entries ->
  In e entries ->
  (exists exc msg, Services.paper_of_entry e = Raises exc msg) ->
  ok (Services.search_arxiv arxiv_api query) = false
  /\ (q <> [] ->
      starts_with (py "arXiv search error: ")
        (content (Services.search_arxiv arxiv_api query)) = true).
Proof.
  intros Q A Hin He.
  destruct (papers_of_raises _ _ Hin He) as [exc [msg P]].
  unfold Services.search_arxiv, Services.search_arxiv_try.
  rewrite Q. cbn [bind]. destruct (str_eqb q []) eqn:E.
  - split; [reflexivity|]. intros Hq. apply str_eqb_eq in E. contradiction.
  - rewrite A. cbn [bind]. rewrite P. cbn [bind ok content].
    split; [reflexivity|]. intros _. apply starts_with_self_app.
Qed.

End ArxivEntries.

Lemma listed_summary_example :
  exists t s d,
    Services.title_text sample_entry = Some (Some t)
    /\ Services.summary_text sample_entry = Some (Some s)
    /\ Services.published_text sample_entry = Some (Some d)
    /\ Services.title sample_paper = strip t
    /\ Services.published sample_paper = firstn 10 d
    /\ (length (Services.summary sample_paper) <= 203)%nat
    /\ ((length (strip s) <= 200)%nat -> Services.summary sample_paper = strip s)
    /\ ((200 < length (strip s))%nat ->
        Services.summary sample_paper = firstn 200 (strip s) ++ py "...").
Proof.
  apply (listed_summary_is_bounded sample_entry sample_paper). by_computation.
Defined.

Lemma unreadable_entry_example :
  ok (Services.search_arxiv (fun _ => Returns [sample_entry; unreadable_entry])
        (PStr (py "attention"))) = false
  /\ (py "attention" <> [] ->
      starts_with (py "arXiv search error: ")
        (content
           (Services.search_arxiv
              (fun _ => Returns [sample_entry; unreadable_entry])
              (PStr (py "attention")))) = true).
Proof.
  apply (unreadable_entry_fails_the_search
           (fun _ => Returns [sample_entry; unreadable_entry])
           (PStr (py "attention")) (py "attention")
           [sample_entry; unreadable_entry] unreadable_entry).
  - by_computation.
  - reflexivity.
  - right. left. reflexivity.
  - eexists _, _. by_computation.
Defined.

(** ** The weather tool *)

Section WeatherTool.

Variable DEFAULT_CITY : str.
Variable geocoding_api : str -> py_result pyval.
Variable forecast_api : pyval -> pyval -> py_result pyval.
Variable container_str : pyval -> str.
Variable int_of_other : pyval -> py_result Z.

Lemma default_city_when_empty (location : pyval) :
  truthy location = false ->
  (if truthy location then location else PStr DEFAULT_CITY) = PStr DEFAULT_CITY
  /\ (if truthy (PStr DEFAULT_CITY) then PStr DEFAULT_CITY else PStr DEFAULT_CITY)
     = PStr DEFAULT_CITY.
Proof.
  intros ->. split; [reflexivity|]. now destruct (truthy (PStr DEFAULT_CITY)).
Qed.

Lemma get_weather_default (location : pyval) :
  truthy location = false ->
  Services.get_weather DEFAULT_CITY geocoding_api forecast_api container_str
    int_of_other location
  = Services.get_weather DEFAULT_CITY geocoding_api forecast_api container_str
      int_of_other (PStr DEFAULT_CITY).
Proof.
  intros H. destruct (default_city_when_empty location H) as [E1 E2].
  unfold Services.get_weather, Services.get_weather_try. now rewrite E1, E2.
Qed.

(** X13. An empty location of any type (the empty string, [None], [0],
    an empty list) is answered exactly as the default city is. *)
Theorem empty_location_means_default_city (location : pyval) :
  truthy location = false ->
  Services.get_weather DEFAULT_CITY geocoding_api forecast_api container_str
    int_of_other location
  = Services.get_weather DEFAULT_CITY geocoding_api forecast_api container_str
      int_of_other (PStr DEFAULT_CITY).
Proof. exact (get_weather_default location). Qed.

(** X14. When the geocoding service answers without results (the field
    is missing, [null] or an empty list), the tool reports that it could
    not find the location, naming the stripped city; the forecast service
    is not consulted. *)
Theorem unknown_location_is_reported
    (location : pyval) (city : str) (j results : pyval) :
  Services.py_strip (if truthy location then location else PStr DEFAULT_CITY)
  = Returns city ->
  geocoding_api city = Returns j ->
  Services.py_get j (py "results") PNone = Returns results ->
  truthy results = false ->
  Services.get_weather DEFAULT_CITY geocoding_api forecast_api container_str
    int_of_other location
  = {| ok := false;
       content := py "Could not find location '" ++ city
                  ++ py "'. Please specify a city (e.g., 'weather in Toronto')." |}.
Proof.
  intros Hc Hj Hr Ht.
  unfold Services.get_weather, Services.get_weather_try, Services._geocode_city.
  rewrite Hc. cbn [bind]. rewrite Hj. cbn [bind]. rewrite Hr. cbn [bind].
  rewrite Ht. reflexivity.
Qed.

End WeatherTool.

Lemma empty_location_example :
  Services.get_weather (py "Toronto, ON") sample_geocoding sample_forecast
    no_container_str no_int_of_other PNone
  = Services.get_weather (py "Toronto, ON") sample_geocoding sample_forecast
      no_container_str no_int_of_other (PStr (py "Toronto, ON")).
Proof.
  apply (empty_location_means_default_city (py "Toronto, ON") sample_geocoding
           sample_forecast no_container_str no_int_of_other PNone).
  reflexivity.
Defined.

Lemma unknown_location_example :
  Services.get_weather (py "Toronto, ON") sample_geocoding sample_forecast
    no_container_str no_int_of_other (PStr (py " Atlantis "))
  = {| ok := false;
       content := py "Could not find location '" ++ py "Atlantis"
                  ++ py "'. Please specify a city (e.g., 'weather in Toronto')." |}.
Proof.
  apply (unknown_location_is_reported (py "Toronto, ON") sample_geocoding
           sample_forecast no_container_str no_int_of_other
           (PStr (py " Atlantis ")) (py "Atlantis")
           (PDict [(py "generationtime_ms", PInt 1)]) PNone); by_computation.
Defined.

(** * The conversation manager *)

Lemma lstrip_head (s : str) (c : Z) (r : str) :
  lstrip s = c :: r -> is_space c = false.
Proof.
  induction s as [|x s IH]; cbn [lstrip]; [discriminate|].
  destruct (is_space x) eqn:E; [exact IH|].
  intros H. injection H as <- _. exact E.
Qed.

Lemma lstrip_idempotent (s : str) : lstrip (lstrip s) = lstrip s.
Proof.
  destruct (lstrip s) as [|c r] eqn:E; [reflexivity|].
  apply lstrip_head_not_space. exact (lstrip_head _ _ _ E).
Qed.

Lemma rstrip_prefix (u : str) : exists b, u = rstrip u ++ b.
Proof.
  unfold rstrip. destruct (lstrip_dropped_spaces (rev u)) as [a [H _]].
  exists (rev a). rewrite <- rev_app_distr, <- H. now rewrite rev_involutive.
Qed.

Lemma strip_idempotent (s : str) : strip (strip s) = strip s.
Proof.
  unfold strip.
  assert (L : lstrip (rstrip (lstrip s)) = rstrip (lstrip s)).
  { destruct (rstrip (lstrip s)) as [|c r] eqn:E; [reflexivity|].
    apply lstrip_head_not_space.
    destruct (rstrip_prefix (lstrip s)) as [b Hb]. rewrite E in Hb.
    exact (lstrip_head _ _ _ Hb). }
  rewrite L. unfold rstrip. now rewrite rev_involutive, lstrip_idempotent.
Qed.

Lemma last_items_all {A : Type} (k : Z) (l : list A) :
  0 < k -> Z.of_nat (length l) <= k -> Llm.last_items k l = l.
Proof.
  intros Hk Hl. unfold Llm.last_items.
  replace (0 <? k) with true by (symmetry; now apply Z.ltb_lt).
  replace (Z.max (Z.of_nat (length l) - k) 0) with 0 by lia. reflexivity.
Qed.

Lemma last_items_length {A : Type} (k : Z) (l : list A) :
  0 < k -> Z.of_nat (length (Llm.last_items k l)) = Z.min k (Z.of_nat (length l)).
Proof.
  intros Hk. unfold Llm.last_items.
  replace (0 <? k) with true by (symmetry; now apply Z.ltb_lt).
  rewrite length_skipn. lia.
Qed.

Lemma last_items_suffix {A : Type} (k : Z) (l : list A) :
  exists old, l = old ++ Llm.last_items k l.
Proof.
  unfold Llm.last_items. eexists. symmetry. apply firstn_skipn.
Qed.

Lemma last_items_app_last {A : Type} (k : Z) (l : list A) (x : A) :
  0 < k -> exists kept, Llm.last_items k (l ++ [x]) = kept ++ [x].
Proof.
  intros Hk. unfold Llm.last_items.
  replace (0 <? k) with true by (symmetry; now apply Z.ltb_lt).
  rewrite length_app. cbn [length].
  set (n := Z.to_nat _).
  assert (Hn : (n <= length l)%nat) by (subst n; lia).
  exists (skipn n l). rewrite skipn_app.
  replace (n - length l)%nat with 0%nat by lia. reflexivity.
Qed.

Section Conversation.

Variable SYSTEM_FC : str.
Variable apply_chat_template : list Llm.message -> py_result str.
Variable _token_len : str -> py_result Z.
Variable generate : str -> bool -> py_result str.

(** What one generation returns: nothing, or a stripped text of at least
    eight characters. *)
Lemma generate_once_reply (prompt : str) (do_sample : bool) (reply : str) :
  Llm._generate_once generate prompt do_sample = Returns reply ->
  reply = [] \/ (8 <= Z.of_nat (length reply) /\ strip reply = reply).
Proof.
  unfold Llm._generate_once.
  destruct (generate prompt do_sample) as [out|]; cbn [bind]; [|discriminate].
  destruct (Z.of_nat (length (strip out)) <? 8) eqn:L; cbn [orb].
  - intros H. injection H as <-. now left.
  - destruct (existsb _ _); intros H; injection H as <-; [now left | right].
    apply Z.ltb_ge in L. split; [exact L | apply strip_idempotent].
Qed.

Lemma generate_response_reply (self self' : Llm.ConvManager) (user_text reply : str) :
  Llm.generate_response SYSTEM_FC apply_chat_template generate self user_text
  = Returns (self', reply) ->
  8 <= Z.of_nat (length reply) /\ strip reply = reply.
Proof.
  unfold Llm.generate_response.
  destruct (apply_chat_template _) as [prompt|]; cbn [bind]; [|discriminate].
  destruct (Llm._generate_once generate prompt false) as [r1|] eqn:G1; cbn [bind];
    [|discriminate].
  assert (H2 : forall r2,
             (if str_eqb r1 [] then Llm._generate_once generate prompt true
              else Returns r1) = Returns r2 ->
             r2 = [] \/ (8 <= Z.of_nat (length r2) /\ strip r2 = r2)).
  { intros r2. destruct (str_eqb r1 []).
    - apply generate_once_reply.
    - intros H. injection H as <-. now apply generate_once_reply in G1. }
  destruct (if str_eqb r1 [] then _ else _) as [r2|]; cbn [bind]; [|discriminate].
  specialize (H2 r2 eq_refl).
  intros H. injection H as _ <-.
  destruct (str_eqb r2 []) eqn:E.
  - split; [vm_compute; discriminate | by_computation].
  - apply str_eqb_neq in E. destruct H2 as [H2 | H2]; [contradiction | exact H2].
Qed.

Lemma generate_response_stock (self : Llm.ConvManager) (user_text prompt : str) :
  Llm._generate_once generate prompt false = Returns [] ->
  Llm._generate_once generate prompt true = Returns [] ->
  apply_chat_template
    ([ {| Llm.role := py "system"; Llm.content := SYSTEM_FC |} ]
     ++ Llm.rounds (Llm.last_items (Llm.max_history self) (Llm.history self))
     ++ [ {| Llm.role := py "user"; Llm.content := user_text |} ])
  = Returns prompt ->
  exists self',
    Llm.generate_response SYSTEM_FC apply_chat_template generate self user_text
    = Returns (self', py "Thanks! I heard your point and will keep it concise.").
Proof.
  intros G1 G2 P. unfold Llm.generate_response.
  rewrite P. cbn [bind]. rewrite G1. cbn [bind].
  change (str_eqb [] []) with true. cbv iota. rewrite G2. cbn [bind].
  change (str_eqb [] []) with true. cbv iota. eexists. reflexivity.
Qed.

(** X15. The reply of the conversation manager is never empty: it has at
    least eight characters and neither starts nor ends with white space,
    whatever the model generates; when both generations are rejected it
    is the stock sentence. *)
Theorem reply_is_never_empty (self self' : Llm.ConvManager) (user_text reply : str) :
  Llm.generate_response SYSTEM_FC apply_chat_template generate self user_text
  = Returns (self', reply) ->
  reply <> [] /\ 8 <= Z.of_nat (length reply) /\ strip reply = reply
  /\ (forall prompt,
         Llm._generate_once generate prompt false = Returns [] ->
         Llm._generate_once generate prompt true = Returns [] ->
         apply_chat_template
           ([ {| Llm.role := py "system"; Llm.content := SYSTEM_FC |} ]
            ++ Llm.rounds (Llm.last_items (Llm.max_history self) (Llm.history self))
            ++ [ {| Llm.role := py "user"; Llm.content := user_text |} ])
         = Returns prompt ->
         reply = py "Thanks! I heard your point and will keep it concise.").
Proof.
  intros H. destruct (generate_response_reply _ _ _ _ H) as [H8 Hs].
  repeat split; auto.
  - intros ->. cbn in H8. lia.
  - intros prompt G1 G2 P.
    destruct (generate_response_stock self user_text prompt G1 G2 P) as [s' E].
    rewrite E in H. now injection H as _ <-.
Qed.

(** X16. Each answered turn is appended to the history, which keeps the
    last ten rounds: afterwards the history is the last ten of the old
    rounds followed by the new one, it ends with the new round, and it has
    [min 10 (n + 1)] rounds if it had [n]. The limits of the manager do
    not change. *)
Theorem history_keeps_the_last_ten_rounds
    (self self' : Llm.ConvManager) (user_text reply : str) :
  Llm.generate_response SYSTEM_FC apply_chat_template generate self user_text
  = Returns (self', reply) ->
  Llm.history self' = Llm.last_items 10 (Llm.history self ++ [(user_text, reply)])
  /\ (exists kept, Llm.history self' = kept ++ [(user_text, reply)])
  /\ Z.of_nat (length (Llm.history self'))
     = Z.min 10 (Z.of_nat (length (Llm.history self)) + 1)
  /\ Llm.max_history self' = Llm.max_history self
  /\ Llm.max_input_tokens self' = Llm.max_input_tokens self.
Proof.
  unfold Llm.generate_response.
  destruct (apply_chat_template _) as [prompt|]; cbn [bind]; [|discriminate].
  destruct (Llm._generate_once generate prompt false) as [r1|]; cbn [bind];
    [|discriminate].
  destruct (if str_eqb r1 [] then _ else _) as [r2|]; cbn [bind]; [|discriminate].
  intros H. injection H as <- <-.
  cbn [Llm.history Llm.max_history Llm.max_input_tokens].
  set (reply := if str_eqb r2 [] then _ else r2).
  set (h := Llm.history self ++ [(user_text, reply)]).
  assert (E : (if 10 <? Z.of_nat (length h) then Llm.last_items 10 h else h)
              = Llm.last_items 10 h).
  { destruct (10 <? Z.of_nat (length h)) eqn:L; [reflexivity|].
    apply Z.ltb_ge in L. symmetry. apply last_items_all; lia. }
  rewrite E. repeat split.
  - apply last_items_app_last. lia.
  - rewrite last_items_length by lia. subst h.
    rewrite length_app. cbn [length]. lia.
Qed.

(** X17. The prompt is built from the last [max_history] rounds only:
    two managers whose last [max_history] rounds agree give the same
    reply to the same utterance, whatever stands before those rounds. *)
Theorem reply_depends_on_the_last_rounds_only
    (self1 self2 : Llm.ConvManager) (user_text : str) :
  Llm.max_history self1 = Llm.max_history self2 ->
  Llm.last_items (Llm.max_history self1) (Llm.history self1)
  = Llm.last_items (Llm.max_history self2) (Llm.history self2) ->
  (r <- Llm.generate_response SYSTEM_FC apply_chat_template generate self1
          user_text ;;
   Returns (snd r))
  = (r <- Llm.generate_response SYSTEM_FC apply_chat_template generate self2
            user_text ;;
     Returns (snd r)).
Proof.
  intros Hk Hl. unfold Llm.generate_response. rewrite Hl.
  destruct (apply_chat_template _) as [prompt|]; cbn [bind]; [|reflexivity].
  destruct (Llm._generate_once generate prompt false) as [r1|]; cbn [bind];
    [|reflexivity].
  destruct (if str_eqb r1 [] then _ else _) as [r2|]; cbn [bind]; reflexivity.
Qed.

End Conversation.

Lemma reply_example :
  py "Sure, happy to help." <> []
  /\ 8 <= Z.of_nat (length (py "Sure, happy to help."))
  /\ strip (py "Sure, happy to help.") = py "Sure, happy to help."
  /\ (forall prompt,
         Llm._generate_once sample_generate prompt false = Returns [] ->
         Llm._generate_once sample_generate prompt true = Returns [] ->
         sample_template
           ([ {| Llm.role := py "system"; Llm.content := sample_system |} ]
            ++ Llm.rounds (Llm.last_items (Llm.max_history Llm.conv_manager)
                             (Llm.history Llm.conv_manager))
            ++ [ {| Llm.role := py "user"; Llm.content := py "hello" |} ])
         = Returns prompt ->
         py "Sure, happy to help."
         = py "Thanks! I heard your point and will keep it concise.").
Proof.
  apply (reply_is_never_empty sample_system sample_template sample_generate
           Llm.conv_manager
           {| Llm.history := [(py "hello", py "Sure, happy to help.")];
              Llm.max_history := 4;
              Llm.max_input_tokens := 1024 |}
           (py "hello") (py "Sure, happy to help.")).
  by_computation.
Defined.

Lemma history_example :
  Llm.history
    {| Llm.history := [(py "hello", py "Sure, happy to help.")];
       Llm.max_history := 4;
       Llm.max_input_tokens := 1024 |}
  = Llm.last_items 10
      (Llm.history Llm.conv_manager ++ [(py "hello", py "Sure, happy to help.")])
  /\ (exists kept,
         Llm.history
           {| Llm.history := [(py "hello", py "Sure, happy to help.")];
              Llm.max_history := 4;
              Llm.max_input_tokens := 1024 |}
         = kept ++ [(py "hello", py "Sure, happy to help.")])
  /\ Z.of_nat (length (Llm.history
                         {| Llm.history := [(py "hello", py "Sure, happy to help.")];
                            Llm.max_history := 4;
                            Llm.max_input_tokens := 1024 |}))
     = Z.min 10 (Z.of_nat (length (Llm.history Llm.conv_manager)) + 1)
  /\ Llm.max_history
       {| Llm.history := [(py "hello", py "Sure, happy to help.")];
          Llm.max_history := 4;
          Llm.max_input_tokens := 1024 |}
     = Llm.max_history Llm.conv_manager
  /\ Llm.max_input_tokens
       {| Llm.history := [(py "hello", py "Sure, happy to help.")];
          Llm.max_history := 4;
          Llm.max_input_tokens := 1024 |}
     = Llm.max_input_tokens Llm.conv_manager.
Proof.
  apply (history_keeps_the_last_ten_rounds sample_system sample_template
           sample_generate Llm.conv_manager
           {| Llm.history := [(py "hello", py "Sure, happy to help.")];
              Llm.max_history := 4;
              Llm.max_input_tokens := 1024 |}
           (py "hello") (py "Sure, happy to help.")).
  by_computation.
Defined.

Lemma last_rounds_example :
  (r <- Llm.generate_response sample_system sample_template sample_generate
          long_conversation (py "and now?") ;;
   Returns (snd r))
  = (r <- Llm.generate_response sample_system sample_template sample_generate
            short_conversation (py "and now?") ;;
     Returns (snd r)).
Proof.
  apply (reply_depends_on_the_last_rounds_only sample_system sample_template
           sample_generate long_conversation short_conversation (py "and now?"));
    by_computation.
Defined.

(** ** Truncation of the prompt *)

Lemma find_cut_bound (window : list Llm.message) :
  forall (idx : nat) (user_seen : bool) (j : nat),
    Llm.find_cut idx user_seen window = Some j ->
    (idx <= j < idx + length window)%nat.
Proof.
  induction window as [|m window IH]; intros idx user_seen j; cbn [Llm.find_cut];
    [discriminate|].
  destruct (str_eqb (Llm.role m) (py "user") && negb user_seen).
  { intros H. apply IH in H. cbn [length]. lia. }
  destruct (str_eqb (Llm.role m) (py "assistant") && user_seen).
  { intros H. injection H as <-. cbn [length]. lia. }
  intros H. apply IH in H. cbn [length]. lia.
Qed.

Section Truncation.

Variable apply_chat_template : list Llm.message -> py_result str.
Variable _token_len : str -> py_result Z.
Variable self : Llm.ConvManager.

Lemma truncate_loop_returns (fuel : nat) :
  forall hist : list Llm.message,
    (length hist < fuel)%nat ->
    exists r,
      Llm.truncate_loop apply_chat_template _token_len self fuel hist = Some r
      /\ forall prompt,
           r = Returns prompt ->
           exists kept n,
             suffix_of kept (skipn 1 hist)
             /\ (skipn 1 hist <> [] -> kept <> [])
             /\ apply_chat_template (firstn 1 hist ++ kept) = Returns prompt
             /\ _token_len prompt = Returns n
             /\ (n <= Llm.max_input_tokens self
                 \/ (length (firstn 1 hist ++ kept) <= 2)%nat
                 \/ Llm.find_cut 1 false
                      (firstn (length (firstn 1 hist ++ kept) - 2)
                         (skipn 1 (firstn 1 hist ++ kept))) = None).
Proof.
  induction fuel as [|fuel IH]; intros hist Hlen; [lia|].
  cbn [Llm.truncate_loop].
  assert (Stay : forall prompt n cond,
             apply_chat_template hist = Returns prompt ->
             _token_len prompt = Returns n ->
             (n <= Llm.max_input_tokens self
              \/ (length hist <= 2)%nat
              \/ Llm.find_cut 1 false (firstn (length hist - 2) (skipn 1 hist)) = None)
             -> cond = @Some (py_result str) (Returns prompt) ->
             exists r,
               cond = Some r
               /\ forall prompt0,
                    r = Returns prompt0 ->
                    exists kept n0,
                      suffix_of kept (skipn 1 hist)
                      /\ (skipn 1 hist <> [] -> kept <> [])
                      /\ apply_chat_template (firstn 1 hist ++ kept) = Returns prompt0
                      /\ _token_len prompt0 = Returns n0
                      /\ (n0 <= Llm.max_input_tokens self
                          \/ (length (firstn 1 hist ++ kept) <= 2)%nat
                          \/ Llm.find_cut 1 false
                               (firstn (length (firstn 1 hist ++ kept) - 2)
                                  (skipn 1 (firstn 1 hist ++ kept))) = None)).
  { intros prompt n cond Hp Hn Hc ->. eexists. split; [reflexivity|].
    intros prompt0 E. injection E as <-.
    exists (skipn 1 hist), n. rewrite (firstn_skipn 1 hist).
    repeat split; auto. now exists []. }
  destruct (apply_chat_template hist) as [prompt|exc msg] eqn:P.
  2: { eexists. split; [reflexivity|]. discriminate. }
  destruct (_token_len prompt) as [n|exc msg] eqn:N.
  2: { eexists. split; [reflexivity|]. discriminate. }
  destruct ((n <=? Llm.max_input_tokens self) || (length hist <=? 2)%nat) eqn:C.
  { apply (Stay prompt n); auto.
    apply orb_true_iff in C as [C | C].
    - left. now apply Z.leb_le.
    - right. left. now apply Nat.leb_le. }
  apply orb_false_iff in C as [_ C]. apply Nat.leb_gt in C.
  destruct (Llm.find_cut 1 false (firstn (length hist - 2) (skipn 1 hist)))
    as [[|i]|] eqn:F.
  { apply find_cut_bound in F. lia. }
  2: { apply (Stay prompt n); auto. }
  apply find_cut_bound in F. rewrite length_firstn, length_skipn in F.
  destruct hist as [|m rest]; [cbn [length] in C; lia|].
  cbn [length] in *.
  change (firstn 1 (m :: rest)) with [m].
  change (skipn 1 (m :: rest)) with rest.
  change (skipn (S (S i)) (m :: rest)) with (skipn (S i) rest).
  change ([m] ++ skipn (S i) rest) with (m :: skipn (S i) rest).
  assert (Hrest : (S i < length rest)%nat) by lia.
  destruct (IH (m :: skipn (S i) rest)) as [r [Hr Hpost]].
  { cbn [length]. rewrite length_skipn. lia. }
  exists r. split; [exact Hr|].
  intros prompt0 E. destruct (Hpost prompt0 E) as [kept [n0 [Hs [Hne [Hp [Hn Hb]]]]]].
  change (firstn 1 (m :: skipn (S i) rest)) with [m] in *.
  change (skipn 1 (m :: skipn (S i) rest)) with (skipn (S i) rest) in *.
  exists kept, n0. repeat split; auto.
  - destruct Hs as [dropped Hs]. exists (firstn (S i) rest ++ dropped).
    rewrite <- app_assoc, <- Hs. symmetry. apply firstn_skipn.
  - intros _. apply Hne. intros E0.
    apply (f_equal (@length Llm.message)) in E0.
    rewrite length_skipn in E0. cbn [length] in E0. lia.
Qed.

(** X18. The truncation loop always ends, and a prompt it returns is the
    template of the first message (the system prompt) followed by what
    remains of the others when rounds are dropped from the front; the
    newest message is never dropped; and the prompt fits the token
    budget, or at most two messages are left, or no further round can be
    cut. *)
Theorem truncation_keeps_system_and_newest (messages : list Llm.message) :
  exists r,
    Llm._apply_template_and_truncate apply_chat_template _token_len self messages
    = Some r
    /\ forall prompt,
         r = Returns prompt ->
         exists kept n,
           suffix_of kept (skipn 1 messages)
           /\ (skipn 1 messages <> [] -> kept <> [])
           /\ apply_chat_template (firstn 1 messages ++ kept) = Returns prompt
           /\ _token_len prompt = Returns n
           /\ (n <= Llm.max_input_tokens self
               \/ (length (firstn 1 messages ++ kept) <= 2)%nat
               \/ Llm.find_cut 1 false
                    (firstn (length (firstn 1 messages ++ kept) - 2)
                       (skipn 1 (firstn 1 messages ++ kept))) = None).
Proof.
  unfold Llm._apply_template_and_truncate. apply truncate_loop_returns. lia.
Qed.

End Truncation.

(** * The endpoints *)

Section Endpoints.

Variable U : unicode_db.
Variable json_loads : str -> option pyval.
Variable sympy_float : pyval -> py_result float.
Variables get_weather search_arxiv : pyval -> ToolResult.
Variable transcribe_audio : list Byte.byte -> py_result str.
Variable synthesize_speech : str -> py_result str.
Variable SYSTEM_FC : str.
Variable apply_chat_template : list Llm.message -> py_result str.
Variable generate : str -> bool -> py_result str.
Variable quote : str -> str.
Variable audio_route : str.

Lemma final_text_not_blank (llm_raw user_text : str)
    (cs : list (tool * pyval)) (t : str) :
  Main.final_text U json_loads sympy_float get_weather search_arxiv llm_raw user_text
  = Returns (cs, t) ->
  t <> [] /\ strip t <> [].
Proof.
  unfold Main.final_text.
  destruct (try_route_llm_function_call _ _ _ _ _) as [routed|]; cbn [bind];
    [|discriminate].
  destruct (match reply routed with Some _ => _ | None => _ end) as [chosen|];
    cbn [bind]; [|discriminate].
  intros H. injection H as _ <-.
  destruct (str_eqb (snd chosen) []) eqn:E1; cbn [orb].
  - split; [discriminate | vm_compute; discriminate].
  - destruct (str_eqb (strip (snd chosen)) []) eqn:E2.
    + split; [discriminate | vm_compute; discriminate].
    + split; now apply str_eqb_neq.
Qed.

Lemma final_text_single_call (llm_raw user_text : str)
    (cs : list (tool * pyval)) (t : str) :
  Main.final_text U json_loads sympy_float get_weather search_arxiv llm_raw user_text
  = Returns (cs, t) ->
  (length cs <= 1)%nat.
Proof.
  unfold Main.final_text.
  destruct (try_route_llm_function_call _ _ _ _ _) as [routed|] eqn:R; cbn [bind];
    [|discriminate].
  apply route_single_call in R as [R1 R2].
  destruct (reply routed) as [r|]; cbn [bind].
  - intros H. injection H as <- _. exact R1.
  - destruct (maybe_call_by_rules _ _ _ _ _) as [tool_hit|] eqn:M; cbn [bind];
      [|discriminate].
    apply rules_single_call in M as [M1 _].
    intros H. injection H as <- _. rewrite (R2 eq_refl). exact M1.
Qed.

(** X19. Whatever the recognizer and the model produce, a turn that is
    answered with audio speaks a text that is neither empty nor blank,
    and at most one tool was invoked for it.  The text is the one of this
    turn: the final text that the routing gives for the utterance heard
    in the upload and for the reply that the conversation manager gave to
    that utterance in the conversation as it stood; the audio is its
    synthesis.  The debugging endpoint reports the same text. *)
Theorem spoken_text_is_never_blank
    (conv conv' : Llm.ConvManager) (audio_bytes : list Byte.byte) (path : str) :
  Main.chat_endpoint U json_loads sympy_float get_weather search_arxiv
    transcribe_audio synthesize_speech SYSTEM_FC apply_chat_template generate
    conv audio_bytes
  = (conv', Main.FileResponse path) ->
  exists user_text llm_raw cs t,
    transcribe_audio audio_bytes = Returns user_text
    /\ Llm.generate_response SYSTEM_FC apply_chat_template generate conv user_text
       = Returns (conv', llm_raw)
    /\ Main.final_text U json_loads sympy_float get_weather search_arxiv
         llm_raw user_text = Returns (cs, t)
    /\ synthesize_speech t = Returns path
    /\ t <> [] /\ strip t <> [] /\ (length cs <= 1)%nat
    /\ Main.chat_debug_endpoint U json_loads sympy_float get_weather search_arxiv
         transcribe_audio synthesize_speech SYSTEM_FC apply_chat_template generate
         quote audio_route conv audio_bytes
       = (conv', Main.DebugLog user_text llm_raw t
                   (audio_route ++ py "?path=" ++ quote path)).
Proof.
  unfold Main.chat_endpoint, Main.chat_debug_endpoint, Main.answer.
  destruct (transcribe_audio audio_bytes) as [user_text|]; [|discriminate].
  destruct (Llm.generate_response _ _ _ _ _) as [[c llm_raw]|] eqn:G;
    [|discriminate].
  destruct (Main.final_text _ _ _ _ _ _ _) as [[cs t]|] eqn:F; cbn [bind snd];
    [|discriminate].
  destruct (synthesize_speech t) as [p|] eqn:S; cbn [bind]; [|discriminate].
  intros H. injection H as <- <-.
  exists user_text, llm_raw, cs, t.
  destruct (final_text_not_blank _ _ _ _ F) as [H1 H2].
  pose proof (final_text_single_call _ _ _ _ F) as H3.
  repeat split; auto.
Qed.

(** X20. A call extracted from the model output decides the turn: the
    final text does not depend on what the user said, the rules are not
    consulted. *)
Theorem extracted_call_decides_the_turn (llm_raw user_text1 user_text2 : str) :
  _extract_json_call json_loads llm_raw <> None ->
  Main.final_text U json_loads sympy_float get_weather search_arxiv llm_raw
    user_text1
  = Main.final_text U json_loads sympy_float get_weather search_arxiv llm_raw
      user_text2.
Proof.
  intros E. unfold Main.final_text.
  destruct (try_route_llm_function_call _ _ _ _ _) as [routed|] eqn:R; cbn [bind];
    [|reflexivity].
  apply (route_replies_when_extracted _ _ _ _ _ _ E) in R.
  destruct (reply routed) as [r|]; [reflexivity | now contradiction R].
Qed.

(** X21. A call whose [function] value is a list or an object makes both
    endpoints answer with status 500 and the message of the [TypeError]
    instead of speech; the round is in the history all the same. *)
Theorem unhashable_function_gives_status_500
    (conv conv' : Llm.ConvManager) (audio_bytes : list Byte.byte)
    (user_text llm_raw : str) (obj : list (str * pyval)) (v : pyval) :
  transcribe_audio audio_bytes = Returns user_text ->
  Llm.generate_response SYSTEM_FC apply_chat_template generate conv user_text
  = Returns (conv', llm_raw) ->
  _extract_json_call json_loads llm_raw = Some obj ->
  dict_get obj (py "function") = Some v ->
  hashable v = false ->
  Main.chat_endpoint U json_loads sympy_float get_weather search_arxiv
    transcribe_audio synthesize_speech SYSTEM_FC apply_chat_template generate
    conv audio_bytes
  = (conv', Main.JSONResponse 500 (py "unhashable type: '" ++ type_name v ++ py "'"))
  /\ Main.chat_debug_endpoint U json_loads sympy_float get_weather search_arxiv
       transcribe_audio synthesize_speech SYSTEM_FC apply_chat_template generate
       quote audio_route conv audio_bytes
     = (conv', Main.JSONResponse 500 (py "unhashable type: '" ++ type_name v ++ py "'")).
Proof.
  intros T G E F H.
  assert (R : Main.final_text U json_loads sympy_float get_weather search_arxiv
                llm_raw user_text
              = Raises (py "TypeError") (py "unhashable type: '" ++ type_name v ++ py "'")).
  { unfold Main.final_text.
    rewrite (route_extracted json_loads sympy_float get_weather search_arxiv E F).
    destruct v; try discriminate H; reflexivity. }
  unfold Main.chat_endpoint, Main.chat_debug_endpoint, Main.answer.
  rewrite T, G, R. split; reflexivity.
Qed.

(** X22. When nothing is extracted from the model's reply and no rule
    matches the utterance, the endpoint speaks the model's reply as it
    is; the prompt for an empty reply cannot take its place, the reply of
    the conversation manager being never blank. *)
Theorem unrouted_turn_speaks_the_model_reply
    (conv conv' : Llm.ConvManager) (audio_bytes : list Byte.byte)
    (user_text llm_raw : str) :
  transcribe_audio audio_bytes = Returns user_text ->
  Llm.generate_response SYSTEM_FC apply_chat_template generate conv user_text
  = Returns (conv', llm_raw) ->
  _extract_json_call json_loads llm_raw = None ->
  maybe_call_by_rules U sympy_float get_weather search_arxiv user_text
  = Returns {| calls := []; reply := None |} ->
  Main.final_text U json_loads sympy_float get_weather search_arxiv llm_raw user_text
  = Returns ([], llm_raw)
  /\ Main.chat_endpoint U json_loads sympy_float get_weather search_arxiv
       transcribe_audio synthesize_speech SYSTEM_FC apply_chat_template generate
       conv audio_bytes
     = (conv', match synthesize_speech llm_raw with
               | Returns audio_path => Main.FileResponse audio_path
               | Raises _ msg => Main.JSONResponse 500 msg
               end).
Proof.
  intros T G E M.
  destruct (generate_response_reply _ _ _ _ _ _ _ G) as [H8 Hs].
  assert (F : Main.final_text U json_loads sympy_float get_weather search_arxiv
                llm_raw user_text = Returns ([], llm_raw)).
  { unfold Main.final_text, try_route_llm_function_call.
    rewrite E. cbn [bind reply calls]. rewrite M. cbn [bind reply calls app fst snd].
    rewrite Hs.
    replace (str_eqb llm_raw []) with false; [reflexivity|].
    symmetry. apply str_eqb_neq. intros ->. cbn in H8. lia. }
  split; [exact F|].
  unfold Main.chat_endpoint, Main.answer. rewrite T, G, F. cbn [bind snd].
  now destruct (synthesize_speech llm_raw).
Qed.

End Endpoints.

Lemma spoken_text_example :
  exists user_text llm_raw cs t,
    sample_transcribe [] = Returns user_text
    /\ Llm.generate_response sample_system sample_template call_generate
         Llm.conv_manager user_text
       = Returns
           (after_hello (pyq "{'function': 'calculate', 'arguments': {'expression': '2+2'}}"),
            llm_raw)
    /\ Main.final_text plain_unicode Json.json_loads SympyRef.sympy_float
         (offline (py "Weather")) (offline (py "arXiv search"))
         llm_raw user_text = Returns (cs, t)
    /\ sample_speech t = Returns (py "/tmp/reply.wav")
    /\ t <> [] /\ strip t <> [] /\ (length cs <= 1)%nat
    /\ Main.chat_debug_endpoint plain_unicode Json.json_loads SympyRef.sympy_float
         (offline (py "Weather")) (offline (py "arXiv search"))
         sample_transcribe sample_speech sample_system sample_template
         call_generate (fun path => path) (py "http://localhost/audio")
         Llm.conv_manager []
       = (after_hello (pyq "{'function': 'calculate', 'arguments': {'expression': '2+2'}}"),
          Main.DebugLog user_text llm_raw t
            (py "http://localhost/audio" ++ py "?path=" ++ py "/tmp/reply.wav")).
Proof.
  apply (spoken_text_is_never_blank plain_unicode Json.json_loads
           SympyRef.sympy_float (offline (py "Weather"))
           (offline (py "arXiv search")) sample_transcribe sample_speech
           sample_system sample_template call_generate
           (fun path => path) (py "http://localhost/audio")
           Llm.conv_manager
           (after_hello (pyq "{'function': 'calculate', 'arguments': {'expression': '2+2'}}"))
           [] (py "/tmp/reply.wav")).
  by_computation.
Defined.

Lemma extracted_call_example :
  Main.final_text plain_unicode Json.json_loads SympyRef.sympy_float
    (offline (py "Weather")) (offline (py "arXiv search"))
    (pyq "{'function': 'calculate', 'arguments': {'expression': '2+2'}}")
    (py "hello")
  = Main.final_text plain_unicode Json.json_loads SympyRef.sympy_float
      (offline (py "Weather")) (offline (py "arXiv search"))
      (pyq "{'function': 'calculate', 'arguments': {'expression': '2+2'}}")
      (py "recent papers on agents").
Proof.
  apply (extracted_call_decides_the_turn plain_unicode Json.json_loads
           SympyRef.sympy_float (offline (py "Weather"))
           (offline (py "arXiv search"))
           (pyq "{'function': 'calculate', 'arguments': {'expression': '2+2'}}")
           (py "hello") (py "recent papers on agents")).
  vm_compute. discriminate.
Defined.

Lemma unhashable_function_example :
  Main.chat_endpoint plain_unicode Json.json_loads SympyRef.sympy_float
    (offline (py "Weather")) (offline (py "arXiv search"))
    sample_transcribe sample_speech sample_system sample_template
    list_call_generate Llm.conv_manager []
  = (after_hello (pyq "{'function': ['calculate'], 'arguments': {}}"),
     Main.JSONResponse 500
       (py "unhashable type: '" ++ type_name (PList [PStr (py "calculate")]) ++ py "'"))
  /\ Main.chat_debug_endpoint plain_unicode Json.json_loads SympyRef.sympy_float
       (offline (py "Weather")) (offline (py "arXiv search"))
       sample_transcribe sample_speech sample_system sample_template
       list_call_generate (fun path => path) (py "http://localhost/audio")
       Llm.conv_manager []
     = (after_hello (pyq "{'function': ['calculate'], 'arguments': {}}"),
        Main.JSONResponse 500
          (py "unhashable type: '" ++ type_name (PList [PStr (py "calculate")])
           ++ py "'")).
Proof.
  apply (unhashable_function_gives_status_500 plain_unicode Json.json_loads
           SympyRef.sympy_float (offline (py "Weather"))
           (offline (py "arXiv search")) sample_transcribe sample_speech
           sample_system sample_template list_call_generate
           (fun path => path) (py "http://localhost/audio")
           Llm.conv_manager
           (after_hello (pyq "{'function': ['calculate'], 'arguments': {}}"))
           [] (py "hello")
           (pyq "{'function': ['calculate'], 'arguments': {}}")
           [(py "function", PList [PStr (py "calculate")]);
            (py "arguments", PDict [])]
           (PList [PStr (py "calculate")])); by_computation.
Defined.

Lemma unrouted_turn_example :
  Main.final_text plain_unicode Json.json_loads SympyRef.sympy_float
    (offline (py "Weather")) (offline (py "arXiv search"))
    (py "Sure, happy to help.") (py "hello")
  = Returns ([], py "Sure, happy to help.")
  /\ Main.chat_endpoint plain_unicode Json.json_loads SympyRef.sympy_float
       (offline (py "Weather")) (offline (py "arXiv search"))
       sample_transcribe sample_speech sample_system sample_template
       sample_generate Llm.conv_manager []
     = (after_hello (py "Sure, happy to help."),
        match sample_speech (py "Sure, happy to help.") with
        | Returns audio_path => Main.FileResponse audio_path
        | Raises _ msg => Main.JSONResponse 500 msg
        end).
Proof.
  apply (unrouted_turn_speaks_the_model_reply plain_unicode Json.json_loads
           SympyRef.sympy_float (offline (py "Weather"))
           (offline (py "arXiv search")) sample_transcribe sample_speech
           sample_system sample_template sample_generate
           Llm.conv_manager (after_hello (py "Sure, happy to help."))
           [] (py "hello") (py "Sure, happy to help.")); by_computation.
Defined.

(** * The weather rule *)

Lemma span_all (p : Z -> bool) (s a b : str) :
  span p s = (a, b) -> forallb p a = true.
Proof.
  revert a b. induction s as [|c s IH]; intros a b; cbn [span].
  - intros H. now injection H as <- <-.
  - destruct (p c) eqn:E.
    + destruct (span p s) as [a' b'] eqn:S. intros H. injection H as <- <-.
      cbn [forallb]. rewrite E. exact (IH a' b' eq_refl).
    + intros H. now injection H as <- <-.
Qed.

Lemma match_city_chars (s g : str) :
  match_city s = Some g -> forallb is_city_char g = true.
Proof.
  unfold match_city.
  destruct (starts_with (py "weather") s); [|discriminate].
  destruct (span is_space (skipn 7 s)) as [w1 r1].
  destruct w1 as [|x w1]; [discriminate|].
  destruct (if starts_with (py "in") r1 then Some (skipn 2 r1)
            else if starts_with (py "at") r1 then Some (skipn 2 r1)
            else if starts_with (py "for") r1 then Some (skipn 3 r1)
            else None) as [r2|]; [|discriminate].
  destruct (span is_space r2) as [w2 r3] eqn:S2.
  destruct w2 as [|y w2]; [discriminate|].
  destruct (span is_city_char r3) as [[|c g'] rest] eqn:S3.
  - destruct (rev (y :: w2)) as [|z [|z' t]] eqn:R; try discriminate.
    intros H. injection H as <-.
    apply span_all in S2. rewrite forallb_forall in S2.
    assert (Hz : In z (y :: w2)) by (apply in_rev; rewrite R; now left).
    apply S2 in Hz. cbn [forallb]. unfold is_city_char. rewrite Hz.
    now rewrite orb_true_r.
  - intros H. injection H as <-. exact (span_all _ _ _ _ S3).
Qed.

Lemma search_city_chars (s g : str) :
  search_city s = Some g -> forallb is_city_char g = true.
Proof.
  induction s as [|c s IH]; cbn [search_city].
  - destruct (match_city []) as [g'|] eqn:M; [|discriminate].
    intros H. injection H as <-. exact (match_city_chars _ _ M).
  - destruct (match_city (c :: s)) as [g'|] eqn:M; [|exact IH].
    intros H. injection H as <-. exact (match_city_chars _ _ M).
Qed.

Lemma forallb_strip (p : Z -> bool) (s : str) :
  forallb p s = true -> forallb p (strip s) = true.
Proof.
  destruct (strip_decompose s) as [a [b [H _]]]. intros Hs.
  rewrite H, !forallb_app in Hs.
  apply andb_true_iff in Hs as [_ Hs]. now apply andb_true_iff in Hs as [Hs _].
Qed.

Lemma drop_time_words_incl (U : unicode_db) (x : Z) (s : str) :
  forall prev skip, In x (drop_time_words U prev skip s) -> In x s.
Proof.
  induction s as [|c s IH]; intros prev skip; cbn [drop_time_words]; [auto|].
  destruct skip as [|n].
  - destruct (match_time_word U time_words prev (c :: s)).
    + intros H. right. exact (IH _ _ H).
    + intros [<- | H]; [now left | right; exact (IH _ _ H)].
  - intros H. right. exact (IH _ _ H).
Qed.

Lemma squeeze_spaces_chars (p : Z -> bool) (s : str) :
  forallb p s = true ->
  forallb (fun c => (p c && negb (is_space c)) || (c =? 32)) (squeeze_spaces s) = true.
Proof.
  induction s as [|c s IH]; [reflexivity|].
  cbn [forallb squeeze_spaces]. intros H. apply andb_true_iff in H as [Hc H].
  destruct (is_space c) eqn:E.
  - destruct s as [|d s'].
    + cbn [forallb]. change (32 =? 32) with true. now rewrite orb_true_r.
    + destruct (is_space d); [now apply IH|].
      cbn [forallb]. rewrite (IH H). change (32 =? 32) with true.
      now rewrite orb_true_r.
  - cbn [forallb]. rewrite Hc, E, (IH H). reflexivity.
Qed.

Lemma squeeze_spaces_head (d : Z) (s : str) :
  is_space d = false -> exists r, squeeze_spaces (d :: s) = d :: r.
Proof. intros H. cbn [squeeze_spaces]. rewrite H. now eexists. Qed.

Lemma squeeze_spaces_single (s : str) : no_double 32 (squeeze_spaces s) = true.
Proof.
  induction s as [|c s IH]; [reflexivity|]. cbn [squeeze_spaces].
  destruct (is_space c) eqn:E.
  - destruct s as [|d s']; [reflexivity|].
    destruct (is_space d) eqn:Ed; [exact IH|].
    destruct (squeeze_spaces_head d s' Ed) as [r Hr]. rewrite Hr in *.
    rewrite no_double_cons, IH.
    assert (Hd : (d =? 32) = false).
    { apply Z.eqb_neq. intros ->. discriminate Ed. }
    now rewrite Hd.
  - assert (Hc : (c =? 32) = false).
    { apply Z.eqb_neq. intros ->. discriminate E. }
    destruct (squeeze_spaces s) as [|y r]; [reflexivity|].
    now rewrite no_double_cons, Hc, IH.
Qed.

Lemma no_double_prefix (c : Z) (a b : str) :
  no_double c (a ++ b) = true -> no_double c a = true.
Proof.
  induction a as [|x a IH]; [reflexivity|].
  destruct a as [|y a']; [reflexivity|].
  change ((x :: y :: a') ++ b) with (x :: y :: a' ++ b).
  rewrite !no_double_cons. intros H. apply andb_true_iff in H as [-> H].
  now apply IH.
Qed.

Lemma no_double_strip (c : Z) (s : str) :
  no_double c s = true -> no_double c (strip s) = true.
Proof.
  destruct (strip_decompose s) as [a [b [H _]]]. intros Hs.
  rewrite H in Hs. apply (no_double_skipn c (length a)) in Hs.
  rewrite skipn_app_length in Hs. exact (no_double_prefix _ _ _ Hs).
Qed.

(** A stripped text has no white space at either end. *)
Lemma strip_ends (s : str) :
  starts_with [32] (strip s) = false /\ starts_with [32] (rev (strip s)) = false.
Proof.
  assert (N : forall t c r, lstrip t = c :: r -> starts_with [32] (c :: r) = false).
  { intros t c r H. apply lstrip_head in H. unfold starts_with.
    replace (32 =? c) with false; [reflexivity|].
    symmetry. apply Z.eqb_neq. intros <-. discriminate H. }
  split.
  - unfold strip. destruct (rstrip (lstrip s)) as [|c r] eqn:E; [reflexivity|].
    destruct (rstrip_prefix (lstrip s)) as [b Hb]. rewrite E in Hb.
    exact (N _ _ _ Hb).
  - unfold strip, rstrip. rewrite rev_involutive.
    destruct (lstrip (rev (lstrip s))) as [|c r] eqn:E; [reflexivity|].
    exact (N _ _ _ E).
Qed.

Section WeatherRule.

Variable U : unicode_db.
Variable sympy_float : pyval -> py_result float.
Variables get_weather search_arxiv : pyval -> ToolResult.

Lemma cleaned_city (g : str) :
  forallb is_city_char g = true ->
  is_clean_city
    (strip (squeeze_spaces (strip (drop_time_words U None 0 (strip g))))) = true.
Proof.
  intros Hg. unfold is_clean_city.
  set (c2 := strip (drop_time_words U None 0 (strip g))).
  assert (H2 : forallb is_city_char c2 = true).
  { apply forallb_strip, forallb_forall. intros x Hx.
    apply drop_time_words_incl in Hx.
    apply forallb_strip in Hg. rewrite forallb_forall in Hg. now apply Hg. }
  destruct (strip_ends (squeeze_spaces c2)) as [E1 E2]. rewrite E1, E2.
  rewrite (no_double_strip _ _ (squeeze_spaces_single c2)).
  rewrite !andb_true_r. apply forallb_strip.
  apply (squeeze_spaces_chars is_city_char) in H2.
  rewrite forallb_forall in *. intros x Hx. specialize (H2 x Hx).
  unfold is_city_char in H2.
  destruct (is_space x); destruct (x =? 32); destruct (is_ascii_alpha x);
    destruct (x =? 44); try reflexivity; discriminate H2.
Qed.

(** X23. Whatever the utterance, the city that the weather rule hands to
    [get_weather] is normalized: it consists of ASCII letters, commas and
    single spaces, and has no space at either end (it may be empty). *)
Theorem weather_rule_city_is_normalized
    (user_text : str) (o : outcome) (a : pyval) :
  maybe_call_by_rules U sympy_float get_weather search_arxiv user_text = Returns o ->
  In (T_get_weather, a) (calls o) ->
  exists city, a = PStr city /\ is_clean_city city = true.
Proof.
  unfold maybe_call_by_rules.
  destruct (negb _ && search_operator _).
  { intros H. injection H as <-. intros [H | []]. discriminate H. }
  destruct (existsb _ weather_words).
  2: { destruct (existsb _ arxiv_words); intros H; injection H as <-;
       [intros [H | []]; discriminate H | intros []]. }
  intros H. injection H as <-. intros [H | []]. injection H as <-.
  eexists. split; [reflexivity|].
  destruct (search_city (lower U (strip user_text))) as [g|] eqn:S.
  - apply cleaned_city. exact (search_city_chars _ _ S).
  - change (strip []) with (@nil Z). exact (cleaned_city [] eq_refl).
Qed.

End WeatherRule.

Section WeatherQuestion.

Variable U : unicode_db.
Variable sympy_float : pyval -> py_result float.
Variable search_arxiv : pyval -> ToolResult.
Variable DEFAULT_CITY : str.
Variable geocoding_api : str -> py_result pyval.
Variable forecast_api : pyval -> pyval -> py_result pyval.
Variable container_str : pyval -> str.
Variable int_of_other : pyval -> py_result Z.

(** X24. A weather question in which the rule finds no city (and whose
    normalized text has no operator) is answered for the default city:
    the rule calls [get_weather] with the empty string, which the tool
    replaces by [DEFAULT_CITY]. *)
Theorem weather_question_without_city (user_text : str) :
  search_operator (text_to_math_expr U (strip user_text)) = false ->
  existsb (fun w => contains w (lower U (strip user_text))) weather_words = true ->
  search_city (lower U (strip user_text)) = None ->
  maybe_call_by_rules U sympy_float
    (Services.get_weather DEFAULT_CITY geocoding_api forecast_api container_str
       int_of_other)
    search_arxiv user_text
  = Returns
      {| calls := [(T_get_weather, PStr [])];
         reply := Some (rendered (py "get_weather")
                          (Services.get_weather DEFAULT_CITY geocoding_api
                             forecast_api container_str int_of_other
                             (PStr DEFAULT_CITY))) |}.
Proof.
  intros Hop Hw Hc. unfold maybe_call_by_rules.
  rewrite Hop, Hw, Hc, andb_false_r.
  change (strip (squeeze_spaces (strip (drop_time_words U None 0 []))))
    with (@nil Z).
  now rewrite (get_weather_default DEFAULT_CITY geocoding_api forecast_api
                 container_str int_of_other (PStr [])).
Qed.

End WeatherQuestion.

Lemma normalized_city_example :
  exists city, PStr (py "new york") = PStr city /\ is_clean_city city = true.
Proof.
  apply (weather_rule_city_is_normalized plain_unicode SympyRef.sympy_float
           (offline (py "Weather")) (offline (py "arXiv search"))
           (py "What's the weather in  New   York tomorrow?")
           {| calls := [(T_get_weather, PStr (py "new york"))];
              reply := Some (py "Error from get_weather: Weather error: offline") |}
           (PStr (py "new york"))).
  - by_computation.
  - left. reflexivity.
Defined.

Lemma weather_question_example :
  maybe_call_by_rules plain_unicode SympyRef.sympy_float
    (Services.get_weather (py "Toronto, ON") sample_geocoding sample_forecast
       no_container_str no_int_of_other)
    (offline (py "arXiv search")) (py "How is the weather?")
  = Returns
      {| calls := [(T_get_weather, PStr [])];
         reply := Some (rendered (py "get_weather")
                          (Services.get_weather (py "Toronto, ON") sample_geocoding
                             sample_forecast no_container_str no_int_of_other
                             (PStr (py "Toronto, ON")))) |}.
Proof.
  apply (weather_question_without_city plain_unicode SympyRef.sympy_float
           (offline (py "arXiv search")) (py "Toronto, ON") sample_geocoding
           sample_forecast no_container_str no_int_of_other
           (py "How is the weather?")); by_computation.
Defined.

(** * Truncation of the messages that the manager builds *)

Section BuiltMessages.

Variable apply_chat_template : list Llm.message -> py_result str.
Variable _token_len : str -> py_result Z.
Variable self : Llm.ConvManager.

Lemma rounds_length (h : list (str * str)) :
  length (Llm.rounds h) = (2 * length h)%nat.
Proof.
  induction h as [|ua h IH]; [reflexivity|].
  unfold Llm.rounds in *. cbn [flat_map app length]. rewrite IH. lia.
Qed.

Lemma truncate_built_messages (sys last : Llm.message) (fuel : nat) :
  forall h : list (str * str),
    (length h < fuel)%nat ->
    exists r,
      Llm.truncate_loop apply_chat_template _token_len self fuel
        ([sys] ++ Llm.rounds h ++ [last]) = Some r
      /\ forall prompt,
           r = Returns prompt ->
           exists kept,
             suffix_of kept h
             /\ apply_chat_template ([sys] ++ Llm.rounds kept ++ [last])
                = Returns prompt.
Proof.
  induction fuel as [|fuel IH]; intros h Hlen; [lia|].
  cbn [Llm.truncate_loop].
  assert (Stay : forall prompt,
             apply_chat_template ([sys] ++ Llm.rounds h ++ [last]) = Returns prompt ->
             exists r,
               Some (Returns prompt) = Some r
               /\ forall prompt0,
                    r = Returns prompt0 ->
                    exists kept,
                      suffix_of kept h
                      /\ apply_chat_template ([sys] ++ Llm.rounds kept ++ [last])
                         = Returns prompt0).
  { intros prompt P. eexists. split; [reflexivity|].
    intros prompt0 E. injection E as <-. exists h. split; [now exists [] | exact P]. }
  destruct (apply_chat_template ([sys] ++ Llm.rounds h ++ [last]))
    as [prompt|exc msg] eqn:P.
  2: { eexists. split; [reflexivity|]. discriminate. }
  destruct (_token_len prompt) as [n|exc msg].
  2: { eexists. split; [reflexivity|]. discriminate. }
  destruct ((n <=? Llm.max_input_tokens self)
            || (length ([sys] ++ Llm.rounds h ++ [last]) <=? 2)%nat) eqn:C.
  { now apply Stay. }
  destruct h as [|[u a] h].
  { apply orb_false_iff in C as [_ C]. discriminate C. }
  assert (W : firstn (length ([sys] ++ Llm.rounds ((u, a) :: h) ++ [last]) - 2)
                (skipn 1 ([sys] ++ Llm.rounds ((u, a) :: h) ++ [last]))
              = {| Llm.role := py "user"; Llm.content := u |}
                :: {| Llm.role := py "assistant"; Llm.content := a |}
                :: Llm.rounds h).
  { change (skipn 1 ([sys] ++ Llm.rounds ((u, a) :: h) ++ [last]))
      with (Llm.rounds ((u, a) :: h) ++ [last]).
    replace (length ([sys] ++ Llm.rounds ((u, a) :: h) ++ [last]) - 2)%nat
      with (length (Llm.rounds ((u, a) :: h)) + 0)%nat
      by (cbn [app length]; rewrite length_app; cbn [length]; lia).
    rewrite firstn_app_2. cbn [firstn]. now rewrite app_nil_r. }
  rewrite W.
  change (Llm.find_cut 1 false
            ({| Llm.role := py "user"; Llm.content := u |}
             :: {| Llm.role := py "assistant"; Llm.content := a |}
             :: Llm.rounds h))
    with (Some 2%nat).
  change (firstn 1 ([sys] ++ Llm.rounds ((u, a) :: h) ++ [last])
          ++ skipn 3 ([sys] ++ Llm.rounds ((u, a) :: h) ++ [last]))
    with ([sys] ++ Llm.rounds h ++ [last]).
  destruct (IH h) as [r [Hr Hpost]]; [cbn [length] in Hlen; lia|].
  exists r. split; [exact Hr|].
  intros prompt0 E. destruct (Hpost prompt0 E) as [kept [[dropped Hs] Hp]].
  exists kept. split; [|exact Hp].
  exists ((u, a) :: dropped). now rewrite Hs.
Qed.

(** X25. On the messages that [_build_messages] puts together the
    truncation loop ends and drops whole rounds, oldest first: a prompt
    it returns is the template of the system message, the rounds that
    remain of the last [max_history] ones, and the new utterance. *)
Theorem truncation_drops_whole_rounds (user_text : str) :
  exists r,
    Llm._apply_template_and_truncate apply_chat_template _token_len self
      (Llm._build_messages self user_text) = Some r
    /\ forall prompt,
         r = Returns prompt ->
         exists kept,
           suffix_of kept (Llm.last_items (Llm.max_history self) (Llm.history self))
           /\ apply_chat_template
                ([ {| Llm.role := py "system";
                      Llm.content := py "You are a helpful, concise assistant." |} ]
                 ++ Llm.rounds kept
                 ++ [ {| Llm.role := py "user"; Llm.content := user_text |} ])
              = Returns prompt.
Proof.
  unfold Llm._apply_template_and_truncate, Llm._build_messages.
  apply truncate_built_messages.
  cbn [app length]. rewrite length_app, rounds_length. cbn [length]. lia.
Qed.

End BuiltMessages.

(** * The rendering of a result by [calculate] *)

Lemma str_of_int_numeral (n : Z) : forallb is_numeral_char (str_of_int n) = true.
Proof.
  assert (D : forall d, forallb is_numeral_char (uint_digits d) = true).
  { intros d. pose proof (uint_digits_are_digits d) as H.
    rewrite forallb_forall in *. intros x Hx. unfold is_numeral_char.
    now rewrite (H x Hx). }
  destruct n; cbn [str_of_int forallb]; [reflexivity | apply D|].
  change (is_numeral_char 45) with true. apply D.
Qed.

Lemma format_cents_numeral (neg : bool) (n : Z) :
  forallb is_numeral_char (format_cents neg n) = true.
Proof.
  unfold format_cents. rewrite !forallb_app, str_of_int_numeral.
  assert (Ha : 0 <= (n mod 100) / 10 <= 9).
  { pose proof (Z.mod_pos_bound n 100 eq_refl). split.
    - apply Z.div_pos; lia.
    - apply Z.lt_succ_r, Z.div_lt_upper_bound; lia. }
  assert (Hb : 0 <= (n mod 100) mod 10 <= 9).
  { pose proof (Z.mod_pos_bound (n mod 100) 10 eq_refl). lia. }
  assert (D : forall x, 0 <= x <= 9 -> is_numeral_char (48 + x) = true).
  { intros x Hx. unfold is_numeral_char, is_ascii_digit, in_range.
    replace (48 <=? 48 + x) with true by (symmetry; apply Z.leb_le; lia).
    replace (48 + x <=? 57) with true by (symmetry; apply Z.leb_le; lia).
    reflexivity. }
  cbn [forallb]. rewrite (D _ Ha), (D _ Hb).
  now destruct neg.
Qed.

Lemma span_whole (p : Z -> bool) (a : str) :
  forallb p a = true -> span p a = (a, []).
Proof.
  induction a as [|x a IH]; cbn [forallb span]; [reflexivity|].
  intros H. apply andb_true_iff in H as [-> H]. now rewrite (IH H).
Qed.

Lemma uint_digits_not_empty (p : positive) : uint_digits (Pos.to_uint p) <> [].
Proof.
  pose proof (DecimalPos.Unsigned.to_uint_nonnil p) as P.
  destruct (Pos.to_uint p); [congruence | discriminate ..].
Qed.

(** The digits of an integer that is not negative. *)
Lemma str_of_int_digits (n : Z) :
  0 <= n ->
  forallb is_ascii_digit (str_of_int n) = true /\ str_of_int n <> [].
Proof.
  destruct n as [|p|p]; cbn [str_of_int]; [intros _ | intros _ | lia].
  - split; [reflexivity | discriminate].
  - split; [apply uint_digits_are_digits | apply uint_digits_not_empty].
Qed.

Lemma unsigned_part_digits (s t : str) :
  forallb is_ascii_digit s = true -> s <> [] ->
  unsigned_part (s ++ t) = s ++ t /\ unsigned_part (45 :: s ++ t) = s ++ t.
Proof.
  intros D N. split; [|reflexivity].
  destruct s as [|c r]; [congruence|]. cbn [app forallb unsigned_part] in *.
  apply andb_true_iff in D as [D _]. unfold is_ascii_digit, in_range in D.
  apply andb_true_iff in D as [D _]. apply Z.leb_le in D.
  destruct (c =? 45) eqn:E; [apply Z.eqb_eq in E; lia | reflexivity].
Qed.

Lemma str_eqb_nil_false (s : str) : s <> [] -> str_eqb s [] = false.
Proof. destruct s; [congruence | reflexivity]. Qed.

Lemma str_of_int_is_numeral (n : Z) : is_numeral (str_of_int n) = true.
Proof.
  assert (P : forall s, forallb is_ascii_digit s = true -> s <> [] ->
                        is_numeral s = true /\ is_numeral (45 :: s) = true).
  { intros s D N. unfold is_numeral.
    destruct (unsigned_part_digits s [] D N) as [E1 E2].
    rewrite app_nil_r in E1, E2. rewrite E1, E2.
    rewrite (span_whole _ _ D), (str_eqb_nil_false _ N).
    split; reflexivity. }
  destruct n as [|p|p]; cbn [str_of_int]; [reflexivity| |];
    apply (P _ (uint_digits_are_digits _) (uint_digits_not_empty p)).
Qed.

Lemma format_cents_is_numeral (neg : bool) (n : Z) :
  0 <= n -> is_numeral (format_cents neg n) = true.
Proof.
  intros Hn. unfold format_cents.
  assert (Hq : 0 <= n / 100) by (apply Z.div_pos; lia).
  destruct (str_of_int_digits _ Hq) as [D N].
  assert (Ha : 0 <= (n mod 100) / 10 <= 9).
  { pose proof (Z.mod_pos_bound n 100 eq_refl). split.
    - apply Z.div_pos; lia.
    - apply Z.lt_succ_r, Z.div_lt_upper_bound; lia. }
  assert (Hb : 0 <= (n mod 100) mod 10 <= 9).
  { pose proof (Z.mod_pos_bound (n mod 100) 10 eq_refl). lia. }
  assert (Dg : forall x, 0 <= x <= 9 -> is_ascii_digit (48 + x) = true).
  { intros x Hx. unfold is_ascii_digit, in_range.
    apply andb_true_iff. split; apply Z.leb_le; lia. }
  set (ds := str_of_int (n / 100)) in *.
  set (a := 48 + (n mod 100) / 10) in *. set (b := 48 + (n mod 100) mod 10) in *.
  destruct (unsigned_part_digits ds ([46] ++ [a; b]) D N) as [E1 E2].
  assert (B : is_numeral (ds ++ [46] ++ [a; b]) = true
              /\ is_numeral (45 :: ds ++ [46] ++ [a; b]) = true).
  { unfold is_numeral. rewrite E1, E2. cbn [app].
    rewrite (span_stop is_ascii_digit ds 46 [a; b] D eq_refl),
      (str_eqb_nil_false _ N).
    rewrite (Dg _ Ha : is_ascii_digit a = true),
      (Dg _ Hb : is_ascii_digit b = true).
    split; reflexivity. }
  destruct neg; cbn [app]; apply B.
Qed.

Lemma r_search_nonneg (m : positive) (e : Z) (fuel : nat) (k : Z) :
  0 <= fst (r_search m e fuel k).
Proof.
  revert k. induction fuel as [|n IH]; intros k; cbn [r_search].
  - destruct (0 <=? e); cbn [fst].
    + apply Z.mul_nonneg_nonneg; [lia | apply Z.pow_nonneg; lia].
    + apply Z.mul_nonneg_nonneg; [lia | apply Z.pow_nonneg; lia].
  - destruct (r_try m e k) as [c|] eqn:T; [|apply IH].
    cbn [fst]. now apply r_try_upper in T.
Qed.

(** The decimal that [repr] spells has a coefficient that is not
    negative, and so has its rounding to two decimals. *)
Lemma decimal_of_float_str_nonneg (f : float) (d : decimal) :
  decimal_of_float_str f = Returns d -> 0 <= d_coef d.
Proof.
  destruct f as [s|s| |s m e]; cbn [decimal_of_float_str]; try discriminate.
  - intros H. injection H as <-. cbn [d_coef]. lia.
  - unfold repr_digits.
    pose proof (r_search_nonneg m e
                  (S (Z.to_nat (Z.max 0 (Z.pos (digits2_pos m) + e) - Z.min e 0)))
                  (Z.max 0 (Z.pos (digits2_pos m) + e))) as H.
    destruct (r_search m e _ _) as [c k]. cbn [fst] in H.
    intros E. injection E as <-. exact H.
Qed.

Lemma quantize_cents_nonneg (d : decimal) (n : Z) :
  0 <= d_coef d -> quantize_cents d = Returns n -> 0 <= n.
Proof.
  intros Hc. unfold quantize_cents.
  set (v := if 0 <=? d_exp d + 2 then _ else _).
  assert (Hv : 0 <= v).
  { unfold v. destruct (0 <=? d_exp d + 2) eqn:E.
    - apply Z.mul_nonneg_nonneg; [lia | apply Z.pow_nonneg; lia].
    - apply Z.leb_gt in E.
      assert (P : 0 < 10 ^ (- (d_exp d + 2))) by (apply Z.pow_pos_nonneg; lia).
      pose proof (Z.div_pos (d_coef d) _ Hc P).
      destruct (_ <=? _); lia. }
  destruct (10 ^ 28 <=? v); [discriminate|].
  intros H. injection H as <-. exact Hv.
Qed.

Section CalculateResult.

Variable sympy_float : pyval -> py_result float.

(** X26. Whatever SymPy returns, a successful [calculate] answers with a
    plain decimal numeral: an optional leading [-], then one digit or more,
    then either nothing or a decimal point followed by exactly two digits,
    and nothing else; it never answers the empty text, [nan], [inf] or a
    number in exponent notation.  A failure carries a message that starts
    with [Math calculation error: ]. *)
Theorem calculate_answers_with_a_numeral (expression : pyval) :
  (ok (Tools.calculate sympy_float expression) = true ->
   is_numeral (content (Tools.calculate sympy_float expression)) = true
   /\ forallb is_numeral_char (content (Tools.calculate sympy_float expression)) = true
   /\ (no_decimal_point (content (Tools.calculate sympy_float expression)) = true
       \/ two_decimals (content (Tools.calculate sympy_float expression)) = true))
  /\ (ok (Tools.calculate sympy_float expression) = false ->
      starts_with (py "Math calculation error: ")
        (content (Tools.calculate sympy_float expression)) = true).
Proof.
  unfold Tools.calculate, calculate_try.
  destruct (sympy_float expression) as [f|]; cbn [bind].
  2: { split; [discriminate | intros _; apply starts_with_self_app]. }
  destruct (py_round f) as [r|]; cbn [bind].
  2: { split; [discriminate | intros _; apply starts_with_self_app]. }
  destruct (float_lt _ _).
  { cbn [ok content]. split; [intros _ | discriminate].
    split; [apply str_of_int_is_numeral|].
    split; [apply str_of_int_numeral | left].
    unfold no_decimal_point. now rewrite str_of_int_no_point. }
  destruct (decimal_of_float_str f) as [d|] eqn:D; cbn [bind].
  2: { split; [discriminate | intros _; apply starts_with_self_app]. }
  destruct (quantize_cents d) as [n|] eqn:Q; cbn [bind].
  2: { split; [discriminate | intros _; apply starts_with_self_app]. }
  cbn [ok content]. split; [intros _ | discriminate].
  pose proof (quantize_cents_nonneg d n (decimal_of_float_str_nonneg f d D) Q) as Hn.
  destruct (str_eqb (format_cents (d_neg d) n) (py "-0.00")).
  - split; [by_computation | split; [by_computation | right; by_computation]].
  - split; [now apply format_cents_is_numeral|].
    split; [apply format_cents_numeral | right; apply format_cents_two_decimals].
Qed.

End CalculateResult.

(** * White space around the input *)

Lemma lstrip_spaces_app (a t : str) :
  forallb is_space a = true -> lstrip (a ++ t) = lstrip t.
Proof.
  induction a as [|c a IH]; [reflexivity|]. cbn [forallb app lstrip].
  intros H. apply andb_true_iff in H as [-> H]. now apply IH.
Qed.

Lemma lstrip_app (t b : str) :
  lstrip (t ++ b) = match lstrip t with
                    | [] => lstrip b
                    | _ :: _ => lstrip t ++ b
                    end.
Proof.
  induction t as [|c t IH]; [reflexivity|].
  cbn [app lstrip]. destruct (is_space c); [exact IH | reflexivity].
Qed.

Lemma strip_outer (a t b : str) :
  forallb is_space a = true -> forallb is_space b = true ->
  strip (a ++ t ++ b) = strip t.
Proof.
  intros Ha Hb. unfold strip. rewrite (lstrip_spaces_app _ _ Ha), lstrip_app.
  destruct (lstrip t) as [|c r] eqn:E.
  - rewrite <- (app_nil_r b), (lstrip_spaces_app _ _ Hb). reflexivity.
  - unfold rstrip. rewrite rev_app_distr. f_equal.
    apply lstrip_spaces_app. apply forallb_forall. intros x Hx.
    apply in_rev in Hx. rewrite forallb_forall in Hb. now apply Hb.
Qed.

Section OuterWhiteSpace.

Variable U : unicode_db.
Variable json_loads : str -> option pyval.
Variable sympy_float : pyval -> py_result float.
Variables get_weather search_arxiv : pyval -> ToolResult.

(** X27. White space before and after the text changes nothing: the
    extractor finds the same call, the router gives the same outcome for
    the model output and the rules give the same outcome for the
    utterance, the argument handed to the literature search included. *)
Theorem surrounding_white_space_is_ignored (a text b : str) :
  forallb is_space a = true ->
  forallb is_space b = true ->
  _extract_json_call json_loads (a ++ text ++ b) = _extract_json_call json_loads text
  /\ try_route_llm_function_call json_loads sympy_float get_weather search_arxiv
       (a ++ text ++ b)
     = try_route_llm_function_call json_loads sympy_float get_weather search_arxiv
         text
  /\ maybe_call_by_rules U sympy_float get_weather search_arxiv (a ++ text ++ b)
     = maybe_call_by_rules U sympy_float get_weather search_arxiv text.
Proof.
  intros Ha Hb.
  assert (E : _extract_json_call json_loads (a ++ text ++ b)
              = _extract_json_call json_loads text).
  { unfold _extract_json_call. now rewrite (strip_outer _ _ _ Ha Hb). }
  split; [exact E|]. split.
  - unfold try_route_llm_function_call. now rewrite E.
  - unfold maybe_call_by_rules. now rewrite (strip_outer _ _ _ Ha Hb).
Qed.

End OuterWhiteSpace.

Lemma surrounding_white_space_example :
  _extract_json_call Json.json_loads
    ([32; 10] ++ pyq "{'function': 'get_weather'}" ++ [10])
  = _extract_json_call Json.json_loads (pyq "{'function': 'get_weather'}")
  /\ try_route_llm_function_call Json.json_loads SympyRef.sympy_float
       (offline (py "Weather")) (offline (py "arXiv search"))
       ([32; 10] ++ pyq "{'function': 'get_weather'}" ++ [10])
     = try_route_llm_function_call Json.json_loads SympyRef.sympy_float
         (offline (py "Weather")) (offline (py "arXiv search"))
         (pyq "{'function': 'get_weather'}")
  /\ maybe_call_by_rules plain_unicode SympyRef.sympy_float
       (offline (py "Weather")) (offline (py "arXiv search"))
       ([32; 10] ++ pyq "{'function': 'get_weather'}" ++ [10])
     = maybe_call_by_rules plain_unicode SympyRef.sympy_float
         (offline (py "Weather")) (offline (py "arXiv search"))
         (pyq "{'function': 'get_weather'}").
Proof.
  apply (surrounding_white_space_is_ignored plain_unicode Json.json_loads
           SympyRef.sympy_float (offline (py "Weather"))
           (offline (py "arXiv search"))
           [32; 10] (pyq "{'function': 'get_weather'}") [10]); reflexivity.
Defined.

(** * The digits of an utterance *)

Lemma subseq_refl {A : Type} (l : list A) : subseq l l.
Proof. induction l; [apply subseq_nil | now apply subseq_keep]. Qed.

Lemma subseq_trans {A : Type} (l1 l2 l3 : list A) :
  subseq l1 l2 -> subseq l2 l3 -> subseq l1 l3.
Proof.
  intros H12 H23. revert l1 H12.
  induction H23 as [l|x l2 l3 H IH|x l2 l3 H IH]; intros l1 H12.
  - inversion H12. apply subseq_nil.
  - apply subseq_skip. now apply IH.
  - inversion H12; subst.
    + apply subseq_nil.
    + apply subseq_skip. now apply IH.
    + apply subseq_keep. now apply IH.
Qed.

Lemma subseq_app_r {A : Type} (p l1 l2 : list A) :
  subseq l1 l2 -> subseq l1 (p ++ l2).
Proof. intros H. induction p; [exact H | now apply subseq_skip]. Qed.

Lemma digits_of_app (a b : str) : digits_of (a ++ b) = digits_of a ++ digits_of b.
Proof. apply filter_app. Qed.

Lemma digits_of_cons (c : Z) (s : str) :
  digits_of (c :: s) = if is_ascii_digit c then c :: digits_of s else digits_of s.
Proof. reflexivity. Qed.

Lemma subseq_digits_cons (c : Z) (s t : str) :
  subseq (digits_of s) (digits_of t) ->
  subseq (digits_of (c :: s)) (digits_of (c :: t)).
Proof.
  intros H. rewrite !digits_of_cons.
  destruct (is_ascii_digit c); [now apply subseq_keep | exact H].
Qed.

Lemma digits_of_none (k : str) :
  forallb (fun x => negb (is_ascii_digit x)) k = true -> digits_of k = [].
Proof.
  induction k as [|c k IH]; [reflexivity|]. cbn [forallb].
  intros H. apply andb_true_iff in H as [Hc H]. apply negb_true_iff in Hc.
  rewrite digits_of_cons, Hc. now apply IH.
Qed.

Section Digits.

Variable U : unicode_db.

Lemma digits_lower_from (whole : str) (s : str) :
  forall i, subseq (digits_of s) (digits_of (lower_from U whole i s)).
Proof.
  induction s as [|c s IH]; intros i; [apply subseq_nil|].
  cbn [lower_from]. rewrite digits_of_app, digits_of_cons.
  destruct (is_ascii_digit c) eqn:D.
  - unfold is_ascii_digit, in_range in D. apply andb_true_iff in D as [D1 D2].
    apply Z.leb_le in D1, D2. unfold lower_char, is_ascii_upper, in_range.
    replace (c <? 128) with true by (symmetry; apply Z.ltb_lt; lia).
    replace (65 <=? c) with false by (symmetry; apply Z.leb_gt; lia).
    cbn [andb]. rewrite digits_of_cons.
    replace (is_ascii_digit c) with true
      by (symmetry; unfold is_ascii_digit, in_range;
          apply andb_true_iff; split; apply Z.leb_le; lia).
    apply subseq_keep, IH.
  - apply subseq_app_r, IH.
Qed.

Lemma digits_re_sub_word_go (k0 : Z) (k' v : str) :
  forallb (fun x => negb (is_ascii_digit x)) (k0 :: k') = true ->
  forall (s : str) (prev : option Z) (skip : nat),
    forallb (fun x => negb (is_ascii_digit x)) (firstn skip s) = true ->
    subseq (digits_of s) (digits_of (re_sub_word_go U (k0 :: k') v prev skip s)).
Proof.
  intros Hk. induction s as [|c s IH]; intros prev skip Hskip; [apply subseq_nil|].
  cbn [re_sub_word_go]. destruct skip as [|n].
  - destruct (word_match U (k0 :: k') prev (c :: s)) eqn:M.
    + unfold word_match in M. rewrite !andb_true_iff in M.
      destruct M as [[M _] _]. apply starts_with_app in M as [r M].
      cbn [app] in M. injection M as <- ->.
      cbn [forallb] in Hk. apply andb_true_iff in Hk as [Hc Hk'].
      apply negb_true_iff in Hc.
      rewrite digits_of_cons, Hc, (digits_of_app v). apply subseq_app_r.
      apply IH. cbn [length Nat.pred]. now rewrite firstn_app_length.
    + apply subseq_digits_cons, IH. reflexivity.
  - cbn [firstn forallb] in Hskip. apply andb_true_iff in Hskip as [Hc Hs].
    apply negb_true_iff in Hc. rewrite digits_of_cons, Hc. now apply IH.
Qed.

Lemma digits_re_sub_word (k v s : str) :
  forallb (fun x => negb (is_ascii_digit x)) k = true ->
  subseq (digits_of s) (digits_of (re_sub_word U k v s)).
Proof.
  intros Hk. destruct k as [|k0 k']; [apply subseq_refl|].
  unfold re_sub_word. now apply digits_re_sub_word_go.
Qed.

Lemma digits_fold {A : Type} (key value : A -> str) (l : list A) :
  forallb (fun a => forallb (fun x => negb (is_ascii_digit x)) (key a)) l = true ->
  forall s,
    subseq (digits_of s)
      (digits_of (fold_left (fun s a => re_sub_word U (key a) (value a) s) l s)).
Proof.
  induction l as [|a l IH]; intros Hl s; [apply subseq_refl|].
  cbn [forallb] in Hl. apply andb_true_iff in Hl as [Ha Hl]. cbn [fold_left].
  eapply subseq_trans; [apply (digits_re_sub_word (key a) (value a) s Ha)|].
  now apply IH.
Qed.

Lemma digits_keep_expr_chars (s : str) :
  digits_of (map (fun c => if is_expr_char c then c else 32) s) = digits_of s.
Proof.
  induction s as [|c s IH]; [reflexivity|]. cbn [map].
  rewrite !digits_of_cons, IH. unfold is_expr_char.
  destruct (is_ascii_digit c) eqn:D; cbn [orb]; [now rewrite D|].
  destruct (_ || _); [now rewrite D | reflexivity].
Qed.

Lemma digits_drop_spaces (s : str) :
  digits_of (filter (fun c => negb (is_space c)) s) = digits_of s.
Proof.
  induction s as [|c s IH]; [reflexivity|]. cbn [filter].
  destruct (is_space c) eqn:E; cbn [negb].
  - rewrite IH, digits_of_cons.
    replace (is_ascii_digit c) with false; [reflexivity|].
    symmetry. apply not_true_iff_false. intros D.
    assert (Hs : is_symbol_char c = true) by (unfold is_symbol_char; now rewrite D).
    apply symbol_char_not_space in Hs. congruence.
  - now rewrite !digits_of_cons, IH.
Qed.

Lemma digits_collapse_runs (c : Z) (s : str) :
  is_ascii_digit c = false -> digits_of (collapse_runs c s) = digits_of s.
Proof.
  intros Hc. induction s as [|x s IH]; [reflexivity|].
  cbn [collapse_runs]. destruct s as [|y t]; [reflexivity|].
  destruct ((x =? c) && (y =? c)) eqn:E.
  - apply andb_true_iff in E as [Ex _]. apply Z.eqb_eq in Ex. subst x.
    now rewrite IH, (digits_of_cons c), Hc.
  - now rewrite !(digits_of_cons x), IH.
Qed.

Lemma digits_replace_go (s : str) :
  forall skip,
    forallb (fun x => negb (is_ascii_digit x)) (firstn skip s) = true ->
    digits_of (replace_go [42; 42; 43] [42; 42] skip s) = digits_of s.
Proof.
  induction s as [|c s IH]; intros skip Hskip; [reflexivity|].
  cbn [replace_go]. destruct skip as [|n].
  - destruct (starts_with [42; 42; 43] (c :: s)) eqn:M.
    + apply starts_with_app in M as [r M]. cbn [app] in M. injection M as -> ->.
      cbn [length Nat.pred]. rewrite digits_of_app.
      change (digits_of [42; 42]) with (@nil Z). cbn [app].
      rewrite IH by reflexivity. reflexivity.
    + now rewrite !digits_of_cons, IH.
  - cbn [firstn forallb] in Hskip. apply andb_true_iff in Hskip as [Hc Hs].
    apply negb_true_iff in Hc. rewrite digits_of_cons, Hc. now apply IH.
Qed.

(** X28. No digit of an utterance is lost or moved by the normalizer:
    the digits of the utterance, in their order, are among the digits of
    the normalized text (which has further digits only where a word such
    as [squared] was replaced). *)
Theorem digits_survive_normalization (q : str) :
  subseq (digits_of q) (digits_of (text_to_math_expr U q)).
Proof.
  unfold text_to_math_expr, replace, lower.
  change (py "**+") with [42; 42; 43]. change (py "**") with [42; 42]. cbv iota.
  rewrite digits_replace_go by reflexivity.
  rewrite !digits_collapse_runs by reflexivity.
  rewrite digits_drop_spaces, digits_keep_expr_chars.
  eapply subseq_trans; [apply (digits_lower_from q q 0)|].
  eapply subseq_trans;
    [apply (digits_fold fst snd replacements); by_computation|].
  eapply subseq_trans;
    [apply (digits_fold fst snd single_words); by_computation|].
  apply (digits_fold (fun k => k) (fun _ => py " ") noise). by_computation.
Qed.

End Digits.

(** * The weather report *)

Lemma lstrip_char_head (c : Z) (s : str) (x : Z) (r : str) :
  Services.lstrip_char c s = x :: r -> (c =? x) = false.
Proof.
  induction s as [|y s IH]; cbn [Services.lstrip_char]; [discriminate|].
  destruct (y =? c) eqn:E; [exact IH|].
  intros H. injection H as <- _. now rewrite Z.eqb_sym.
Qed.

Lemma lstrip_char_dropped (c : Z) (s : str) :
  exists a, s = a ++ Services.lstrip_char c s.
Proof.
  induction s as [|y s [a IH]]; cbn [Services.lstrip_char]; [now exists []|].
  destruct (y =? c); [|now exists []].
  exists (y :: a). cbn [app]. now rewrite <- IH.
Qed.

(** Stripping a character leaves it at neither end. *)
Lemma strip_char_ends (c : Z) (s : str) :
  starts_with [c] (Services.strip_char c s) = false
  /\ starts_with [c] (rev (Services.strip_char c s)) = false.
Proof.
  assert (N : forall x r, (c =? x) = false -> starts_with [c] (x :: r) = false).
  { intros x r H. unfold starts_with. now rewrite H. }
  unfold Services.strip_char. split.
  - set (u := Services.lstrip_char c s).
    destruct (rev (Services.lstrip_char c (rev u))) as [|x r] eqn:E; [reflexivity|].
    apply N.
    destruct (lstrip_char_dropped c (rev u)) as [a Ha].
    apply (f_equal (@rev Z)) in Ha. rewrite rev_involutive, rev_app_distr, E in Ha.
    exact (lstrip_char_head c s x _ Ha).
  - rewrite rev_involutive.
    destruct (Services.lstrip_char c (rev (Services.lstrip_char c s)))
      as [|x r] eqn:E; [reflexivity|].
    apply N. exact (lstrip_char_head _ _ _ _ E).
Qed.

Lemma WMO_get_known (code : Z) :
  Services._WMO_get code = py "unknown"
  \/ In (Services._WMO_get code) (map snd Services._WMO).
Proof.
  unfold Services._WMO_get.
  destruct (List.find (fun kv => fst kv =? code) Services._WMO) as [kv|] eqn:F;
    [right | now left].
  apply find_some in F as [F _]. now apply in_map.
Qed.

Section WeatherReport.

Variable DEFAULT_CITY : str.
Variable geocoding_api : str -> py_result pyval.
Variable forecast_api : pyval -> pyval -> py_result pyval.
Variable container_str : pyval -> str.
Variable int_of_other : pyval -> py_result Z.

(** X29. Every successful weather report has the same shape: the place,
    which has no comma at either end, the temperature, the apparent
    temperature, a description that is an entry of the table of weather
    codes or [unknown], the wind and the precipitation. *)
Theorem weather_report_shape (location : pyval) :
  ok (Services.get_weather DEFAULT_CITY geocoding_api forecast_api container_str
        int_of_other location) = true ->
  exists place t feels desc wind prcp,
    content (Services.get_weather DEFAULT_CITY geocoding_api forecast_api
               container_str int_of_other location)
    = place ++ py ": " ++ t ++ py "°C, feels like " ++ feels ++ py "°C, "
      ++ desc ++ py ", wind " ++ wind ++ py " km/h, precip " ++ prcp
      ++ py " mm (current)."
    /\ (desc = py "unknown" \/ In desc (map snd Services._WMO))
    /\ starts_with [44] place = false
    /\ starts_with [44] (rev place) = false.
Proof.
  unfold Services.get_weather, Services.get_weather_try.
  destruct (Services.py_strip _) as [city|]; cbn [bind]; [|discriminate].
  destruct (Services._geocode_city geocoding_api city) as [[g|]|]; cbn [bind];
    try discriminate.
  destruct (forecast_api _ _) as [j|]; cbn [bind]; [|discriminate].
  destruct (Services.py_get j _ _) as [cur|]; cbn [bind]; [|discriminate].
  destruct (Services.py_get cur (py "temperature_2m") _) as [t|]; cbn [bind];
    [|discriminate].
  destruct (Services.py_get cur (py "apparent_temperature") _) as [feels|];
    cbn [bind]; [|discriminate].
  destruct (Services.py_get cur (py "weather_code") _) as [wcode|]; cbn [bind];
    [|discriminate].
  destruct (Services.py_get cur (py "wind_speed_10m") _) as [wind|]; cbn [bind];
    [|discriminate].
  destruct (Services.py_get cur (py "precipitation") _) as [prcp|]; cbn [bind];
    [|discriminate].
  destruct (match wcode with PNone => _ | _ => _ end) as [code|]; cbn [bind];
    [|discriminate].
  intros _. cbn [content].
  do 6 eexists. split; [reflexivity|]. split; [apply WMO_get_known|].
  apply strip_char_ends.
Qed.

End WeatherReport.

Lemma weather_report_example :
  exists place t feels desc wind prcp,
    content (Services.get_weather (py "Toronto, ON") sample_geocoding
               sample_forecast no_container_str no_int_of_other PNone)
    = place ++ py ": " ++ t ++ py "°C, feels like " ++ feels ++ py "°C, "
      ++ desc ++ py ", wind " ++ wind ++ py " km/h, precip " ++ prcp
      ++ py " mm (current)."
    /\ (desc = py "unknown" \/ In desc (map snd Services._WMO))
    /\ starts_with [44] place = false
    /\ starts_with [44] (rev place) = false.
Proof.
  apply (weather_report_shape (py "Toronto, ON") sample_geocoding sample_forecast
           no_container_str no_int_of_other PNone).
  by_computation.
Defined.
